(** * Screen layer of the SW102 display firmware (screen.c / screen.h)

    A shallow embedding of the field-based screen model: the Field and
    FieldLayout objects, the differential renderer, the stack of nested
    scrollable menus, the editable engine and the layered button dispatch.

    The C globals become one [state] record that every operation threads
    through the monad [M], whose outcomes tell a normal return from a failed
    [assert], from undefined behaviour (a null or out-of-range pointer) and
    from an exhausted recursion budget. *)

From Stdlib Require Import ZArith Lia Bool List String Ascii DecimalString.
From stdpp Require Import base list.

Local Open Scope Z_scope.

(** ** Machine integers *)

Module MachInt.

(** Conversion to an unsigned integer of [bits] bits. *)
Definition wrap_u (bits z : Z) : Z := z mod 2 ^ bits.

(** Conversion to a two's-complement integer of [bits] bits. *)
Definition wrap_s (bits z : Z) : Z :=
  (z + 2 ^ (bits - 1)) mod 2 ^ bits - 2 ^ (bits - 1).

Definition to_uint8 := wrap_u 8.
Definition to_uint16 := wrap_u 16.
Definition to_uint32 := wrap_u 32.
Definition to_int16 := wrap_s 16.
Definition to_int32 := wrap_s 32.

(** C division and remainder truncate towards zero. *)
Definition c_div (a b : Z) : Z := Z.quot a b.
Definition c_mod (a b : Z) : Z := Z.rem a b.

End MachInt.
Export MachInt.

(** ** Raw storage cells

    Editable fields point at plain memory owned by the configuration layer.
    That memory is a list of bytes addressed by position; multi-byte values
    are little endian, as on the Cortex-M0 the firmware runs on. *)

Module Mem.

Definition Z_of_byte (b : Byte.byte) : Z := Z.of_N (Byte.to_N b).

Definition byte_of_Z (z : Z) : Byte.byte :=
  match Byte.of_N (Z.to_N (z mod 256)) with
  | Some b => b
  | None => Byte.x00
  end.

(** The unsigned value of the [n] bytes at address [a]. *)
Fixpoint load_le (n : nat) (a : nat) (m : list Byte.byte) : option Z :=
  match n with
  | O => Some 0
  | S n' =>
      match m !! a, load_le n' (S a) m with
      | Some b, Some r => Some (Z_of_byte b + 256 * r)
      | _, _ => None
      end
  end.

(** Write the low [n] bytes of [v] at address [a]. *)
Fixpoint store_le (n : nat) (a : nat) (v : Z) (m : list Byte.byte)
  : list Byte.byte :=
  match n with
  | O => m
  | S n' => store_le n' (S a) (v / 256) (<[a := byte_of_Z v]> m)
  end.

Definition in_bounds (n a : nat) (m : list Byte.byte) : bool :=
  Nat.leb (a + n) (length m).

End Mem.
Export Mem.

(** ** Data model (screen.h)

    screen.c is written against a later screen.h than the one at hand: it
    uses members that this header does not declare yet ([blink],
    [is_selected], [read_only], [hide_fraction], a [size] that sits beside
    [typ], the [border], [font], [modifier] and [old_editable] of a layout,
    the [onExit] of a screen).  They are taken with the types that their
    uses in screen.c and the data model of the spec give them. *)

Definition MAX_FIELD_LEN : nat := 16.

Inductive ColorOp := ColorNormal | ColorInvert | ColorSelected.

Inductive FieldVariant :=
| FieldDrawText | FieldFill | FieldMesh | FieldScrollable | FieldEditable
| FieldEnd.

Inductive EditableType := EditUInt | EditEnum.

Definition FieldVariant_eqb (a b : FieldVariant) : bool :=
  match a, b with
  | FieldDrawText, FieldDrawText | FieldFill, FieldFill
  | FieldMesh, FieldMesh | FieldScrollable, FieldScrollable
  | FieldEditable, FieldEditable | FieldEnd, FieldEnd => true
  | _, _ => false
  end.

(** Pointers.  A [Field *] is the position of the Field in the field memory
    of the state, a [FieldLayout *] the position of the layout in the layout
    memory, so that pointer arithmetic ([entries + n], [layout++]) is
    addition and two pointers are equal exactly when they name the same
    object.  A null pointer is [None]. *)
Abbreviation fptr := nat (only parsing).
Abbreviation lptr := nat (only parsing).

Record DrawTextData := { msg : string }.

Record ScrollableData := {
  entries : option fptr;
  label : string;
  first : Z;      (* uint8_t *)
  selected : Z    (* uint8_t *)
}.

(** Modelled from the spec: [hide_fraction], which the header at hand does
    not declare. *)
Record NumberData := {
  units : string;
  div_digits : Z;           (* uint8_t *)
  hide_fraction : bool;
  max_value : Z;            (* uint32_t *)
  min_value : Z;            (* uint32_t *)
  inc_step : Z              (* uint32_t *)
}.

(** [options] is the array of string pointers itself; its NULL entry, which
    marks the end of the choices, is [None]. *)
Record EnumData := { options : list (option string) }.

(** Modelled from the spec: [read_only], and the byte width [esize], which
    screen.c reads as [editable.size] for numbers and enums alike. *)
Record EditableData := {
  elabel : string;
  target : nat;             (* void *: an address in the byte memory *)
  typ : EditableType;
  read_only : bool;
  esize : Z;                (* uint8_t, sizeof the target *)
  number : NumberData;
  editEnum : EnumData
}.

(** Modelled from the spec: the flags [blink] and [is_selected], which the
    header at hand does not declare.  The C union of the three payloads is
    kept as a product: the code only reads the member that the variant tag
    selects. *)
Record Field := {
  variant : FieldVariant;
  dirty : bool;
  blink : bool;
  is_selected : bool;
  drawText : DrawTextData;
  scrollable : ScrollableData;
  editable : EditableData
}.

(** Modelled from the spec: ugui.h and fonts.h are not part of the sources
    at hand; of a font descriptor the screen layer reads the character width
    and height. *)
Record UG_FONT := { char_width : Z; char_height : Z }.

(** Modelled from the spec: the modifier of a layout, of which screen.c
    tests [ModNoLabel] ("suppress label"). *)
Inductive LayoutModifier := ModNone | ModNoLabel.

(** Modelled from the spec: the border flags (Top/Bottom/Left/Right/Fat,
    combinable) are declared in a version of screen.h that is not part of
    the sources at hand; they are distinct bits of a mask. *)
Definition BorderNone : Z := 0.
Definition BorderTop : Z := 1.
Definition BorderBottom : Z := 2.
Definition BorderLeft : Z := 4.
Definition BorderRight : Z := 8.
Definition BorderFat : Z := 16.

(** Modelled from the spec: [lborder], [lfont], [lmodifier] and
    [old_editable] (the cached previous numeric value), which the header at
    hand does not declare. *)
Record FieldLayout := {
  lx : Z; ly : Z;           (* Coord = int16_t *)
  lwidth : Z;
  lheight : Z;
  lcolor : ColorOp;
  lborder : Z;
  lfont : option UG_FONT;
  lmodifier : LayoutModifier;
  old_editable : Z;         (* uint32_t *)
  lfield : option fptr
}.

(** Modelled from the spec: the optional exit callback [onExit], which the
    header at hand does not declare.  The handlers of a screen are callbacks
    of the application, named here by an index into an environment of
    handlers; [sfields] is the address of the first layout of its
    sentinel-terminated layout array. *)
Record Screen := {
  onPress : option nat;
  onExit : option nat;
  sfields : lptr
}.

(** Modelled from the spec: buttons.h is not part of the sources at hand;
    a [buttons_events_t] is a set of discrete event flags, of which the
    screen layer tests four ([events & UP_CLICK] and so on). *)
Record buttons_events_t := {
  UP_CLICK : bool;
  DOWN_CLICK : bool;
  M_CLICK : bool;
  ONOFF_CLICK : bool
}.

(** ** The display primitives (ugui, lcd)

    The pixel primitives are collaborators of the screen layer; a call is
    recorded in the order it is made. *)

Inductive UG_COLOR := C_WHITE | C_BLACK | C_TRANSPARENT.

Inductive DrawOp :=
| UG_FillFrame (x1 y1 x2 y2 : Z) (c : UG_COLOR)
| UG_DrawLine (x1 y1 x2 y2 : Z) (c : UG_COLOR)
| UG_DrawMesh (x1 y1 x2 y2 : Z) (c : UG_COLOR)
| UG_PutString (x y : Z) (str : string)
| UG_FontSelect (f : UG_FONT)
| UG_SetForecolor (c : UG_COLOR)
| UG_SetBackcolor (c : UG_COLOR)
| UG_FillScreen (c : UG_COLOR)
| lcd_refresh.

(** Modelled from the spec: fonts.h is not part of the sources at hand;
    the font named 5X12 has characters 5 wide and 12 high. *)
Definition FONT_5X12 : UG_FONT := {| char_width := 5; char_height := 12 |}.
Definition FONT12_Y : Z := 14.

(** ** Global state *)

Definition MAX_SCROLLABLE_DEPTH : Z := 3.
Definition MAX_SCROLLABLE_ROWS : Z := 4.

Record state := {
  (* memories *)
  fields : list Field;
  layouts : list FieldLayout;
  mem : list Byte.byte;
  (* static variables of screen.c *)
  forceScrollableRelayout : bool;
  curActiveEditable : option fptr;
  scrollableStack : list (option fptr);   (* MAX_SCROLLABLE_DEPTH slots *)
  scrollableStackPtr : Z;
  blinkChanged : bool;
  blinkOn : bool;
  oldForceLabels : bool;
  forceLabels : bool;
  curScreen : option Screen;
  screenDirty : bool;
  blinkCounter : Z;                       (* uint8_t *)
  (* constants and collaborators *)
  screenWidth : Z;
  screenHeight : Z;
  char_h_space : Z;                       (* gui.char_h_space *)
  m_state : bool;                         (* buttons_get_m_state() *)
  up_state : bool;                        (* buttons_get_up_state() *)
  down_state : bool;                      (* buttons_get_down_state() *)
  display : list DrawOp                   (* the calls made, oldest first *)
}.

(** The objects that screen.c declares [static] live at fixed addresses:
    the layouts [rows[0..MAX_SCROLLABLE_ROWS]] at the start of the layout
    memory, the fields [heading], [label] and [blankRows[0..3]] at the start
    of the field memory. *)
Definition rows : lptr := 0%nat.
Definition heading : fptr := 0%nat.
Definition label_field : fptr := 1%nat.
Definition blankRows : fptr := 2%nat.
Definition first_user_field : fptr := 6%nat.
Definition first_user_layout : lptr := 5%nat.

(** ** Record updates *)

Definition set_variant (v : FieldVariant) (f : Field) : Field :=
  Build_Field v (dirty f) (blink f) (is_selected f)
    (drawText f) (scrollable f) (editable f).
Definition set_dirty (b : bool) (f : Field) : Field :=
  Build_Field (variant f) b (blink f) (is_selected f)
    (drawText f) (scrollable f) (editable f).
Definition set_blink (b : bool) (f : Field) : Field :=
  Build_Field (variant f) (dirty f) b (is_selected f)
    (drawText f) (scrollable f) (editable f).
Definition set_is_selected (b : bool) (f : Field) : Field :=
  Build_Field (variant f) (dirty f) (blink f) b
    (drawText f) (scrollable f) (editable f).
Definition set_msg (m : string) (f : Field) : Field :=
  Build_Field (variant f) (dirty f) (blink f) (is_selected f)
    {| msg := m |} (scrollable f) (editable f).
Definition set_first (v : Z) (f : Field) : Field :=
  Build_Field (variant f) (dirty f) (blink f) (is_selected f) (drawText f)
    (Build_ScrollableData (entries (scrollable f)) (label (scrollable f))
       v (selected (scrollable f)))
    (editable f).
Definition set_selected (v : Z) (f : Field) : Field :=
  Build_Field (variant f) (dirty f) (blink f) (is_selected f) (drawText f)
    (Build_ScrollableData (entries (scrollable f)) (label (scrollable f))
       (first (scrollable f)) v)
    (editable f).

Definition set_lx (v : Z) (l : FieldLayout) : FieldLayout :=
  Build_FieldLayout v (ly l) (lwidth l) (lheight l) (lcolor l) (lborder l)
    (lfont l) (lmodifier l) (old_editable l) (lfield l).
Definition set_ly (v : Z) (l : FieldLayout) : FieldLayout :=
  Build_FieldLayout (lx l) v (lwidth l) (lheight l) (lcolor l) (lborder l)
    (lfont l) (lmodifier l) (old_editable l) (lfield l).
Definition set_lwidth (v : Z) (l : FieldLayout) : FieldLayout :=
  Build_FieldLayout (lx l) (ly l) v (lheight l) (lcolor l) (lborder l)
    (lfont l) (lmodifier l) (old_editable l) (lfield l).
Definition set_lheight (v : Z) (l : FieldLayout) : FieldLayout :=
  Build_FieldLayout (lx l) (ly l) (lwidth l) v (lcolor l) (lborder l)
    (lfont l) (lmodifier l) (old_editable l) (lfield l).
Definition set_lcolor (v : ColorOp) (l : FieldLayout) : FieldLayout :=
  Build_FieldLayout (lx l) (ly l) (lwidth l) (lheight l) v (lborder l)
    (lfont l) (lmodifier l) (old_editable l) (lfield l).
Definition set_lborder (v : Z) (l : FieldLayout) : FieldLayout :=
  Build_FieldLayout (lx l) (ly l) (lwidth l) (lheight l) (lcolor l) v
    (lfont l) (lmodifier l) (old_editable l) (lfield l).
Definition set_lfont (v : option UG_FONT) (l : FieldLayout) : FieldLayout :=
  Build_FieldLayout (lx l) (ly l) (lwidth l) (lheight l) (lcolor l) (lborder l)
    v (lmodifier l) (old_editable l) (lfield l).
Definition set_old_editable (v : Z) (l : FieldLayout) : FieldLayout :=
  Build_FieldLayout (lx l) (ly l) (lwidth l) (lheight l) (lcolor l) (lborder l)
    (lfont l) (lmodifier l) v (lfield l).
Definition set_lfield (v : option fptr) (l : FieldLayout) : FieldLayout :=
  Build_FieldLayout (lx l) (ly l) (lwidth l) (lheight l) (lcolor l) (lborder l)
    (lfont l) (lmodifier l) (old_editable l) v.

Definition set_fields (v : list Field) (s : state) : state :=
  Build_state v (layouts s) (mem s) (forceScrollableRelayout s)
    (curActiveEditable s) (scrollableStack s) (scrollableStackPtr s)
    (blinkChanged s) (blinkOn s) (oldForceLabels s) (forceLabels s)
    (curScreen s) (screenDirty s) (blinkCounter s) (screenWidth s)
    (screenHeight s) (char_h_space s) (m_state s) (up_state s) (down_state s)
    (display s).
Definition set_layouts (v : list FieldLayout) (s : state) : state :=
  Build_state (fields s) v (mem s) (forceScrollableRelayout s)
    (curActiveEditable s) (scrollableStack s) (scrollableStackPtr s)
    (blinkChanged s) (blinkOn s) (oldForceLabels s) (forceLabels s)
    (curScreen s) (screenDirty s) (blinkCounter s) (screenWidth s)
    (screenHeight s) (char_h_space s) (m_state s) (up_state s) (down_state s)
    (display s).
Definition set_mem (v : list Byte.byte) (s : state) : state :=
  Build_state (fields s) (layouts s) v (forceScrollableRelayout s)
    (curActiveEditable s) (scrollableStack s) (scrollableStackPtr s)
    (blinkChanged s) (blinkOn s) (oldForceLabels s) (forceLabels s)
    (curScreen s) (screenDirty s) (blinkCounter s) (screenWidth s)
    (screenHeight s) (char_h_space s) (m_state s) (up_state s) (down_state s)
    (display s).
Definition set_forceScrollableRelayout (v : bool) (s : state) : state :=
  Build_state (fields s) (layouts s) (mem s) v
    (curActiveEditable s) (scrollableStack s) (scrollableStackPtr s)
    (blinkChanged s) (blinkOn s) (oldForceLabels s) (forceLabels s)
    (curScreen s) (screenDirty s) (blinkCounter s) (screenWidth s)
    (screenHeight s) (char_h_space s) (m_state s) (up_state s) (down_state s)
    (display s).
Definition set_curActiveEditable (v : option fptr) (s : state) : state :=
  Build_state (fields s) (layouts s) (mem s) (forceScrollableRelayout s)
    v (scrollableStack s) (scrollableStackPtr s)
    (blinkChanged s) (blinkOn s) (oldForceLabels s) (forceLabels s)
    (curScreen s) (screenDirty s) (blinkCounter s) (screenWidth s)
    (screenHeight s) (char_h_space s) (m_state s) (up_state s) (down_state s)
    (display s).
Definition set_scrollableStack (v : list (option fptr)) (s : state) : state :=
  Build_state (fields s) (layouts s) (mem s) (forceScrollableRelayout s)
    (curActiveEditable s) v (scrollableStackPtr s)
    (blinkChanged s) (blinkOn s) (oldForceLabels s) (forceLabels s)
    (curScreen s) (screenDirty s) (blinkCounter s) (screenWidth s)
    (screenHeight s) (char_h_space s) (m_state s) (up_state s) (down_state s)
    (display s).
Definition set_scrollableStackPtr (v : Z) (s : state) : state :=
  Build_state (fields s) (layouts s) (mem s) (forceScrollableRelayout s)
    (curActiveEditable s) (scrollableStack s) v
    (blinkChanged s) (blinkOn s) (oldForceLabels s) (forceLabels s)
    (curScreen s) (screenDirty s) (blinkCounter s) (screenWidth s)
    (screenHeight s) (char_h_space s) (m_state s) (up_state s) (down_state s)
    (display s).
Definition set_blinkChanged (v : bool) (s : state) : state :=
  Build_state (fields s) (layouts s) (mem s) (forceScrollableRelayout s)
    (curActiveEditable s) (scrollableStack s) (scrollableStackPtr s)
    v (blinkOn s) (oldForceLabels s) (forceLabels s)
    (curScreen s) (screenDirty s) (blinkCounter s) (screenWidth s)
    (screenHeight s) (char_h_space s) (m_state s) (up_state s) (down_state s)
    (display s).
Definition set_blinkOn (v : bool) (s : state) : state :=
  Build_state (fields s) (layouts s) (mem s) (forceScrollableRelayout s)
    (curActiveEditable s) (scrollableStack s) (scrollableStackPtr s)
    (blinkChanged s) v (oldForceLabels s) (forceLabels s)
    (curScreen s) (screenDirty s) (blinkCounter s) (screenWidth s)
    (screenHeight s) (char_h_space s) (m_state s) (up_state s) (down_state s)
    (display s).
Definition set_oldForceLabels (v : bool) (s : state) : state :=
  Build_state (fields s) (layouts s) (mem s) (forceScrollableRelayout s)
    (curActiveEditable s) (scrollableStack s) (scrollableStackPtr s)
    (blinkChanged s) (blinkOn s) v (forceLabels s)
    (curScreen s) (screenDirty s) (blinkCounter s) (screenWidth s)
    (screenHeight s) (char_h_space s) (m_state s) (up_state s) (down_state s)
    (display s).
Definition set_forceLabels (v : bool) (s : state) : state :=
  Build_state (fields s) (layouts s) (mem s) (forceScrollableRelayout s)
    (curActiveEditable s) (scrollableStack s) (scrollableStackPtr s)
    (blinkChanged s) (blinkOn s) (oldForceLabels s) v
    (curScreen s) (screenDirty s) (blinkCounter s) (screenWidth s)
    (screenHeight s) (char_h_space s) (m_state s) (up_state s) (down_state s)
    (display s).
Definition set_curScreen (v : option Screen) (s : state) : state :=
  Build_state (fields s) (layouts s) (mem s) (forceScrollableRelayout s)
    (curActiveEditable s) (scrollableStack s) (scrollableStackPtr s)
    (blinkChanged s) (blinkOn s) (oldForceLabels s) (forceLabels s)
    v (screenDirty s) (blinkCounter s) (screenWidth s)
    (screenHeight s) (char_h_space s) (m_state s) (up_state s) (down_state s)
    (display s).
Definition set_screenDirty (v : bool) (s : state) : state :=
  Build_state (fields s) (layouts s) (mem s) (forceScrollableRelayout s)
    (curActiveEditable s) (scrollableStack s) (scrollableStackPtr s)
    (blinkChanged s) (blinkOn s) (oldForceLabels s) (forceLabels s)
    (curScreen s) v (blinkCounter s) (screenWidth s)
    (screenHeight s) (char_h_space s) (m_state s) (up_state s) (down_state s)
    (display s).
Definition set_blinkCounter (v : Z) (s : state) : state :=
  Build_state (fields s) (layouts s) (mem s) (forceScrollableRelayout s)
    (curActiveEditable s) (scrollableStack s) (scrollableStackPtr s)
    (blinkChanged s) (blinkOn s) (oldForceLabels s) (forceLabels s)
    (curScreen s) (screenDirty s) v (screenWidth s)
    (screenHeight s) (char_h_space s) (m_state s) (up_state s) (down_state s)
    (display s).
Definition set_display (v : list DrawOp) (s : state) : state :=
  Build_state (fields s) (layouts s) (mem s) (forceScrollableRelayout s)
    (curActiveEditable s) (scrollableStack s) (scrollableStackPtr s)
    (blinkChanged s) (blinkOn s) (oldForceLabels s) (forceLabels s)
    (curScreen s) (screenDirty s) (blinkCounter s) (screenWidth s)
    (screenHeight s) (char_h_space s) (m_state s) (up_state s) (down_state s)
    v.

(** ** The monad of the embedding *)

Inductive outcome (A : Type) : Type :=
| Ok (a : A) (s : state)     (* normal return *)
| AssertFail                 (* a failed assert: the firmware stops *)
| Undefined                  (* null or out-of-range pointer, division by 0 *)
| OutOfFuel.                 (* recursion budget of the model exhausted *)
Arguments Ok {A} a s.
Arguments AssertFail {A}.
Arguments Undefined {A}.
Arguments OutOfFuel {A}.

Definition M (A : Type) : Type := state -> outcome A.

Definition ret {A} (a : A) : M A := fun s => Ok a s.

Definition bind {A B} (m : M A) (k : A -> M B) : M B :=
  fun s =>
    match m s with
    | Ok a s' => k a s'
    | AssertFail => AssertFail
    | Undefined => Undefined
    | OutOfFuel => OutOfFuel
    end.

Notation "'let*' x := c 'in' k" := (bind c (fun x => k))
  (at level 10, x name, c at level 100, k at level 200).
Notation "'do' c 'then' k" := (bind c (fun _ => k))
  (at level 10, c at level 100, k at level 200).

Definition gets {A} (f : state -> A) : M A := fun s => Ok (f s) s.
Definition modify (f : state -> state) : M unit := fun s => Ok tt (f s).
Definition undefined {A} : M A := fun _ => Undefined.
Definition out_of_fuel {A} : M A := fun _ => OutOfFuel.
Definition c_assert (b : bool) : M unit :=
  fun s => if b then Ok tt s else AssertFail.
Definition when (b : bool) (m : M unit) : M unit := if b then m else ret tt.

(** Dereference of a possibly null pointer. *)
Definition deref {A} (o : option A) : M A :=
  match o with
  | Some p => ret p
  | None => undefined
  end.

Definition getField (p : fptr) : M Field :=
  fun s => match fields s !! p with
           | Some f => Ok f s
           | None => Undefined
           end.

Definition modField (p : fptr) (g : Field -> Field) : M unit :=
  fun s => match fields s !! p with
           | Some f => Ok tt (set_fields (<[p := g f]> (fields s)) s)
           | None => Undefined
           end.

Definition getLayout (p : lptr) : M FieldLayout :=
  fun s => match layouts s !! p with
           | Some l => Ok l s
           | None => Undefined
           end.

Definition modLayout (p : lptr) (g : FieldLayout -> FieldLayout) : M unit :=
  fun s => match layouts s !! p with
           | Some l => Ok tt (set_layouts (<[p := g l]> (layouts s)) s)
           | None => Undefined
           end.

Definition emit (op : DrawOp) : M unit :=
  modify (fun s => set_display (display s ++ [op]) s).

(** The coordinates of the primitives are [UG_S16]. *)
Definition fillFrame (x1 y1 x2 y2 : Z) (c : UG_COLOR) : M unit :=
  emit (UG_FillFrame (to_int16 x1) (to_int16 y1) (to_int16 x2) (to_int16 y2) c).
Definition drawLine (x1 y1 x2 y2 : Z) (c : UG_COLOR) : M unit :=
  emit (UG_DrawLine (to_int16 x1) (to_int16 y1) (to_int16 x2) (to_int16 y2) c).
Definition drawMesh (x1 y1 x2 y2 : Z) (c : UG_COLOR) : M unit :=
  emit (UG_DrawMesh (to_int16 x1) (to_int16 y1) (to_int16 x2) (to_int16 y2) c).
Definition putString (x y : Z) (str : string) : M unit :=
  emit (UG_PutString (to_int16 x) (to_int16 y) str).

(** ** C strings *)

Definition NUL : ascii := Ascii.zero.

(** The C string held by a buffer: its characters up to the first NUL. *)
Fixpoint c_str (b : string) : string :=
  match b with
  | EmptyString => EmptyString
  | String c r => if Ascii.eqb c NUL then EmptyString else String c (c_str r)
  end.

Definition strlen (b : string) : Z := Z.of_nat (String.length (c_str b)).

(** [snprintf]-family functions write at most [n - 1] characters and a NUL
    into a buffer of [n] bytes. *)
Definition bounded (n : nat) (formatted : string) : string :=
  c_str (String.substring 0 (n - 1) formatted).

(** [strcmp (a, b) != 0] *)
Definition strcmp_ne (a b : string) : bool := negb (String.eqb (c_str a) (c_str b)).

(** [%lu] *)
Definition fmt_lu (n : Z) : string :=
  NilZero.string_of_uint (N.to_uint (Z.to_N n)).

Fixpoint zeros (n : nat) : string :=
  match n with
  | O => EmptyString
  | S n' => String "0"%char (zeros n')
  end.

(** [%0*lu]: zero padded on the left to [w] characters. *)
Definition fmt_0lu (w : Z) (n : Z) : string :=
  let d := fmt_lu n in
  String.append (zeros (Z.to_nat w - String.length d)) d.

(** ** screen.c *)

Definition getBackColor (l : FieldLayout) : UG_COLOR :=
  match lcolor l with
  | ColorInvert => C_WHITE
  | _ => C_BLACK
  end.

Definition getForeColor (l : FieldLayout) : UG_COLOR :=
  match lcolor l with
  | ColorInvert => C_BLACK
  | _ => C_WHITE
  end.

(** [fieldPrintf (field, fmt, ...)], where [formatted] is what the format
    and its arguments expand to before [vsnprintf] bounds it by the size of
    the message buffer. *)
Definition fieldPrintf (field : fptr) (formatted : string) : M unit :=
  let buf := bounded MAX_FIELD_LEN formatted in
  let* f := getField field in
  if strcmp_ne buf (msg (drawText f)) then
    do modField field (set_msg buf) then
    modField field (set_dirty true)
  else ret tt.

Definition renderDrawText (layout : lptr) : M bool :=
  let* l := getLayout layout in
  let* font := match lfont l with
               | Some f => ret f
               | None => fun _ => AssertFail
               end in
  let* field := deref (lfield l) in
  let* f := getField field in
  let* chs := gets char_h_space in
  let strwidth :=
    to_int16 ((char_width font + chs) * strlen (msg (drawText f))) in
  let width := lwidth l in
  let height := lheight l in
  let x := if strwidth <? width
           then to_int16 (lx l + c_div (width - strwidth) 2)
           else lx l in
  do emit (UG_FontSelect font) then
  let back := getBackColor l in
  do emit (UG_SetForecolor (getForeColor l)) then
  do fillFrame (lx l) (ly l) (lx l + width - 1) (ly l + height - 1) back then
  do emit (UG_SetBackcolor C_TRANSPARENT) then
  do putString (x + 1) (ly l) (c_str (msg (drawText f))) then
  ret true.

Definition renderFill (layout : lptr) : M bool :=
  let* l := getLayout layout in
  do c_assert (1 <=? lwidth l) then
  do c_assert (1 <=? lheight l) then
  do fillFrame (lx l) (ly l) (lx l + lwidth l - 1) (ly l + lheight l - 1)
       (getForeColor l) then
  ret true.

Definition renderMesh (layout : lptr) : M bool :=
  let* l := getLayout layout in
  do c_assert (1 <=? lwidth l) then
  do c_assert (1 <=? lheight l) then
  do drawMesh (lx l) (ly l) (lx l + lwidth l - 1) (ly l + lheight l - 1)
       (getForeColor l) then
  ret true.

Definition is_null {A} (o : option A) : bool :=
  match o with
  | Some _ => false
  | None => true
  end.

Definition drawSelectionMarker (layout : lptr) : M unit :=
  let* l := getLayout layout in
  match lfield l with
  | None => ret tt
  | Some fp =>
      let* f := getField fp in
      let* cae := gets curActiveEditable in
      if is_selected f && is_null cae then
        let* bo := gets blinkOn in
        drawLine (lx l) (ly l + 2) (lx l) (ly l + lheight l - 3)
          (if bo then getForeColor l else getBackColor l)
      else ret tt
  end.

Definition has_flag (mask flag : Z) : bool := negb (Z.land mask flag =? 0).

Definition drawBorder (layout : lptr) : M unit :=
  let* l := getLayout layout in
  let color := getForeColor l in
  let fatness := if has_flag (lborder l) BorderFat then 2 else 1 in
  do when (has_flag (lborder l) BorderTop)
       (drawLine (lx l) (ly l) (lx l + lwidth l - 1) (ly l) color) then
  do when (has_flag (lborder l) BorderBottom)
       (fillFrame (lx l) (ly l + lheight l - fatness)
          (lx l + lwidth l - 1) (ly l + lheight l - 1) color) then
  do when (has_flag (lborder l) BorderLeft)
       (drawLine (lx l) (ly l) (lx l) (ly l + lheight l - 1) color) then
  when (has_flag (lborder l) BorderRight)
    (drawLine (lx l + lwidth l - 1) (ly l)
       (lx l + lwidth l - 1) (ly l + lheight l - 1) color).

Definition needsRender (layout : lptr) : M bool :=
  let* l := getLayout layout in
  let* fp := deref (lfield l) in
  let* f := getField fp in
  let* bc := gets blinkChanged in
  if dirty f then ret true
  else if blink f && bc then ret true
  else if FieldVariant_eqb (variant f) FieldEditable then ret true
  else ret false.

(** *** The stack of scrollables *)

Definition getActiveScrollable : M (option fptr) :=
  let* sp := gets scrollableStackPtr in
  if sp =? 0 then ret None
  else if sp <? 0 then undefined
  else
    let* st := gets scrollableStack in
    deref (st !! Z.to_nat (sp - 1)).

(** [scrollableStack[0]], dereferenced. *)
Definition rootScrollable : M fptr :=
  let* st := gets scrollableStack in
  let* slot := deref (st !! 0%nat) in
  deref slot.

Definition enterScrollable (f : fptr) : M unit :=
  let* sp := gets scrollableStackPtr in
  do c_assert (sp <? MAX_SCROLLABLE_DEPTH) then
  do (if sp <? 0 then undefined
      else modify (fun s =>
             set_scrollableStackPtr (sp + 1)
               (set_scrollableStack
                  (<[Z.to_nat sp := Some f]> (scrollableStack s)) s))) then
  do modField f (set_blink true) then
  let* root := rootScrollable in
  do modField root (set_dirty true) then
  modify (set_forceScrollableRelayout true).

Definition exitScrollable : M bool :=
  let* sp := gets scrollableStackPtr in
  do c_assert (0 <? sp) then
  do modify (set_scrollableStackPtr (sp - 1)) then
  let* f := getActiveScrollable in
  match f with
  | Some f =>
      do modField f (set_dirty true) then
      do modify (set_forceScrollableRelayout true) then
      ret true
  | None => ret false
  end.

Definition forceScrollableRender : M unit :=
  let* active := getActiveScrollable in
  do c_assert (negb (is_null active)) then
  let* root := rootScrollable in
  do modField root (set_dirty true) then
  modify (set_forceScrollableRelayout true).

(** *** Editable numbers *)

Definition load (n : nat) (a : nat) : M Z :=
  fun s => match load_le n a (mem s) with
           | Some v => Ok v s
           | None => Undefined
           end.

Definition store (n : nat) (a : nat) (v : Z) : M unit :=
  fun s => if in_bounds n a (mem s)
           then Ok tt (set_mem (store_le n a v (mem s)) s)
           else Undefined.

Definition getEditableNumber (field : fptr) : M Z :=
  let* f := getField field in
  let e := editable f in
  if esize e =? 1 then load 1 (target e)
  else if esize e =? 2 then
    let* v := load 2 (target e) in ret (to_int16 v)
  else if esize e =? 4 then
    let* v := load 4 (target e) in ret (to_int32 v)
  else fun _ => AssertFail.

Definition setEditableNumber (field : fptr) (v : Z) : M unit :=
  let v := to_uint32 v in
  let* f := getField field in
  let e := editable f in
  if esize e =? 1 then store 1 (target e) (to_uint8 v)
  else if esize e =? 2 then store 2 (target e) (to_uint16 v)
  else if esize e =? 4 then store 4 (target e) (to_uint32 v)
  else fun _ => AssertFail.

(** The number of entries of a NULL-terminated array of strings; [None] when
    the array has no NULL entry, so that the scan leaves it. *)
Fixpoint count_to_null (opts : list (option string)) : option Z :=
  match opts with
  | [] => None
  | None :: _ => Some 0
  | Some _ :: r =>
      match count_to_null r with
      | Some n => Some (n + 1)
      | None => None
      end
  end.

Definition countEnumOptions (s : fptr) : M Z :=
  let* f := getField s in
  deref (count_to_null (options (editEnum (editable f)))).

(** The arithmetic is that of [int]; a comparison of an [int] with a
    [uint32_t] bound converts the [int] to unsigned first. *)
Definition changeUInt (n : NumberData) (increment : bool) (v : Z) : Z :=
  let step := to_int32 (inc_step n) in
  let step := if step =? 0 then 1 else step in
  let v := to_int32 (v + to_int32 (step * (if increment then 1 else -1))) in
  if to_uint32 v <? min_value n then to_int32 (max_value n)
  else if max_value n <? to_uint32 v then to_int32 (min_value n)
  else v.

Definition changeEnum (numOpts : Z) (increment : bool) (v : Z) : Z :=
  let v := to_int32 (v + (if increment then 1 else -1)) in
  if v <? 0 then to_int32 (numOpts - 1)
  else if numOpts <=? v then 0
  else v.

Definition changeEditable (increment : bool) : M unit :=
  let* cae := gets curActiveEditable in
  let* f := match cae with
            | Some f => ret f
            | None => fun _ => AssertFail
            end in
  let* v := getEditableNumber f in
  let* fd := getField f in
  match typ (editable fd) with
  | EditUInt =>
      setEditableNumber f (changeUInt (number (editable fd)) increment v)
  | EditEnum =>
      let* numOpts := countEnumOptions f in
      setEditableNumber f (changeEnum numOpts increment v)
  end.

(** *** The editable renderer *)

Definition editable_label_font : UG_FONT := FONT_5X12.
Definition editable_value_font : UG_FONT := FONT_5X12.
Definition editable_units_font : UG_FONT := FONT_5X12.

(** [while (divd--) div *= 10;] on an [int]. *)
Fixpoint pow10_int (divd : nat) (div : Z) : Z :=
  match divd with
  | O => div
  | S d => pow10_int d (to_int32 (div * 10))
  end.

(** The text shown for the value [num] of a numeric editable. *)
Definition formatUInt (n : NumberData) (num : Z) : M string :=
  let divd := div_digits n in
  if divd =? 0 then ret (bounded MAX_FIELD_LEN (fmt_lu num))
  else
    let div := to_uint32 (pow10_int (Z.to_nat divd) 1) in
    if div =? 0 then undefined
    else if hide_fraction n then
      ret (bounded MAX_FIELD_LEN (fmt_lu (num / div)))
    else
      ret (bounded MAX_FIELD_LEN
             (String.append (fmt_lu (num / div))
                (String "."%char (fmt_0lu (div_digits n) (num mod div))))).

Definition fptr_eqb (a : option fptr) (b : fptr) : bool :=
  match a with
  | Some a => Nat.eqb a b
  | None => false
  end.

Definition renderEditable (layout : lptr) : M bool :=
  let* l := getLayout layout in
  let* field := deref (lfield l) in
  let* f := getField field in
  let width := lwidth l in
  let height := lheight l in
  let* cae := gets curActiveEditable in
  let isActive := fptr_eqb cae field in
  let dirty0 := dirty f in
  let back := getBackColor l in
  let fore := getForeColor l in
  do emit (UG_SetForecolor fore) then
  let* bc := gets blinkChanged in
  do when (isActive && bc && negb (read_only (editable f)))
       (let* up := gets up_state in
        do when up (changeEditable true) then
        let* down := gets down_state in
        when down (changeEditable false)) then
  let* v := getEditableNumber field in
  let num := to_uint32 v in
  let* l1 := getLayout layout in
  let* dirty1 :=
    (if negb (num =? old_editable l1) then
       do modLayout layout (set_old_editable num) then ret true
     else ret dirty0) in
  let* fl := gets forceLabels in
  let* ofl := gets oldForceLabels in
  let dirty2 := if negb (Bool.eqb fl ofl) then true else dirty1 in
  if negb dirty2 then ret false
  else
    do fillFrame (lx l) (ly l) (lx l + width - 1) (ly l + height - 1) back then
    do emit (UG_SetBackcolor C_TRANSPARENT) then
    let showLabel := match lmodifier l with
                     | ModNoLabel => false
                     | _ => true
                     end in
    do when showLabel
         (do emit (UG_FontSelect editable_label_font) then
          putString (lx l + 1) (ly l) (c_str (elabel (editable f)))) then
    let* chs := gets char_h_space in
    do when fl
         (do emit (UG_FontSelect editable_label_font) then
          let strwidth :=
            to_int16 ((char_width editable_label_font + chs)
                      * strlen (elabel (editable f))) in
          putString (lx l + c_div (width - strwidth) 2)
            (ly l + c_div (height - char_height editable_label_font) 2)
            (c_str (elabel (editable f)))) then
    let* msg :=
      match typ (editable f) with
      | EditUInt =>
          let* m := formatUInt (number (editable f)) num in ret (Some m)
      | EditEnum =>
          deref (options (editEnum (editable f)) !! Z.to_nat num)
      end in
    let showValue := negb fl in
    do when showValue
         (let* msg := deref msg in
          let font := match lfont l with
                      | Some ft => ft
                      | None => editable_value_font
                      end in
          do emit (UG_FontSelect font) then
          let strwidth := to_int16 ((char_width font + chs) * strlen msg) in
          let x := if showLabel then to_int16 (lx l + width - strwidth)
                   else if strwidth <? width
                        then to_int16 (lx l + c_div (width - strwidth) 2)
                        else lx l in
          let y := if showLabel then to_int16 (ly l + FONT12_Y) else ly l in
          do putString x y (c_str msg) then
          when isActive
            (let cursorY := to_int16 (y + char_height font + 1) in
             let* bo := gets blinkOn in
             drawLine (x - 1) cursorY (lx l + width) cursorY
               (if bo then fore else back))) then
    let showUnits := match typ (editable f) with
                     | EditUInt => negb showLabel && negb fl
                     | EditEnum => false
                     end in
    do when showUnits
         (let ulen := strlen (units (number (editable f))) in
          when (negb (ulen =? 0))
            (let font := editable_units_font in
             let uwidth := to_int16 ((char_width font + chs) * ulen) in
             do emit (UG_FontSelect editable_units_font) then
             putString (lx l + width - uwidth)
               (ly l + lheight l - char_height font - 1)
               (c_str (units (number (editable f)))))) then
    ret true.

Definition renderEnd (layout : lptr) : M bool := fun _ => AssertFail.

(** *** Rows of a scrollable *)

Definition rowHeight : Z := 32.
Definition heading_font : UG_FONT := FONT_5X12.
Definition scrollable_font : UG_FONT := FONT_5X12.

(** [&base[n]] *)
Definition entry_at (base : option fptr) (n : Z) : M fptr :=
  let* b := deref base in
  if n <? 0 then undefined else ret (b + Z.to_nat n)%nat.

(** One turn of the loop that lays the rows of the expanded scrollable
    [field] out; it returns [hasMoreRows]. *)
Definition layoutRow (layout : lptr) (field : fptr) (i : Z)
    (hasMoreRows : bool) : M bool :=
  let r : lptr := (rows + Z.to_nat i)%nat in
  do (let* l := getLayout layout in modLayout r (set_lx (lx l))) then
  do (let* l := getLayout layout in
      modLayout r (set_ly (to_int16 (ly l + rowHeight * i)))) then
  do (let* l := getLayout layout in modLayout r (set_lwidth (lwidth l))) then
  do modLayout r (set_lheight (rowHeight - 1)) then
  do modLayout r (set_lborder BorderNone) then
  let* more :=
    (if i =? 0 then
       let* f := getField field in
       do fieldPrintf heading (label (scrollable f)) then
       do modLayout r (set_lfield (Some heading)) then
       do modLayout r (set_lcolor ColorNormal) then
       do modLayout r (set_lborder (Z.lor BorderBottom BorderFat)) then
       do modLayout r (set_lfont (Some heading_font)) then
       ret hasMoreRows
     else
       let* f := getField field in
       let entryNum := first (scrollable f) + i - 1 in
       let* entry := entry_at (entries (scrollable f)) entryNum in
       do modField entry (set_dirty true) then
       let* e := getField entry in
       let hasMoreRows :=
         if FieldVariant_eqb (variant e) FieldEnd then false
         else hasMoreRows in
       do (if hasMoreRows then
             do modLayout r (set_lfield (Some entry)) then
             let* f := getField field in
             modField entry
               (set_is_selected (entryNum =? selected (scrollable f)))
           else
             let blank : fptr := (blankRows + Z.to_nat i)%nat in
             do modLayout r (set_lfield (Some blank)) then
             do modField blank (set_variant FieldFill) then
             modLayout r (set_lcolor ColorInvert)) then
       do (let* l := getLayout r in
           let* fp := deref (lfield l) in
           modField fp (set_dirty true)) then
       ret hasMoreRows) in
  do modLayout (rows + Z.to_nat MAX_SCROLLABLE_ROWS)%nat (set_lfield None) then
  ret more.

(** What [renderActiveScrollable] does to [rows] before it draws them. *)
Definition prepareRows (layout : lptr) (field : fptr) : M unit :=
  let* scrollable0 := getActiveScrollable in
  let weAreExpanded := fptr_eqb scrollable0 field in
  if weAreExpanded then
    let* fsr := gets forceScrollableRelayout in
    let* bc := gets blinkChanged in
    when (fsr || bc)
      (do modify (set_forceScrollableRelayout false) then
       let* m := layoutRow layout field 0 true in
       let* m := layoutRow layout field 1 m in
       let* m := layoutRow layout field 2 m in
       let* m := layoutRow layout field 3 m in
       ret tt)
  else
    let r : lptr := rows in
    do (let* l := getLayout layout in modLayout r (set_lx (lx l))) then
    do (let* l := getLayout layout in modLayout r (set_ly (ly l))) then
    do (let* l := getLayout layout in modLayout r (set_lwidth (lwidth l))) then
    do (let* l := getLayout layout in
        modLayout r (set_lheight (lheight l))) then
    do modLayout r (set_lborder BorderNone) then
    let* f := getField field in
    do fieldPrintf label_field (label (scrollable f)) then
    do modLayout r (set_lfield (Some label_field)) then
    do modLayout r (set_lcolor ColorNormal) then
    do modLayout r (set_lfont (Some scrollable_font)) then
    do match scrollable0 with
       | Some sc =>
           let* scf := getField sc in
           let* sel := entry_at (entries (scrollable scf))
                         (selected (scrollable scf)) in
           modField label_field (set_is_selected (Nat.eqb field sel))
       | None => modField label_field (set_is_selected false)
       end then
    modLayout (rows + 1)%nat (set_lfield None).

(** *** The render loop

    [renderLayouts] and the renderer of scrollables call each other: the
    renderers take the render loop they recurse into as an argument, and
    [renderLayouts] ties the knot with a bound [d] on the nesting depth. *)

Section Renderers.

(** The render loop that [renderActiveScrollable] calls on [rows]. *)
Variable recur : lptr -> bool -> M bool.

Definition renderActiveScrollable (layout : lptr) (field : fptr) : M bool :=
  do prepareRows layout field then
  recur rows false.

Definition renderScrollable (layout : lptr) : M bool :=
  let* active := getActiveScrollable in
  do when (is_null active)
       (let* l := getLayout layout in
        let* f := deref (lfield l) in
        enterScrollable f) then
  let* l := getLayout layout in
  let* field := deref (lfield l) in
  let* st := gets scrollableStack in
  let* slot0 := deref (st !! 0%nat) in
  let* field :=
    (if fptr_eqb slot0 field then
       let* a := getActiveScrollable in deref a
     else ret field) in
  renderActiveScrollable layout field.

(** [renderers[variant]] *)
Definition renderers (v : FieldVariant) : lptr -> M bool :=
  match v with
  | FieldDrawText => renderDrawText
  | FieldFill => renderFill
  | FieldMesh => renderMesh
  | FieldScrollable => renderScrollable
  | FieldEditable => renderEditable
  | FieldEnd => renderEnd
  end.

(** The locals of [renderLayouts] that its first loop updates. *)
Record RenderAcc := {
  didDraw : bool;
  maxy : Z;
  didChangeForceLabels : bool
}.

(** The body of the first loop of [renderLayouts]. *)
Definition renderOne (forceRender mpressed : bool) (layout : lptr)
    (acc : RenderAcc) : M RenderAcc :=
  do when forceRender
       (let* l := getLayout layout in
        let* fp := deref (lfield l) in
        modField fp (set_dirty true)) then
  let* l := getLayout layout in
  let* fp := deref (lfield l) in
  let* f := getField fp in
  let isEd := FieldVariant_eqb (variant f) FieldEditable in
  do when isEd
       (modify (set_forceLabels
                  (mpressed && match lmodifier l with
                               | ModNoLabel => true
                               | _ => false
                               end))) then
  let dcfl := if isEd then true else didChangeForceLabels acc in
  let* nr := needsRender layout in
  if nr then
    do (let* l := getLayout layout in
        when (lwidth l =? 0)
          (let* sw := gets screenWidth in
           modLayout layout (set_lwidth (to_int16 (sw - lx l))))) then
    do (let* l := getLayout layout in
        when (lheight l =? 0)
          (let* sh := gets screenHeight in
           modLayout layout (set_lheight (to_int16 (sh - ly l))))) then
    do (let* l := getLayout layout in
        when (lheight l =? -1)
          (match lfont l with
           | Some ft =>
               modLayout layout (set_lheight (to_int16 (char_height ft)))
           | None => fun _ => AssertFail
           end)) then
    do (let* l := getLayout layout in
        when (lwidth l <? 0)
          (match lfont l with
           | Some ft =>
               let* chs := gets char_h_space in
               modLayout layout
                 (set_lwidth
                    (to_int16 (- lwidth l * (char_width ft + chs))))
           | None => fun _ => AssertFail
           end)) then
    do (let* l := getLayout layout in
        when (ly l <? 0)
          (modLayout layout
             (set_ly (to_int16 (maxy acc + - ly l - 1))))) then
    let* l := getLayout layout in
    let* fp := deref (lfield l) in
    let* f := getField fp in
    let* drew := renderers (variant f) layout in
    let* l := getLayout layout in
    let maxy' := if maxy acc <? ly l + lheight l
                 then to_int16 (ly l + lheight l)
                 else maxy acc in
    do drawSelectionMarker layout then
    do drawBorder layout then
    ret {| didDraw := didDraw acc || drew; maxy := maxy';
           didChangeForceLabels := dcfl |}
  else
    ret {| didDraw := didDraw acc; maxy := maxy acc;
           didChangeForceLabels := dcfl |}.

(** [for (layout = p; layout->field; layout++) body].  The layout memory
    has [k - 1] cells at most, so the walk leaves it before [k] is used
    up. *)
Fixpoint forLayouts {A} (k : nat) (body : lptr -> A -> M A) (p : lptr)
    (acc : A) : M A :=
  match k with
  | O => undefined
  | S k' =>
      let* l := getLayout p in
      match lfield l with
      | None => ret acc
      | Some _ =>
          let* acc' := body p acc in
          forLayouts k' body (S p) acc'
      end
  end.

(** The body of the second loop of [renderLayouts]. *)
Definition clearDirty (layout : lptr) (_ : unit) : M unit :=
  let* l := getLayout layout in
  let* fp := deref (lfield l) in
  modField fp (set_dirty false).

Definition renderLayoutsBody (layouts0 : lptr) (forceRender : bool)
  : M bool :=
  let* mpressed := gets m_state in
  let* n := gets (fun s => length (layouts s)) in
  let* acc := forLayouts (S n) (renderOne forceRender mpressed) layouts0
                {| didDraw := false; maxy := 0;
                   didChangeForceLabels := false |} in
  do forLayouts (S n) clearDirty layouts0 tt then
  do when (didChangeForceLabels acc)
       (let* fl := gets forceLabels in modify (set_oldForceLabels fl)) then
  ret (didDraw acc).

End Renderers.

Fixpoint renderLayouts (d : nat) (layouts0 : lptr) (forceRender : bool)
  : M bool :=
  match d with
  | O => out_of_fuel
  | S d' => renderLayoutsBody (renderLayouts d') layouts0 forceRender
  end.

(** *** Button handlers *)

Definition onPressEditable (events : buttons_events_t) : M bool :=
  let* s := gets curActiveEditable in
  let handled := false in
  let handled := if UP_CLICK events then true else handled in
  let handled := if DOWN_CLICK events then true else handled in
  let* handled :=
    (if ONOFF_CLICK events then
       do modify (set_curActiveEditable None) then ret true
     else ret handled) in
  do when handled
       (let* s := deref s in
        do modField s (set_dirty true) then
        let* sc := getActiveScrollable in
        when (negb (is_null sc))
          (let* root := rootScrollable in modField root (set_dirty true))) then
  ret handled.

(** The loop of [countEntries] from the entry at [e], over the field memory
    [fs]; [None] when the walk leaves the memory before it meets an End. *)
Fixpoint countFrom (k : nat) (fs : list Field) (e : fptr) : option Z :=
  match k with
  | O => None
  | S k' =>
      match fs !! e with
      | None => None
      | Some f =>
          if FieldVariant_eqb (variant f) FieldEnd then Some 0
          else match countFrom k' fs (S e) with
               | Some n => Some (n + 1)
               | None => None
               end
      end
  end.

Definition countEntries (s : fptr) : M Z :=
  let* f := getField s in
  match entries (scrollable f) with
  | None => ret 0
  | Some e =>
      let* fs := gets fields in
      deref (countFrom (S (length fs)) fs e)
  end.

(** The three blocks of [onPressScrollable] that act on the active
    scrollable [s]: a press of up, a press of down, a press of M. *)
Definition scrollUp (s : fptr) : M unit :=
  do (let* f := getField s in
      when (1 <=? selected (scrollable f))
        (modField s (set_selected (to_uint8 (selected (scrollable f) - 1)))))
  then
  do (let* f := getField s in
      when (selected (scrollable f) <? first (scrollable f))
        (modField s (set_first (selected (scrollable f))))) then
  forceScrollableRender.

Definition scrollDown (s : fptr) : M unit :=
  let* numEntries := countEntries s in
  do (let* f := getField s in
      when (selected (scrollable f) <? numEntries - 1)
        (modField s (set_selected (to_uint8 (selected (scrollable f) + 1)))))
  then
  let numDataRows := MAX_SCROLLABLE_ROWS - 1 in
  do (let* f := getField s in
      let lastVisibleRow := first (scrollable f) + numDataRows - 1 in
      when (lastVisibleRow <? selected (scrollable f))
        (modField s
           (set_first
              (to_uint8 (selected (scrollable f) - numDataRows + 1))))) then
  forceScrollableRender.

Definition clickEntry (s : fptr) (handled : bool) : M bool :=
  let* f := getField s in
  let* clicked := entry_at (entries (scrollable f))
                    (selected (scrollable f)) in
  let* c := getField clicked in
  match variant c with
  | FieldEditable =>
      if negb (read_only (editable c)) then
        do modify (set_curActiveEditable (Some clicked)) then
        do modField clicked (set_dirty true) then
        do forceScrollableRender then
        ret true
      else ret handled
  | FieldScrollable =>
      do enterScrollable clicked then ret true
  | _ => ret handled
  end.

Definition onPressScrollable (events : buttons_events_t) : M bool :=
  let handled := false in
  let* active := getActiveScrollable in
  match active with
  | None => ret false
  | Some s =>
      let* handled :=
        (if UP_CLICK events then do scrollUp s then ret true
         else ret handled) in
      let* handled :=
        (if DOWN_CLICK events then do scrollDown s then ret true
         else ret handled) in
      let* handled :=
        (if M_CLICK events then clickEntry s handled else ret handled) in
      if ONOFF_CLICK events then exitScrollable else ret handled
  end.

(** *** The screen controller *)

Section Screens.

(** The callbacks of the application: the press handler and the exit
    handler that a screen names. *)
Variable pressHandler : nat -> buttons_events_t -> M bool.
Variable exitHandler : nat -> M unit.

(** The depth bound handed to [renderLayouts]. *)
Variable depth : nat.

Definition screenOnPress (events : buttons_events_t) : M bool :=
  let handled := false in
  let* cae := gets curActiveEditable in
  let* handled :=
    (if negb (is_null cae) then
       let* h := onPressEditable events in ret (handled || h)
     else ret handled) in
  let* handled :=
    (if negb handled then
       let* h := onPressScrollable events in ret (handled || h)
     else ret handled) in
  let* cs := gets curScreen in
  match cs with
  | Some scr =>
      match onPress scr with
      | Some h =>
          if negb handled then
            let* r := pressHandler h events in ret (handled || r)
          else ret handled
      | None => ret handled
      end
  | None => ret handled
  end.

Definition screenUpdate : M unit :=
  let* cs := gets curScreen in
  match cs with
  | None => ret tt
  | Some scr =>
      let didDraw := false in
      let* bctr := gets blinkCounter in
      let bctr := to_uint8 ((bctr + 1) mod 10) in
      do modify (set_blinkCounter bctr) then
      do modify (set_blinkChanged (bctr =? 0)) then
      do when (bctr =? 0)
           (let* bo := gets blinkOn in modify (set_blinkOn (negb bo))) then
      let* sd := gets screenDirty in
      let* didDraw :=
        (if sd then do emit (UG_FillScreen C_BLACK) then ret true
         else ret didDraw) in
      let* sd := gets screenDirty in
      let* drew := renderLayouts depth (sfields scr) sd in
      let didDraw := didDraw || drew in
      do when didDraw (emit lcd_refresh) then
      modify (set_screenDirty false)
  end.

Definition panicScreenShow (screen : option Screen) : M unit :=
  do modify (set_curActiveEditable None) then
  do modify (set_scrollableStackPtr 0) then
  do modify (set_curScreen screen) then
  do modify (set_screenDirty true) then
  screenUpdate.

Definition screenShow (screen : option Screen) : M unit :=
  let* cs := gets curScreen in
  do match cs with
     | Some scr =>
         match onExit scr with
         | Some h => exitHandler h
         | None => ret tt
         end
     | None => ret tt
     end then
  panicScreenShow screen.

Definition getCurrentScreen : M (option Screen) := gets curScreen.

End Screens.

(** ** Static composition of screens

    The initialisers of screen.h, and the state of the firmware at start-up
    for a given content of the three memories. *)

Module Build.

Definition zeroNumber : NumberData :=
  {| units := EmptyString; div_digits := 0; hide_fraction := false;
     max_value := 0; min_value := 0; inc_step := 0 |}.

Definition zeroEditable : EditableData :=
  {| elabel := EmptyString; target := 0%nat; typ := EditUInt; read_only := false;
     esize := 0; number := zeroNumber; editEnum := {| options := [] |} |}.

Definition zeroScrollable : ScrollableData :=
  {| entries := None; label := EmptyString; first := 0; selected := 0 |}.

(** A zero-initialised Field, which is also [FIELD_DRAWTEXT()]. *)
Definition FIELD_DRAWTEXT : Field :=
  {| variant := FieldDrawText; dirty := false; blink := false;
     is_selected := false; drawText := {| msg := EmptyString |};
     scrollable := zeroScrollable; editable := zeroEditable |}.

Definition FIELD_END : Field := set_variant FieldEnd FIELD_DRAWTEXT.

Definition FIELD_SCROLLABLE (lbl : string) (arry : fptr) : Field :=
  {| variant := FieldScrollable; dirty := false; blink := false;
     is_selected := false; drawText := {| msg := EmptyString |};
     scrollable := {| entries := Some arry; label := lbl;
                      first := 0; selected := 0 |};
     editable := zeroEditable |}.

Arguments FIELD_SCROLLABLE lbl%_string arry%_nat.

(** [sz] is [sizeof( *targ)]. *)
Definition FIELD_EDITABLE_UINT (lbl : string) (targ : nat) (sz : Z)
    (unt : string) (minv maxv step : Z) : Field :=
  {| variant := FieldEditable; dirty := false; blink := false;
     is_selected := false; drawText := {| msg := EmptyString |};
     scrollable := zeroScrollable;
     editable :=
       {| elabel := lbl; target := targ; typ := EditUInt;
          read_only := false; esize := sz;
          number := {| units := unt; div_digits := 0;
                       hide_fraction := false; max_value := maxv;
                       min_value := minv; inc_step := step |};
          editEnum := {| options := [] |} |} |}.

(** [opts] are the choices; the initialiser appends the NULL entry. *)
Definition FIELD_EDITABLE_ENUM (lbl : string) (targ : nat) (sz : Z)
    (opts : list string) : Field :=
  {| variant := FieldEditable; dirty := false; blink := false;
     is_selected := false; drawText := {| msg := EmptyString |};
     scrollable := zeroScrollable;
     editable :=
       {| elabel := lbl; target := targ; typ := EditEnum;
          read_only := false; esize := sz; number := zeroNumber;
          editEnum := {| options := map Some opts ++ [None] |} |} |}.

Definition zeroLayout : FieldLayout :=
  {| lx := 0; ly := 0; lwidth := 0; lheight := 0; lcolor := ColorNormal;
     lborder := BorderNone; lfont := None; lmodifier := ModNone;
     old_editable := 0; lfield := None |}.

(** A layout of [field] that takes the rest of the screen from (x, y). *)
Definition layoutOf (x y : Z) (field : fptr) : FieldLayout :=
  set_lfield (Some field) (set_ly y (set_lx x zeroLayout)).

Arguments layoutOf x%_Z y%_Z field%_nat.

(** The static fields of screen.c: [heading], [label], [blankRows]. *)
Definition staticFields : list Field :=
  [FIELD_DRAWTEXT; FIELD_DRAWTEXT;
   FIELD_DRAWTEXT; FIELD_DRAWTEXT; FIELD_DRAWTEXT; FIELD_DRAWTEXT].

(** The static layouts of screen.c: [rows]. *)
Definition staticLayouts : list FieldLayout :=
  [zeroLayout; zeroLayout; zeroLayout; zeroLayout; zeroLayout].

(** The state after start-up: the statics of screen.c hold their
    initialisers; [fs] and [ls] are the fields and layouts that the
    application declares, [m] the storage of the configuration layer. *)
Definition boot (fs : list Field) (ls : list FieldLayout)
    (m : list Byte.byte) : state :=
  {| fields := staticFields ++ fs;
     layouts := staticLayouts ++ ls;
     mem := m;
     forceScrollableRelayout := false;
     curActiveEditable := None;
     scrollableStack := [None; None; None];
     scrollableStackPtr := 0;
     blinkChanged := false;
     blinkOn := false;
     oldForceLabels := false;
     forceLabels := false;
     curScreen := None;
     screenDirty := false;
     blinkCounter := 0;
     screenWidth := 64;
     screenHeight := 128;
     char_h_space := 1;
     m_state := false;
     up_state := false;
     down_state := false;
     display := [] |}.

End Build.
Export Build.

(** ** Concrete screens used by the examples *)

Module Examples.

(** One two-byte numeric editable, "Wheel", over a cell holding 0x8000. *)
Definition wheel_state : state :=
  boot [FIELD_EDITABLE_UINT "Wheel" 0 2 "mm" 0 65535 0] []
    [Byte.x00; Byte.x80].

(** A settings menu with a submenu.  Fields: 6 the root menu "Config",
    7..10 its entries ("Wheel", the submenu "Assist", "Units", End),
    11..12 the entries of "Assist" ("Level", End).  Layouts: 5 the one
    layout of the screen, 6 its sentinel.  Storage: two bytes for the
    wheel size, one each for the units and the level. *)
Definition menu_fields : list Field :=
  [FIELD_SCROLLABLE "Config" 7;
   FIELD_EDITABLE_UINT "Wheel" 0 2 "mm" 0 3000 0;
   FIELD_SCROLLABLE "Assist" 11;
   FIELD_EDITABLE_ENUM "Units" 2 1 ["km"%string; "mi"%string];
   FIELD_END;
   FIELD_EDITABLE_UINT "Level" 3 1 EmptyString 0 9 0;
   FIELD_END].

Definition menu_layouts : list FieldLayout :=
  [layoutOf 0 0 6; zeroLayout].

Definition menu_screen : Screen :=
  {| onPress := None; onExit := None; sfields := 5%nat |}.

Definition menu_state : state :=
  boot menu_fields menu_layouts [Byte.x00; Byte.x08; Byte.x00; Byte.x00].

(** The state in which [m] leaves [s]; [s] itself if [m] does not
    return. *)
Definition after {A} (m : M A) (s : state) : state :=
  match m s with
  | Ok _ s' => s'
  | _ => s
  end.

(** The example screen with its root menu entered. *)
Definition menu_open : state := after (enterScrollable 6%nat) menu_state.

(** A menu "Trip" of six one-byte editables, entered, with the window at
    the top.  Fields: 6 the menu, 7..12 its entries, 13 the End. *)
Definition six_fields : list Field :=
  FIELD_SCROLLABLE "Trip" 7
  :: map (fun i => FIELD_EDITABLE_UINT "Value" i 1 EmptyString 0 9 0)
       (seq 0 6)
  ++ [FIELD_END].

Definition six_menu : state :=
  after (enterScrollable 6%nat)
    (boot six_fields [layoutOf 0 0 6; zeroLayout]
       (repeat Byte.x00 6)).

(** A menu "Log" of 258 entries that all show the same cell, entered,
    with entry 255 selected and entries 253..255 visible. *)
Definition long_fields : list Field :=
  set_first 253 (set_selected 255 (FIELD_SCROLLABLE "Log" 7))
  :: repeat (FIELD_EDITABLE_UINT "Value" 0 1 EmptyString 0 9 0) 258
  ++ [FIELD_END].

Definition long_menu : state :=
  after (enterScrollable 6%nat)
    (boot long_fields [layoutOf 0 0 6; zeroLayout] [Byte.x00]).

(** One one-byte numeric editable "Level", from 0 to 9 in steps of the
    default 1, being edited; [v] is the byte in its cell. *)
Definition level_edit (v : Byte.byte) : state :=
  set_curActiveEditable (Some 6%nat)
    (boot [FIELD_EDITABLE_UINT "Level" 0 1 EmptyString 0 9 0] [] [v]).

(** The enum editable "Assist" with the choices Off, Low and High, being
    edited, with High chosen. *)
Definition assist_edit : state :=
  set_curActiveEditable (Some 6%nat)
    (boot [FIELD_EDITABLE_ENUM "Assist" 0 1
             ["Off"%string; "Low"%string; "High"%string]]
       [] [Byte.x02]).

(** A two-byte enum editable "Cell" with 32769 choices, being edited, with
    the last one, of index 32768, chosen. *)
Definition cell_edit : state :=
  set_curActiveEditable (Some 6%nat)
    (boot [FIELD_EDITABLE_ENUM "Cell" 0 2 (repeat "x"%string (Z.to_nat 32769))]
       [] [Byte.x00; Byte.x80]).

(** The example screen at the moment its first update is about to draw its
one layout: the screen is current and dirty, the layout has taken the
whole display (64 x 128) and its field, the root menu, is marked dirty. *)
Definition menu_before_draw : state :=
  set_fields (<[6%nat := set_dirty true (FIELD_SCROLLABLE "Config" 7)]>
                (fields menu_state))
    (set_layouts (<[5%nat := set_lheight 128 (set_lwidth 64 (layoutOf 0 0 6))]>
                    (layouts menu_state))
       (set_screenDirty true
          (set_curScreen (Some menu_screen) menu_state))).

(** The state in which [renderActiveScrollable] then calls the render loop
on [rows]: the root menu is entered and its rows are laid out.  It is the
state that [renderScrollable] hands to the render loop it recurses into. *)
Definition menu_rows_call : state :=
  after (renderScrollable (fun _ _ => ret false) 5%nat) menu_before_draw.

(** A screen with one text field, "Hi", shown by two layouts (one plain,
one inverted); the field is dirty.  Field 6, layouts 5 and 6, sentinel 7. *)
Definition twice_shown : state :=
  boot [set_dirty true (set_msg "Hi" FIELD_DRAWTEXT)]
    [set_lfont (Some FONT_5X12) (set_lheight (-1) (layoutOf 0 0 6));
     set_lcolor ColorInvert
       (set_lfont (Some FONT_5X12) (set_lheight (-1) (layoutOf 0 (-1) 6)));
     zeroLayout]
    [].

End Examples.

(** ** Vocabulary of the statements *)

(** The stack holds [scrollableStackPtr] valid entries: it has its three
    slots, and every slot below the stack pointer points to a field. *)
Definition stack_ok (s : state) : Prop :=
  length (scrollableStack s) = Z.to_nat MAX_SCROLLABLE_DEPTH /\
  0 <= scrollableStackPtr s <= MAX_SCROLLABLE_DEPTH /\
  forall i, (i < Z.to_nat (scrollableStackPtr s))%nat ->
            exists q, scrollableStack s !! i = Some (Some q) /\
                      is_Some (fields s !! q).

(** [s'] differs from [s] at most in its fields and in the flag that asks
    for a new layout of the rows. *)
Definition same_rest (s s' : state) : Prop :=
  set_forceScrollableRelayout false (set_fields [] s)
  = set_forceScrollableRelayout false (set_fields [] s').

(** The scroll window [(first, selected)] after a press of up, and after a
    press of down in a scrollable of [n] entries. *)
Definition navUp (w : Z * Z) : Z * Z :=
  let sel := if 1 <=? snd w then to_uint8 (snd w - 1) else snd w in
  (if sel <? fst w then sel else fst w, sel).

Definition navDown (n : Z) (w : Z * Z) : Z * Z :=
  let sel := if snd w <? n - 1 then to_uint8 (snd w + 1) else snd w in
  let numDataRows := MAX_SCROLLABLE_ROWS - 1 in
  (if fst w + numDataRows - 1 <? sel
   then to_uint8 (sel - numDataRows + 1) else fst w, sel).

Definition window (f : Field) : Z * Z :=
  (first (scrollable f), selected (scrollable f)).

(** What a press of up or down does to the active scrollable [sp]: its
    window moves by [nav], nothing else of it changes, no field changes its
    variant, and the rest of the state is as before. *)
Definition moved (nav : Z * Z -> Z * Z) (sp : fptr) (f : Field)
    (s s' : state) : Prop :=
  exists f',
    fields s' !! sp = Some f' /\
    window f' = nav (window f) /\
    entries (scrollable f') = entries (scrollable f) /\
    map variant (fields s') = map variant (fields s) /\
    same_rest s s'.

(** Presses of a single button. *)
Definition press_up : buttons_events_t :=
  {| UP_CLICK := true; DOWN_CLICK := false; M_CLICK := false;
     ONOFF_CLICK := false |}.
Definition press_down : buttons_events_t :=
  {| UP_CLICK := false; DOWN_CLICK := true; M_CLICK := false;
     ONOFF_CLICK := false |}.
Definition press_select : buttons_events_t :=
  {| UP_CLICK := false; DOWN_CLICK := false; M_CLICK := true;
     ONOFF_CLICK := false |}.
Definition press_exit : buttons_events_t :=
  {| UP_CLICK := false; DOWN_CLICK := false; M_CLICK := false;
     ONOFF_CLICK := true |}.

(** The bounds of a scroll window over [n] entries. *)
Definition window_ok (n : Z) (w : Z * Z) : Prop :=
  0 <= fst w /\ fst w <= snd w /\ snd w <= n - 1.

(** The largest option count for which a cell of [sz] bytes gives every
    index back unchanged and the [int] arithmetic on indices does not
    overflow: the read is unsigned for one byte and signed otherwise. *)
Definition max_enum_count (sz : nat) : Z :=
  if (sz =? 1)%nat then 256
  else if (sz =? 2)%nat then 32768
  else 2147483647.

(** The index after an increment or a decrement modulo [n]. *)
Definition enum_next (n : Z) (increment : bool) (i : Z) : Z :=
  if increment then (if i =? n - 1 then 0 else i + 1)
  else (if i =? 0 then n - 1 else i - 1).

(** The dirty flag of the field at [p], if there is one. *)
Definition dirty_at (s : state) (p : fptr) : option bool :=
  dirty <$> (fields s !! p).

(** The field of the layout at [p], if there is a layout. *)
Definition field_of_layout (s : state) (p : lptr) : option (option fptr) :=
  lfield <$> (layouts s !! p).

(** [referenced s p j fp]: in [s], the sentinel-terminated sequence of
    layouts that starts at [p] has a [j]-th layout, whose field is [fp]. *)
Definition referenced (s : state) (p : lptr) (j : nat) (fp : fptr) : Prop :=
  (forall i, (i < j)%nat ->
             exists q, field_of_layout s (p + i)%nat = Some (Some q)) /\
  field_of_layout s (p + j)%nat = Some (Some fp).

(** ** The order of the button handlers, after the words of the spec

    A layer of the dispatch is present or not in a given state, and when
    present has a handler.  The layers are asked in order; the first one
    that claims the event ends the dispatch with [true], and the dispatch
    answers [false] when no layer is left. *)

Section DispatchSpec.

Variable pressHandler : nat -> buttons_events_t -> M bool.

Definition Layer : Type := state -> option (M bool).

Definition editableLayer (events : buttons_events_t) : Layer :=
  fun s => if is_null (curActiveEditable s) then None
           else Some (onPressEditable events).

Definition scrollableLayer (events : buttons_events_t) : Layer :=
  fun _ => Some (onPressScrollable events).

Definition screenLayer (events : buttons_events_t) : Layer :=
  fun s => match curScreen s with
           | Some scr =>
               match onPress scr with
               | Some h => Some (pressHandler h events)
               | None => None
               end
           | None => None
           end.

Fixpoint firstClaim (layers : list Layer) : M bool :=
  match layers with
  | [] => ret false
  | l :: rest =>
      fun s =>
        match l s with
        | None => firstClaim rest s
        | Some h =>
            (let* claimed := h in
             if claimed then ret true else firstClaim rest) s
        end
  end.

Definition dispatch_spec (events : buttons_events_t) : M bool :=
  firstClaim [editableLayer events; scrollableLayer events;
              screenLayer events].

(** [asked layers s answers s']: starting in [s], the layers that are
    present were asked in order and gave [answers], each one before the last
    [false]; the dispatch ended in [s'], at the first [true] or after the
    last layer. *)
Inductive asked : list Layer -> state -> list bool -> state -> Prop :=
| asked_none s : asked [] s [] s
| asked_absent l rest s answers s' :
    l s = None -> asked rest s answers s' ->
    asked (l :: rest) s answers s'
| asked_claim l rest s h s' :
    l s = Some h -> h s = Ok true s' ->
    asked (l :: rest) s [true] s'
| asked_pass l rest s h s1 answers s' :
    l s = Some h -> h s = Ok false s1 -> asked rest s1 answers s' ->
    asked (l :: rest) s (false :: answers) s'.

End DispatchSpec.

(** [keeps s s']: from [s] to [s'] no layout has changed its field, no field
    its variant, and no dirty field has become clean. *)
Definition keeps (s s' : state) : Prop :=
  map lfield (layouts s') = map lfield (layouts s) /\
  map variant (fields s') = map variant (fields s) /\
  (forall fp, dirty_at s fp = Some true -> dirty_at s' fp = Some true).

(** [preserves m]: every run of [m] that returns keeps the state in the
    sense of [keeps]. *)
Definition preserves {A} (m : M A) : Prop :=
  forall s a s', m s = Ok a s' -> keeps s s'.

(** The sequence of layouts at [p] shows no scrollable. *)
Definition flat_sequence (s : state) (p : lptr) : Prop :=
  forall j fp, referenced s p j fp ->
               exists f, fields s !! fp = Some f /\
                         variant f <> FieldScrollable.

(** The layout at [p] shows no scrollable. *)
Definition flat_layout (p : lptr) (s : state) : Prop :=
  forall fp f, field_of_layout s p = Some (Some fp) ->
               fields s !! fp = Some f -> variant f <> FieldScrollable.

(** [preserves_from P m]: every run of [m] that starts in a state of [P]
    and returns keeps the state. *)
Definition preserves_from (P : state -> Prop) {A} (m : M A) : Prop :=
  forall s a s', P s -> m s = Ok a s' -> keeps s s'.

(** ** Vocabulary of the further properties *)

(** The value that a cell of [n] bytes at [a] holds, if it lies in memory. *)
Definition cell (s : state) (n : nat) (a : nat) : option Z :=
  load_le n a (mem s).

(** The variant of the field at [p], if there is one. *)
Definition variant_at (s : state) (p : fptr) : option FieldVariant :=
  variant <$> (fields s !! p).

(** The entries array at [e] has [n] entries and then its End marker. *)
Definition entries_end (s : state) (e : fptr) (n : nat) : Prop :=
  (forall i, (i < n)%nat ->
             exists v, variant_at s (e + i)%nat = Some v /\ v <> FieldEnd) /\
  variant_at s (e + n)%nat = Some FieldEnd.

(** A field that the render loop passes over when the blink tick is [bc]:
    it is clean, it is no editable, and it does not blink on this tick. *)
Definition quiet (bc : bool) (f : Field) : Prop :=
  dirty f = false /\ variant f <> FieldEditable /\ blink f && bc = false.

(** The sequence of layouts at [p] has [n] layouts and then its sentinel;
    each layout shows a field that satisfies [P]. *)
Definition sequence_of (s : state) (p : lptr) (n : nat) (P : Field -> Prop)
  : Prop :=
  (forall i, (i < n)%nat ->
             exists fp f, field_of_layout s (p + i)%nat = Some (Some fp) /\
                          fields s !! fp = Some f /\ P f) /\
  field_of_layout s (p + n)%nat = Some None.

(** The state after the blink bookkeeping of [screenUpdate]. *)
Definition ticked (s : state) : state :=
  let bctr := to_uint8 ((blinkCounter s + 1) mod 10) in
  let s1 := set_blinkChanged (bctr =? 0) (set_blinkCounter bctr s) in
  if bctr =? 0 then set_blinkOn (negb (blinkOn s)) s1 else s1.

(** A screen of two texts that have been drawn; field 7 blinks.  Fields 6
    and 7, layouts 5 and 6, sentinel 7. *)
Definition drawn_texts : state :=
  set_curScreen (Some {| onPress := None; onExit := None; sfields := 5%nat |})
    (boot [set_msg "Trip"%string FIELD_DRAWTEXT;
           set_blink true (set_msg "12.5"%string FIELD_DRAWTEXT)]
       [set_lfont (Some FONT_5X12) (set_lheight 12 (set_lwidth 64 (layoutOf 0 0 6)));
        set_lfont (Some FONT_5X12) (set_lheight 12 (set_lwidth 64 (layoutOf 0 12 7)));
        zeroLayout]
       []).

(** The variables that the render loop only reads: the active editable,
    the current screen and its dirty flag, the blink state, the buttons and
    the geometry of the display. *)
Definition controls (s : state) :=
  (curActiveEditable s, curScreen s, screenDirty s,
   blinkChanged s, blinkOn s, blinkCounter s,
   m_state s, up_state s, down_state s,
   screenWidth s, screenHeight s, char_h_space s).

(** The frames in which a held button changes the active editable: one is
    active, the blink tick has fired, and up or down is held. *)
Definition editing_step (s : state) : bool :=
  negb (is_null (curActiveEditable s)) && blinkChanged s
  && (up_state s || down_state s).

(** The byte at address [i] belongs to the cell of the active editable. *)
Definition in_active_cell (s : state) (i : nat) : Prop :=
  exists p f,
    curActiveEditable s = Some p /\ fields s !! p = Some f /\
    (target (editable f) <= i
     < target (editable f) + Z.to_nat (esize (editable f)))%nat.

(** [s'] differs from [s] in the storage at most, and there at most in the
    cell of the active editable. *)
Definition writes_cell (s s' : state) : Prop :=
  controls s' = controls s /\ fields s' = fields s /\
  display s' = display s /\
  forall i, ~ in_active_cell s i -> mem s' !! i = mem s !! i.

(** What a drawing step may do: it leaves the controls and the description
    of every editable alone, it only adds to the display, and it writes to
    the storage only in an editing step, and then only to the cell of the
    active editable. *)
Definition steady (s s' : state) : Prop :=
  controls s' = controls s /\
  map editable (fields s') = map editable (fields s) /\
  (exists ops, display s' = display s ++ ops) /\
  (editing_step s = false -> mem s' = mem s) /\
  (forall i, ~ in_active_cell s i -> mem s' !! i = mem s !! i).

(** Every run of [m] that returns is steady. *)
Definition steadily {A} (m : M A) : Prop :=
  forall s a s', m s = Ok a s' -> steady s s'.

(** Every run of [m] that returns leaves the state as it was. *)
Definition reads {A} (m : M A) : Prop :=
  forall s a s', m s = Ok a s' -> s' = s.

(** The editable "Level" of one byte at address 0, shown by one layout and
    being edited while up is held and the blink tick has fired; the byte at
    address 1 belongs to nothing.  Field 6, layout 5, sentinel 6. *)
Definition level_held_up : state :=
  let b := boot [FIELD_EDITABLE_UINT "Level" 0 1 EmptyString 0 9 0]
             [set_lheight 24 (set_lwidth 64 (layoutOf 0 0 6)); zeroLayout]
             [Byte.x05; Byte.x07] in
  {| fields := fields b; layouts := layouts b; mem := mem b;
     forceScrollableRelayout := false;
     curActiveEditable := Some 6%nat;
     scrollableStack := scrollableStack b;
     scrollableStackPtr := 0;
     blinkChanged := true; blinkOn := true;
     oldForceLabels := false; forceLabels := false;
     curScreen := None; screenDirty := false; blinkCounter := 0;
     screenWidth := 64; screenHeight := 128; char_h_space := 1;
     m_state := false; up_state := true; down_state := false;
     display := [] |}.

(** The state in which [screenUpdate] starts to draw: the blink bookkeeping
    is done and a dirty screen has been cleared. *)
Definition cleared (s : state) : state :=
  if screenDirty s
  then set_display (display (ticked s) ++ [UG_FillScreen C_BLACK]) (ticked s)
  else ticked s.

(** The state in which [panicScreenShow] calls [screenUpdate]. *)
Definition switched (screen : option Screen) (s : state) : state :=
  set_screenDirty true
    (set_curScreen screen
       (set_scrollableStackPtr 0 (set_curActiveEditable None s))).

(** No run of [m] stops for lack of nesting depth. *)
Definition fueled {A} (m : M A) : Prop := forall s, m s <> OutOfFuel.

(** The values that a cell of [sz] bytes gives back as they were written:
    those of [uint8_t], [int16_t] and [int32_t]. *)
Definition read_back (sz : nat) (v : Z) : Prop :=
  if (sz =? 1)%nat then 0 <= v < 256
  else if (sz =? 2)%nat then -32768 <= v < 32768
  else -2147483648 <= v < 2147483648.

(** Every run of [m] that returns has only added to the display. *)
Definition draws_only {A} (m : M A) : Prop :=
  forall s a s', m s = Ok a s' ->
                 exists ops, s' = set_display (display s ++ ops) s.

(** The editable "Level" of one byte, which holds 5, shown by one layout
    and not yet drawn.  Field 6, layout 5, sentinel 6. *)
Definition level_shown : state :=
  boot [FIELD_EDITABLE_UINT "Level" 0 1 EmptyString 0 9 0]
    [set_lheight 24 (set_lwidth 64 (layoutOf 0 0 6)); zeroLayout]
    [Byte.x05].

(** The rectangle of a layout. *)
Definition geom (l : FieldLayout) : Z * Z * Z * Z :=
  (lx l, ly l, lwidth l, lheight l).

(** While a collapsed scrollable shown by the layout at [p], of rectangle
    [g], takes over [rows]: only [rows[0]] and [rows[1]] have changed since
    [s0], the layout at [p] still has its rectangle, and [rows[0]]
    satisfies [Q]. *)
Definition taking_rows (s0 : state) (p : lptr) (g : Z * Z * Z * Z)
    (Q : FieldLayout -> Prop) (s : state) : Prop :=
  (forall q, (2 <= q)%nat -> layouts s !! q = layouts s0 !! q) /\
  (exists lp, layouts s !! p = Some lp /\ geom lp = g) /\
  (exists r, layouts s !! rows = Some r /\ Q r).

(** The example menu with its first entry, "Wheel", being edited. *)
Definition wheel_editing : state :=
  Examples.after (onPressScrollable press_select) Examples.menu_open.

(** [m] does not look at the display: it runs on a state with another
    display as on the state itself. *)
Definition display_blind {A} (m : M A) : Prop :=
  forall d s,
    m (set_display d s)
    = match m s with
      | Ok a s1 => Ok a (set_display d s1)
      | AssertFail => AssertFail
      | Undefined => Undefined
      | OutOfFuel => OutOfFuel
      end.

(** * Properties *)

(** ** Reasoning about the monad *)

Lemma bind_Ok {A B} (m : M A) (k : A -> M B) s a s1 :
  m s = Ok a s1 -> bind m k s = k a s1.
Proof. intros H. unfold bind. now rewrite H. Qed.

Lemma bind_inv_Ok {A B} (m : M A) (k : A -> M B) s b s2 :
  bind m k s = Ok b s2 ->
  exists a s1, m s = Ok a s1 /\ k a s1 = Ok b s2.
Proof.
  unfold bind. destruct (m s) as [a s1| | |]; try discriminate.
  intros H. now exists a, s1.
Qed.

Lemma getField_Ok s p f :
  fields s !! p = Some f -> getField p s = Ok f s.
Proof. intros H. unfold getField. now rewrite H. Qed.

Lemma modField_Ok s p f g :
  fields s !! p = Some f ->
  modField p g s = Ok tt (set_fields (<[p := g f]> (fields s)) s).
Proof. intros H. unfold modField. now rewrite H. Qed.

(** ** Machine integers *)

Lemma wrap_u_small bits z :
  0 <= bits -> 0 <= z < 2 ^ bits -> wrap_u bits z = z.
Proof. intros Hb Hz. unfold wrap_u. now apply Z.mod_small. Qed.

Lemma wrap_s_small bits z :
  0 < bits -> - 2 ^ (bits - 1) <= z < 2 ^ (bits - 1) -> wrap_s bits z = z.
Proof.
  intros Hb Hz. unfold wrap_s.
  assert (E : 2 ^ bits = 2 * 2 ^ (bits - 1)).
  { replace bits with (Z.succ (bits - 1)) at 1 by lia.
    rewrite Z.pow_succ_r by lia. reflexivity. }
  rewrite Z.mod_small by lia. lia.
Qed.

Lemma to_int16_small z : -32768 <= z < 32768 -> to_int16 z = z.
Proof. intros H. apply wrap_s_small; [lia | simpl; lia]. Qed.

Lemma to_int32_small z : -2147483648 <= z < 2147483648 -> to_int32 z = z.
Proof. intros H. apply wrap_s_small; [lia | simpl; lia]. Qed.

Lemma to_uint8_small z : 0 <= z < 256 -> to_uint8 z = z.
Proof. intros H. apply wrap_u_small; [lia | simpl; lia]. Qed.

Lemma to_uint32_small z : 0 <= z < 4294967296 -> to_uint32 z = z.
Proof. intros H. apply wrap_u_small; [lia | simpl; lia]. Qed.

(** A 16-bit pattern of 32768 or more reads as a negative [int16_t]. *)
Lemma to_int16_high z : 32768 <= z < 65536 -> to_int16 z = z - 65536.
Proof.
  intros H. unfold to_int16, wrap_s.
  change (2 ^ 16) with 65536. change (2 ^ (16 - 1)) with 32768.
  rewrite <- (Z.mod_unique (z + 32768) 65536 1 (z - 32768)); lia.
Qed.

(** ** Storage cells *)

Lemma Z_of_byte_range b : 0 <= Z_of_byte b < 256.
Proof.
  unfold Z_of_byte. pose proof (Byte.to_N_bounded b) as H.
  lia.
Qed.

Lemma Z_of_byte_of_Z z : Z_of_byte (byte_of_Z z) = z mod 256.
Proof.
  unfold Z_of_byte, byte_of_Z.
  assert (Hr : 0 <= z mod 256 < 256) by (apply Z.mod_pos_bound; lia).
  destruct (Byte.of_N (Z.to_N (z mod 256))) as [b|] eqn:E.
  - apply Byte.to_of_N in E. rewrite E. lia.
  - apply Byte.of_N_None_iff in E. lia.
Qed.

Lemma store_le_length n : forall a v m,
  length (store_le n a v m) = length m.
Proof.
  induction n as [|n IH]; intros a v m; simpl; [reflexivity|].
  rewrite IH. apply length_insert.
Qed.

Lemma store_le_below n : forall a v m i,
  (i < a)%nat -> store_le n a v m !! i = m !! i.
Proof.
  induction n as [|n IH]; intros a v m i Hi; simpl; [reflexivity|].
  rewrite IH by lia. apply list_lookup_insert_ne. lia.
Qed.

(** Reading back what was stored gives the value truncated to the width. *)
Lemma load_store_le n : forall a v m,
  (a + n <= length m)%nat ->
  load_le n a (store_le n a v m) = Some (v mod 256 ^ Z.of_nat n).
Proof.
  induction n as [|n IH]; intros a v m Hb.
  - simpl. now rewrite Z.mod_1_r.
  - cbn [load_le store_le].
    rewrite store_le_below by lia.
    rewrite list_lookup_insert_eq by lia.
    rewrite IH by (rewrite length_insert; lia).
    rewrite Z_of_byte_of_Z. f_equal.
    rewrite Nat2Z.inj_succ, Z.pow_succ_r by lia.
    rewrite (Z.mul_comm 256), Z.rem_mul_r by lia.
    lia.
Qed.

Lemma load_le_range n : forall a m v,
  load_le n a m = Some v -> 0 <= v < 256 ^ Z.of_nat n.
Proof.
  induction n as [|n IH]; intros a m v; cbn [load_le].
  - intros [= <-]. simpl. lia.
  - destruct (m !! a) as [b|]; [|discriminate].
    destruct (load_le n (S a) m) as [r|] eqn:E; [|discriminate].
    intros [= <-]. apply IH in E. pose proof (Z_of_byte_range b).
    rewrite Nat2Z.inj_succ, Z.pow_succ_r by lia. lia.
Qed.

Lemma load_le_Some_bounds n : forall a m v,
  load_le (S n) a m = Some v -> (a + S n <= length m)%nat.
Proof.
  induction n as [|n IH]; intros a m v H; cbn [load_le] in H.
  - destruct (m !! a) as [b|] eqn:Eb; [|discriminate].
    apply lookup_lt_Some in Eb. lia.
  - destruct (m !! a) as [b|]; [|discriminate].
    destruct (match m !! S a with Some _ => _ | None => _ end) as [r|] eqn:Er;
      [|discriminate].
    apply (IH (S a) m r) in Er. lia.
Qed.

Lemma load_le_in_bounds n : forall a m,
  (a + n <= length m)%nat -> is_Some (load_le n a m).
Proof.
  induction n as [|n IH]; intros a m H; cbn [load_le]; [eauto|].
  destruct (lookup_lt_is_Some_2 m a) as [b Hb]; [lia|].
  destruct (IH (S a) m) as [r Hr]; [lia|].
  rewrite Hb, Hr. eauto.
Qed.

(** ** Editable numbers: [getEditableNumber], [setEditableNumber] *)

(** Decide the tests on the width once it is known. *)
Ltac red_size :=
  repeat match goal with
         | |- context [Z.of_nat ?n =? ?k] =>
             let b := eval vm_compute in (Z.of_nat n =? k) in
             change (Z.of_nat n =? k) with b
         end;
  cbv iota.


Lemma load_Ok s n a :
  (a + n <= length (mem s))%nat ->
  exists u, load_le n a (mem s) = Some u /\ 0 <= u < 256 ^ Z.of_nat n /\
            load n a s = Ok u s.
Proof.
  intros Hb. destruct (load_le_in_bounds n a (mem s) Hb) as [u Hu].
  exists u. split; [exact Hu|]. split; [now apply load_le_range in Hu|].
  unfold load. now rewrite Hu.
Qed.

Lemma store_Ok s n a v :
  (a + n <= length (mem s))%nat ->
  store n a v s = Ok tt (set_mem (store_le n a v (mem s)) s).
Proof.
  intros Hb. unfold store, in_bounds.
  destruct (Nat.leb_spec (a + n) (length (mem s))); [reflexivity | lia].
Qed.

(** What [setEditableNumber] leaves in the cell, for the three widths. *)
Lemma setEditableNumber_Ok s p f v (n : nat) :
  fields s !! p = Some f ->
  esize (editable f) = Z.of_nat n -> (n = 1 \/ n = 2 \/ n = 4)%nat ->
  (target (editable f) + n <= length (mem s))%nat ->
  setEditableNumber p v s
  = Ok tt (set_mem (store_le n (target (editable f)) (v mod 256 ^ Z.of_nat n)
                      (mem s)) s).
Proof.
  intros Hf Hsz Hn Hb. unfold setEditableNumber.
  rewrite (bind_Ok _ _ _ _ _ (getField_Ok _ _ _ Hf)). rewrite Hsz.
  assert (D8 : forall z, to_uint8 (to_uint32 z) = z mod 256 ^ 1).
  { intros z. unfold to_uint8, to_uint32, wrap_u.
    apply Z.mod_mod_divide. exists 16777216. reflexivity. }
  assert (D16 : forall z, to_uint16 (to_uint32 z) = z mod 256 ^ 2).
  { intros z. unfold to_uint16, to_uint32, wrap_u.
    apply Z.mod_mod_divide. exists 65536. reflexivity. }
  assert (D32 : forall z, to_uint32 (to_uint32 z) = z mod 256 ^ 4).
  { intros z. unfold to_uint32, wrap_u. change (2 ^ 32) with (256 ^ 4).
    apply Z.mod_mod. lia. }
  destruct Hn as [-> | [-> | ->]]; red_size;
    [rewrite D8 | rewrite D16 | rewrite D32]; now apply store_Ok.
Qed.

(** C10.  Reading an editable is asymmetric in signedness: a 1-byte cell
    is returned unsigned (0..255), a 2-byte cell through [int16_t], so that a
    stored value of 32768 or more comes back negative, a 4-byte cell through
    [int32_t]; writing stores the unsigned truncation for every width.
    Hence a 2-byte editable reads back the written value [v] exactly when
    [v < 32768]. *)
Theorem getEditableNumber_signedness (s : state) (p : fptr) (f : Field)
    (n : nat) (v : Z) :
  fields s !! p = Some f ->
  esize (editable f) = Z.of_nat n ->
  (n = 1 \/ n = 2 \/ n = 4)%nat ->
  (target (editable f) + n <= length (mem s))%nat ->
  0 <= v < 2 ^ 32 ->
  (* reading *)
  (exists u,
      load_le n (target (editable f)) (mem s) = Some u /\
      0 <= u < 256 ^ Z.of_nat n /\
      getEditableNumber p s
      = Ok (if (n =? 1)%nat then u
            else if u <? 2 ^ (8 * Z.of_nat n - 1) then u
                 else u - 2 ^ (8 * Z.of_nat n)) s) /\
  (* writing, and reading back *)
  (exists s' r,
      setEditableNumber p v s = Ok tt s' /\
      fields s' = fields s /\
      load_le n (target (editable f)) (mem s')
      = Some (v mod 2 ^ (8 * Z.of_nat n)) /\
      getEditableNumber p s' = Ok r s' /\
      (n = 2%nat -> (r = v <-> v < 32768))).
Proof.
  intros Hf Hsz Hn Hb Hv. split.
  - destruct (load_Ok s n (target (editable f)) Hb) as (u & Hu & Hr & Hl).
    exists u. split; [exact Hu|]. split; [exact Hr|].
    unfold getEditableNumber.
    rewrite (bind_Ok _ _ _ _ _ (getField_Ok _ _ _ Hf)). rewrite Hsz.
    destruct Hn as [-> | [-> | ->]]; cbn [Nat.eqb]; red_size.
    + exact Hl.
    + rewrite (bind_Ok _ _ _ _ _ Hl). unfold ret. f_equal.
      change (256 ^ Z.of_nat 2) with 65536 in Hr.
      change (2 ^ (8 * Z.of_nat 2 - 1)) with 32768.
      change (2 ^ (8 * Z.of_nat 2)) with 65536.
      destruct (Z.ltb_spec u 32768).
      * apply to_int16_small. lia.
      * apply to_int16_high. lia.
    + rewrite (bind_Ok _ _ _ _ _ Hl). unfold ret. f_equal.
      change (256 ^ Z.of_nat 4) with 4294967296 in Hr.
      change (2 ^ (8 * Z.of_nat 4 - 1)) with 2147483648.
      change (2 ^ (8 * Z.of_nat 4)) with 4294967296.
      destruct (Z.ltb_spec u 2147483648).
      * apply to_int32_small. lia.
      * unfold to_int32, wrap_s.
        change (2 ^ 32) with 4294967296. change (2 ^ (32 - 1)) with 2147483648.
        rewrite <- (Z.mod_unique (u + 2147483648) 4294967296 1
                      (u - 2147483648)); lia.
  - pose proof (setEditableNumber_Ok s p f v n Hf Hsz Hn Hb) as Hset.
    set (s' := set_mem _ s) in Hset.
    assert (Hb' : (target (editable f) + n <= length (mem s'))%nat).
    { subst s'. cbn. rewrite store_le_length. exact Hb. }
    assert (Hf' : fields s' !! p = Some f) by exact Hf.
    assert (E256 : 256 ^ Z.of_nat n = 2 ^ (8 * Z.of_nat n)).
    { change 256 with (2 ^ 8). rewrite <- Z.pow_mul_r by lia. reflexivity. }
    assert (Hld : load_le n (target (editable f)) (mem s')
                  = Some (v mod 2 ^ (8 * Z.of_nat n))).
    { subst s'. cbn [mem set_mem]. rewrite load_store_le by exact Hb.
      rewrite Z.mod_mod by lia. now rewrite E256. }
    assert (Hl : load n (target (editable f)) s'
                 = Ok (v mod 2 ^ (8 * Z.of_nat n)) s').
    { unfold load. now rewrite Hld. }
    assert (Hget : exists r, getEditableNumber p s' = Ok r s' /\
                     (n = 2%nat -> r = to_int16 (v mod 65536))).
    { unfold getEditableNumber.
      rewrite (bind_Ok _ _ _ _ _ (getField_Ok _ _ _ Hf')). rewrite Hsz.
      destruct Hn as [-> | [-> | ->]]; red_size.
      - eexists. split; [exact Hl | discriminate].
      - rewrite (bind_Ok _ _ _ _ _ Hl). eexists. split; [reflexivity|].
        intros _. reflexivity.
      - rewrite (bind_Ok _ _ _ _ _ Hl). eexists. split; [reflexivity|].
        discriminate. }
    destruct Hget as (r & Hget & Hr).
    exists s', r. split; [exact Hset|]. split; [reflexivity|].
    split; [exact Hld|]. split; [exact Hget|].
    intros ->. rewrite (Hr eq_refl).
    assert (Hm : 0 <= v mod 65536 < 65536) by (apply Z.mod_pos_bound; lia).
    destruct (Z.ltb_spec v 32768) as [Hlt | Hge].
    + rewrite (Z.mod_small v 65536) by lia.
      rewrite to_int16_small by lia. tauto.
    + split; [|lia]. intros E.
      destruct (Z.ltb_spec (v mod 65536) 32768).
      * rewrite to_int16_small in E by lia. lia.
      * rewrite to_int16_high in E by lia. lia.
Qed.

(** The two-byte "Wheel" editable over a cell holding 0x8000 reads -32768,
    and reads -25536 after 40000 was written to it. *)
Lemma getEditableNumber_signedness_witness :
  getEditableNumber 6%nat Examples.wheel_state
  = Ok (-32768) Examples.wheel_state /\
  exists s' r,
    setEditableNumber 6%nat 40000 Examples.wheel_state = Ok tt s' /\
    getEditableNumber 6%nat s' = Ok r s' /\ r <> 40000.
Proof.
  destruct (getEditableNumber_signedness Examples.wheel_state 6%nat
              (FIELD_EDITABLE_UINT "Wheel" 0 2 "mm" 0 65535 0) 2 40000)
    as [(u & Hu & _ & Hg) (s' & r & Hs & _ & _ & Hr & Hiff)].
  - reflexivity.
  - reflexivity.
  - right. left. reflexivity.
  - simpl. lia.
  - lia.
  - split.
    + rewrite Hg. vm_compute in Hu. injection Hu as <-. reflexivity.
    + exists s', r. split; [exact Hs|]. split; [exact Hr|].
      intros E. apply (Hiff eq_refl) in E. lia.
Defined.

(** ** Text fields: [fieldPrintf] *)

Lemma c_str_idem b : c_str (c_str b) = c_str b.
Proof.
  induction b as [|c r IH]; simpl; [reflexivity|].
  destruct (Ascii.eqb c NUL) eqn:E; simpl; [reflexivity|].
  now rewrite E, IH.
Qed.

Lemma bounded_c_str n str : c_str (bounded n str) = bounded n str.
Proof. apply c_str_idem. Qed.

Lemma strcmp_ne_false a b : strcmp_ne a b = false <-> c_str a = c_str b.
Proof.
  unfold strcmp_ne. rewrite negb_false_iff. apply String.eqb_eq.
Qed.

(** A call whose bounded result is already the text of the field changes
    nothing at all. *)
Lemma fieldPrintf_same s p f str :
  fields s !! p = Some f ->
  c_str (msg (drawText f)) = bounded MAX_FIELD_LEN str ->
  fieldPrintf p str s = Ok tt s.
Proof.
  intros Hf Hm. unfold fieldPrintf.
  rewrite (bind_Ok _ _ _ _ _ (getField_Ok _ _ _ Hf)).
  replace (strcmp_ne _ _) with false; [reflexivity|].
  symmetry. apply strcmp_ne_false. now rewrite bounded_c_str.
Qed.

(** C9.  [fieldPrintf] leaves the bounded formatted string in the message
    buffer of the field and sets [dirty] if and only if that string differs
    from the one the buffer held: when it differs the text is replaced and
    [dirty] is set, when it is the same the state is untouched.  It is
    idempotent: a further call that formats to the same bounded string
    changes nothing, so a [dirty] flag that is false stays false. *)
Theorem fieldPrintf_dirty_iff_changed (s : state) (p : fptr) (f : Field)
    (str : string) :
  fields s !! p = Some f ->
  exists s' f',
    fieldPrintf p str s = Ok tt s' /\
    fields s' !! p = Some f' /\
    c_str (msg (drawText f')) = bounded MAX_FIELD_LEN str /\
    (c_str (msg (drawText f)) <> bounded MAX_FIELD_LEN str ->
     msg (drawText f') = bounded MAX_FIELD_LEN str /\ dirty f' = true) /\
    (c_str (msg (drawText f)) = bounded MAX_FIELD_LEN str -> s' = s) /\
    (forall str2 t g,
        bounded MAX_FIELD_LEN str2 = bounded MAX_FIELD_LEN str ->
        fields t !! p = Some g ->
        msg (drawText g) = msg (drawText f') ->
        fieldPrintf p str2 t = Ok tt t) /\
    (forall str2,
        bounded MAX_FIELD_LEN str2 = bounded MAX_FIELD_LEN str ->
        fieldPrintf p str2 s' = Ok tt s').
Proof.
  intros Hf.
  assert (Hlt : (p < length (fields s))%nat) by (eapply lookup_lt_Some; eauto).
  destruct (String.eqb (c_str (bounded MAX_FIELD_LEN str))
              (c_str (msg (drawText f)))) eqn:E.
  - (* the text is the same *)
    apply String.eqb_eq in E. rewrite bounded_c_str in E.
    exists s, f. split; [now apply (fieldPrintf_same s p f)|].
    split; [exact Hf|]. split; [now symmetry|].
    split; [intros N; now elim N|]. split; [reflexivity|].
    split.
    + intros str2 t g Hb Hg Hm. apply (fieldPrintf_same t p g); [exact Hg|].
      rewrite Hm, Hb. now symmetry.
    + intros str2 Hb. apply (fieldPrintf_same s p f); [exact Hf|].
      rewrite Hb. now symmetry.
  - (* the text differs *)
    set (buf := bounded MAX_FIELD_LEN str).
    set (f1 := set_msg buf f).
    set (s1 := set_fields (<[p := f1]> (fields s)) s).
    set (f2 := set_dirty true f1).
    set (s2 := set_fields (<[p := f2]> (fields s1)) s1).
    assert (H1 : fields s1 !! p = Some f1).
    { subst s1. cbn [fields set_fields]. now apply list_lookup_insert_eq. }
    assert (H2 : fields s2 !! p = Some f2).
    { subst s2. cbn [fields set_fields]. apply list_lookup_insert_eq.
      subst s1. cbn [fields set_fields]. now rewrite length_insert. }
    assert (Hrun : fieldPrintf p str s = Ok tt s2).
    { unfold fieldPrintf.
      rewrite (bind_Ok _ _ _ _ _ (getField_Ok _ _ _ Hf)).
      unfold strcmp_ne. fold buf. fold buf in E. rewrite E. cbn [negb].
      rewrite (bind_Ok _ _ _ _ _ (modField_Ok s p f _ Hf)).
      fold f1. fold s1. now rewrite (modField_Ok s1 p f1 _ H1). }
    exists s2, f2. split; [exact Hrun|]. split; [exact H2|].
    assert (Hc : c_str (msg (drawText f2)) = buf).
    { subst f2 f1. cbn. apply bounded_c_str. }
    split; [exact Hc|]. split; [intros _; split; reflexivity|].
    split.
    { intros Eq. exfalso. apply String.eqb_neq in E. apply E.
      rewrite bounded_c_str. now symmetry. }
    split.
    + intros str2 t g Hb Hg Hm. apply (fieldPrintf_same t p g); [exact Hg|].
      rewrite Hm, Hb. exact Hc.
    + intros str2 Hb. apply (fieldPrintf_same s2 p f2); [exact H2|].
      rewrite Hb. exact Hc.
Qed.

(** Printing "12 km/h" twice into the [heading] field of a fresh state:
    the second call returns the state of the first. *)
Lemma fieldPrintf_dirty_iff_changed_witness :
  exists s' f',
    fieldPrintf heading "12 km/h" (boot [] [] []) = Ok tt s' /\
    fields s' !! heading = Some f' /\
    dirty f' = true /\
    fieldPrintf heading "12 km/h" s' = Ok tt s'.
Proof.
  destruct (fieldPrintf_dirty_iff_changed (boot [] [] []) heading
              FIELD_DRAWTEXT "12 km/h" eq_refl)
    as (s' & f' & Hrun & Hf' & _ & Hne & _ & _ & Hagain).
  exists s', f'. split; [exact Hrun|]. split; [exact Hf'|].
  split.
  - apply Hne. vm_compute. discriminate.
  - apply Hagain. reflexivity.
Defined.

(** ** The stack of scrollables *)

Lemma getActiveScrollable_top s q :
  0 < scrollableStackPtr s ->
  scrollableStack s !! Z.to_nat (scrollableStackPtr s - 1) = Some (Some q) ->
  getActiveScrollable s = Ok (Some q) s.
Proof.
  intros Hp Hq. unfold getActiveScrollable, bind, gets.
  destruct (Z.eqb_spec (scrollableStackPtr s) 0); [lia|].
  destruct (Z.ltb_spec (scrollableStackPtr s) 0); [lia|].
  now rewrite Hq.
Qed.

Lemma getActiveScrollable_empty s :
  scrollableStackPtr s = 0 -> getActiveScrollable s = Ok None s.
Proof.
  intros Hp. unfold getActiveScrollable, bind, gets. now rewrite Hp.
Qed.

(** C5.  With the stack depth strictly below [MAX_SCROLLABLE_DEPTH],
    [enterScrollable f] returns, the depth has grown by exactly one with
    [f] on top, [f] has its [blink] flag set and the scrollable at the
    bottom of the stack is dirty.  At depth [MAX_SCROLLABLE_DEPTH] the call
    stops at its assertion: nothing is pushed or dropped. *)
Theorem enterScrollable_push_or_assert (s : state) (f : fptr) :
  stack_ok s ->
  is_Some (fields s !! f) ->
  (scrollableStackPtr s < MAX_SCROLLABLE_DEPTH ->
   exists s' root ff fr,
     enterScrollable f s = Ok tt s' /\
     scrollableStackPtr s' = scrollableStackPtr s + 1 /\
     getActiveScrollable s' = Ok (Some f) s' /\
     scrollableStack s' !! 0%nat = Some (Some root) /\
     fields s' !! f = Some ff /\ blink ff = true /\
     fields s' !! root = Some fr /\ dirty fr = true /\
     stack_ok s') /\
  (scrollableStackPtr s = MAX_SCROLLABLE_DEPTH ->
   enterScrollable f s = AssertFail).
Proof.
  intros (Hlen & Hrange & Hvalid) [f0 Hf0]. split.
  - intros Hlt.
    set (sp := scrollableStackPtr s) in *.
    set (s1 := set_scrollableStackPtr (sp + 1)
                 (set_scrollableStack
                    (<[Z.to_nat sp := Some f]> (scrollableStack s)) s)).
    set (s2 := set_fields (<[f := set_blink true f0]> (fields s1)) s1).
    (* the bottom of the stack after the push *)
    assert (Hroot : exists root, scrollableStack s1 !! 0%nat = Some (Some root)
                                 /\ is_Some (fields s !! root)).
    { subst s1. cbn [scrollableStack set_scrollableStack set_scrollableStackPtr].
      destruct (Z.eq_dec sp 0) as [E0 | N0].
      - exists f. rewrite E0. cbn. split; [|eauto].
        apply list_lookup_insert_eq. rewrite Hlen. cbn. lia.
      - destruct (Hvalid 0%nat) as (q & Hq & Hqv); [lia|].
        exists q. split; [|exact Hqv].
        rewrite list_lookup_insert_ne by lia. exact Hq. }
    destruct Hroot as (root & Hroot & [fr0 Hfr0]).
    assert (Hf2 : fields s2 !! f = Some (set_blink true f0)).
    { subst s2 s1. cbn. apply list_lookup_insert_eq.
      eapply lookup_lt_Some; eauto. }
    assert (Hr2 : exists fr2, fields s2 !! root = Some fr2).
    { apply lookup_lt_is_Some_2. subst s2 s1. cbn.
      rewrite length_insert. eapply lookup_lt_Some; eauto. }
    destruct Hr2 as (fr2 & Hr2).
    set (s3 := set_fields (<[root := set_dirty true fr2]> (fields s2)) s2).
    set (s4 := set_forceScrollableRelayout true s3).
    assert (Hrun : enterScrollable f s = Ok tt s4).
    { unfold enterScrollable, bind at 1, gets. fold sp.
      unfold bind at 1, c_assert.
      destruct (Z.ltb_spec sp MAX_SCROLLABLE_DEPTH); [|lia].
      unfold bind at 1.
      destruct (Z.ltb_spec sp 0); [lia|].
      unfold modify. fold s1.
      rewrite (bind_Ok _ _ _ _ _ (modField_Ok s1 f f0 _ Hf0)). fold s2.
      unfold rootScrollable.
      unfold bind at 1. unfold bind at 1, gets.
      replace (scrollableStack s2) with (scrollableStack s1) by reflexivity.
      rewrite Hroot. cbn [deref ret bind].
      rewrite (bind_Ok _ _ _ _ _ (modField_Ok s2 root fr2 _ Hr2)).
      reflexivity. }
    assert (Hf4 : exists ff, fields s4 !! f = Some ff /\ blink ff = true).
    { subst s4 s3. cbn [fields set_fields set_forceScrollableRelayout].
      destruct (Nat.eq_dec root f) as [-> | Nrf].
      - exists (set_dirty true fr2). split.
        + apply list_lookup_insert_eq. eapply lookup_lt_Some; eauto.
        + rewrite Hf2 in Hr2. injection Hr2 as <-. reflexivity.
      - exists (set_blink true f0). split; [|reflexivity].
        rewrite list_lookup_insert_ne by exact Nrf. exact Hf2. }
    destruct Hf4 as (ff & Hff & Hbl).
    assert (Hlen1 : length (scrollableStack s4) = Z.to_nat MAX_SCROLLABLE_DEPTH).
    { subst s4 s3 s2 s1. cbn. rewrite length_insert. exact Hlen. }
    assert (Htop : scrollableStack s4 !! Z.to_nat sp = Some (Some f)).
    { subst s4 s3 s2 s1. cbn. apply list_lookup_insert_eq.
      rewrite Hlen. unfold MAX_SCROLLABLE_DEPTH in *. lia. }
    exists s4, root, ff, (set_dirty true fr2).
    split; [exact Hrun|]. split; [reflexivity|].
    split.
    { apply getActiveScrollable_top.
      - subst s4 s3 s2 s1. cbn. lia.
      - replace (scrollableStackPtr s4) with (sp + 1) by reflexivity.
        replace (sp + 1 - 1) with sp by lia. exact Htop. }
    split; [exact Hroot|]. split; [exact Hff|]. split; [exact Hbl|].
    split.
    { subst s4 s3. cbn. apply list_lookup_insert_eq.
      eapply lookup_lt_Some; eauto. }
    split; [reflexivity|].
    (* the stack is well formed again *)
    split; [exact Hlen1|]. split.
    { replace (scrollableStackPtr s4) with (sp + 1) by reflexivity. lia. }
    intros i Hi.
    replace (scrollableStackPtr s4) with (sp + 1) in Hi by reflexivity.
    assert (Hkeep : forall q, is_Some (fields s !! q) ->
                              is_Some (fields s4 !! q)).
    { intros q Hq. apply lookup_lt_is_Some_2. subst s4 s3 s2 s1. cbn.
      rewrite !length_insert. now apply lookup_lt_is_Some_1. }
    destruct (Nat.eq_dec i (Z.to_nat sp)) as [-> | Ni].
    + exists f. split; [exact Htop|]. apply Hkeep. eauto.
    + destruct (Hvalid i) as (q & Hq & Hqv); [lia|].
      exists q. split; [|now apply Hkeep].
      subst s4 s3 s2 s1. cbn. rewrite list_lookup_insert_ne by lia. exact Hq.
  - intros E. unfold enterScrollable, bind at 1, gets. rewrite E.
    reflexivity.
Qed.

(** Entering the root menu "Config" of the example screen on an empty
    stack. *)
Lemma enterScrollable_push_or_assert_witness :
  exists s',
    enterScrollable 6%nat Examples.menu_state = Ok tt s' /\
    scrollableStackPtr s' = 1 /\
    getActiveScrollable s' = Ok (Some 6%nat) s'.
Proof.
  destruct (enterScrollable_push_or_assert Examples.menu_state 6%nat)
    as [Hpush _].
  - split; [reflexivity|]. split; [cbn; unfold MAX_SCROLLABLE_DEPTH; lia|].
    cbn. intros i Hi. lia.
  - cbn. eauto.
  - destruct Hpush as (s' & root & ff & fr & Hrun & Hsp & Hact & _).
    + cbn. unfold MAX_SCROLLABLE_DEPTH. lia.
    + exists s'. split; [exact Hrun|]. split; [exact Hsp | exact Hact].
Defined.

(** ** Navigation in a scrollable *)

Lemma same_rest_trans s1 s2 s3 :
  same_rest s1 s2 -> same_rest s2 s3 -> same_rest s1 s3.
Proof. unfold same_rest. congruence. Qed.

Lemma same_rest_stack s s' :
  same_rest s s' ->
  scrollableStack s' = scrollableStack s /\
  scrollableStackPtr s' = scrollableStackPtr s.
Proof.
  intros H. split.
  - apply (f_equal scrollableStack) in H. cbn in H. congruence.
  - apply (f_equal scrollableStackPtr) in H. cbn in H. congruence.
Qed.

Lemma getActiveScrollable_frame s s' a :
  same_rest s s' ->
  getActiveScrollable s = Ok a s -> getActiveScrollable s' = Ok a s'.
Proof.
  intros H. destruct (same_rest_stack _ _ H) as [Hst Hsp].
  unfold getActiveScrollable, bind, gets. cbv beta iota. rewrite Hsp.
  destruct (scrollableStackPtr s =? 0); [intros [= <-]; reflexivity|].
  destruct (scrollableStackPtr s <? 0); [discriminate|].
  cbv beta iota. rewrite Hst.
  destruct (scrollableStack s !! _) as [o|]; cbn; [|discriminate].
  unfold ret. intros [= <-]. reflexivity.
Qed.

Lemma rootScrollable_Ok s root :
  scrollableStack s !! 0%nat = Some (Some root) -> rootScrollable s = Ok root s.
Proof.
  intros H. unfold rootScrollable, bind, gets. cbv beta iota.
  rewrite H. reflexivity.
Qed.

Lemma when_modField_step s p f g (b : bool) :
  fields s !! p = Some f ->
  exists s1,
    when b (modField p g) s = Ok tt s1 /\
    fields s1 = <[p := if b then g f else f]> (fields s) /\
    same_rest s s1.
Proof.
  intros Hf. destruct b; cbn [when].
  - eexists. split; [apply (modField_Ok s p f g Hf)|]. split; reflexivity.
  - exists s. split; [reflexivity|]. split; [|reflexivity].
    symmetry. now apply list_insert_id.
Qed.

Lemma forceScrollableRender_step s sp root fr :
  getActiveScrollable s = Ok (Some sp) s ->
  scrollableStack s !! 0%nat = Some (Some root) ->
  fields s !! root = Some fr ->
  exists s1,
    forceScrollableRender s = Ok tt s1 /\
    fields s1 = <[root := set_dirty true fr]> (fields s) /\
    same_rest s s1.
Proof.
  intros Ha Hr Hf. unfold forceScrollableRender.
  rewrite (bind_Ok _ _ _ _ _ Ha). cbn [is_null negb].
  rewrite (bind_Ok _ _ s tt s) by reflexivity.
  rewrite (bind_Ok _ _ _ _ _ (rootScrollable_Ok s root Hr)).
  rewrite (bind_Ok _ _ _ _ _ (modField_Ok s root fr _ Hf)).
  eexists. split; [reflexivity|]. split; reflexivity.
Qed.

(** The entry count depends on the variants of the fields only. *)
Lemma countFrom_ext k : forall fs fs' e,
  map variant fs = map variant fs' ->
  countFrom k fs e = countFrom k fs' e.
Proof.
  induction k as [|k IH]; intros fs fs' e H; cbn [countFrom]; [reflexivity|].
  assert (Hl : variant <$> (fs !! e) = variant <$> (fs' !! e)).
  { rewrite <- !list_lookup_fmap. change (fmap variant) with (map variant).
    now rewrite H. }
  rewrite (IH fs fs' (S e) H).
  destruct (fs !! e) as [f|], (fs' !! e) as [f'|]; cbn in Hl;
    try discriminate; [|reflexivity].
  injection Hl as ->. reflexivity.
Qed.

Lemma map_variant_insert (fs : list Field) p f f' :
  fs !! p = Some f -> variant f' = variant f ->
  map variant (<[p := f']> fs) = map variant fs.
Proof.
  intros Hf Hv. change (map variant) with (fmap (M:=list) variant).
  rewrite list_fmap_insert, Hv. apply list_insert_id.
  now rewrite list_lookup_fmap, Hf.
Qed.

Lemma countEntries_frame s s' p f f' n :
  fields s !! p = Some f -> fields s' !! p = Some f' ->
  entries (scrollable f') = entries (scrollable f) ->
  map variant (fields s') = map variant (fields s) ->
  countEntries p s = Ok n s -> countEntries p s' = Ok n s'.
Proof.
  intros Hf Hf' He Hv. unfold countEntries.
  rewrite (bind_Ok _ _ _ _ _ (getField_Ok _ _ _ Hf)).
  rewrite (bind_Ok _ _ _ _ _ (getField_Ok _ _ _ Hf')).
  rewrite He. destruct (entries (scrollable f)) as [e|].
  - unfold bind, gets.
    assert (Hlen : length (fields s') = length (fields s)).
    { rewrite <- (length_map variant (fields s')), Hv. apply length_map. }
    rewrite Hlen, (countFrom_ext _ _ _ e Hv).
    destruct (countFrom _ (fields s) e); cbn; [|discriminate].
    unfold ret. intros [= <-]. reflexivity.
  - unfold ret. intros [= <-]. reflexivity.
Qed.

Section Navigation.

Variables (s : state) (sp : fptr) (f : Field).
Hypothesis Hstack : stack_ok s.
Hypothesis Hactive : getActiveScrollable s = Ok (Some sp) s.
Hypothesis Hf : fields s !! sp = Some f.

Lemma active_depth : 0 < scrollableStackPtr s.
Proof using Hstack Hactive.
  destruct Hstack as (_ & Hr & _).
  destruct (Z.eq_dec (scrollableStackPtr s) 0) as [E|]; [|lia].
  rewrite (getActiveScrollable_empty s E) in Hactive. discriminate.
Qed.

Lemma active_root :
  exists root fr, scrollableStack s !! 0%nat = Some (Some root) /\
                  fields s !! root = Some fr.
Proof using Hstack Hactive.
  pose proof active_depth as Hd.
  destruct Hstack as (_ & _ & Hv).
  destruct (Hv 0%nat) as (q & Hq & [fr Hfr]); [lia|]. eauto.
Qed.

(** The two updates of the window followed by [forceScrollableRender]. *)
Lemma nav_steps (c1 c2 : Field -> bool) (g1 g2 : Field -> Field -> Field)
    (nav : Z * Z -> Z * Z) :
  (forall x, variant (g1 x x) = variant x /\
             entries (scrollable (g1 x x)) = entries (scrollable x)) ->
  (forall x, variant (g2 x x) = variant x /\
             entries (scrollable (g2 x x)) = entries (scrollable x)) ->
  (let f1 := if c1 f then g1 f f else f in
   let f2 := if c2 f1 then g2 f1 f1 else f1 in
   window f2 = nav (window f)) ->
  exists s',
    (do (let* x := getField sp in when (c1 x) (modField sp (g1 x))) then
     do (let* x := getField sp in when (c2 x) (modField sp (g2 x))) then
     forceScrollableRender) s = Ok tt s' /\
    moved nav sp f s s'.
Proof using Hstack Hactive Hf.
  intros Hg1 Hg2 Hnav.
  destruct active_root as (root & fr & Hroot & Hfr).
  set (f1 := if c1 f then g1 f f else f) in *.
  set (f2 := if c2 f1 then g2 f1 f1 else f1) in *.
  assert (Hlt : (sp < length (fields s))%nat)
    by (eapply lookup_lt_Some; eauto).
  (* first update *)
  destruct (when_modField_step s sp f (g1 f) (c1 f) Hf)
    as (s1 & Hrun1 & Hfs1 & Hrest1).
  fold f1 in Hfs1.
  assert (Hf1 : fields s1 !! sp = Some f1).
  { rewrite Hfs1. now apply list_lookup_insert_eq. }
  (* second update *)
  destruct (when_modField_step s1 sp f1 (g2 f1) (c2 f1) Hf1)
    as (s2 & Hrun2 & Hfs2 & Hrest2).
  fold f2 in Hfs2.
  assert (Hf2 : fields s2 !! sp = Some f2).
  { rewrite Hfs2. apply list_lookup_insert_eq.
    rewrite Hfs1, length_insert. exact Hlt. }
  assert (Hrest02 : same_rest s s2) by (eapply same_rest_trans; eauto).
  (* the root is marked dirty *)
  assert (Hv1 : variant f1 = variant f /\
                entries (scrollable f1) = entries (scrollable f)).
  { subst f1. destruct (c1 f); [apply Hg1 | tauto]. }
  assert (Hv2 : variant f2 = variant f /\
                entries (scrollable f2) = entries (scrollable f)).
  { subst f2. destruct (c2 f1); [|exact Hv1].
    destruct (Hg2 f1) as [-> ->]. exact Hv1. }
  assert (Hmap2 : map variant (fields s2) = map variant (fields s)).
  { rewrite Hfs2, (map_variant_insert _ sp f1 f2 Hf1)
      by (destruct Hv1, Hv2; congruence).
    rewrite Hfs1. apply (map_variant_insert _ sp f f1 Hf). tauto. }
  assert (Hfr2 : exists fr2, fields s2 !! root = Some fr2).
  { apply lookup_lt_is_Some_2. rewrite Hfs2, Hfs1, !length_insert.
    eapply lookup_lt_Some; eauto. }
  destruct Hfr2 as (fr2 & Hfr2).
  destruct (same_rest_stack _ _ Hrest02) as [Hst2 _].
  destruct (forceScrollableRender_step s2 sp root fr2) as
    (s3 & Hrun3 & Hfs3 & Hrest3).
  { eapply getActiveScrollable_frame; eauto. }
  { rewrite Hst2. exact Hroot. }
  { exact Hfr2. }
  exists s3. split.
  { rewrite (bind_Ok _ _ s tt s1).
    2:{ rewrite (bind_Ok _ _ _ _ _ (getField_Ok _ _ _ Hf)). exact Hrun1. }
    rewrite (bind_Ok _ _ s1 tt s2).
    2:{ rewrite (bind_Ok _ _ _ _ _ (getField_Ok _ _ _ Hf1)). exact Hrun2. }
    exact Hrun3. }
  assert (Hf3 : exists f3, fields s3 !! sp = Some f3 /\
                           window f3 = window f2 /\
                           entries (scrollable f3) = entries (scrollable f2)).
  { rewrite Hfs3. destruct (Nat.eq_dec root sp) as [-> | Nr].
    - exists (set_dirty true fr2). split.
      + apply list_lookup_insert_eq. eapply lookup_lt_Some; eauto.
      + rewrite Hf2 in Hfr2. injection Hfr2 as <-. split; reflexivity.
    - exists f2. split; [|split; reflexivity].
      rewrite list_lookup_insert_ne by exact Nr. exact Hf2. }
  destruct Hf3 as (f3 & Hf3 & Hw3 & He3).
  exists f3. split; [exact Hf3|]. split; [rewrite Hw3; exact Hnav|].
  split; [destruct Hv2; congruence|]. split.
  - rewrite Hfs3, (map_variant_insert _ root fr2 _ Hfr2) by reflexivity.
    exact Hmap2.
  - eapply same_rest_trans; eauto.
Qed.

Lemma scrollUp_moved :
  exists s', scrollUp sp s = Ok tt s' /\ moved navUp sp f s s'.
Proof using Hstack Hactive Hf.
  apply (nav_steps
           (fun x => 1 <=? selected (scrollable x))
           (fun x => selected (scrollable x) <? first (scrollable x))
           (fun x => set_selected (to_uint8 (selected (scrollable x) - 1)))
           (fun x => set_first (selected (scrollable x)))).
  - intros x. split; reflexivity.
  - intros x. split; reflexivity.
  - unfold navUp, window. cbn [fst snd].
    destruct (1 <=? selected (scrollable f)); cbn;
      destruct (_ <? first (scrollable f)); reflexivity.
Qed.

Lemma scrollDown_moved n :
  countEntries sp s = Ok n s ->
  exists s', scrollDown sp s = Ok tt s' /\ moved (navDown n) sp f s s'.
Proof using Hstack Hactive Hf.
  intros Hn. unfold scrollDown. rewrite (bind_Ok _ _ _ _ _ Hn).
  apply (nav_steps
           (fun x => selected (scrollable x) <? n - 1)
           (fun x => first (scrollable x) + (MAX_SCROLLABLE_ROWS - 1) - 1
                     <? selected (scrollable x))
           (fun x => set_selected (to_uint8 (selected (scrollable x) + 1)))
           (fun x => set_first
                       (to_uint8 (selected (scrollable x)
                                  - (MAX_SCROLLABLE_ROWS - 1) + 1)))).
  - intros x. split; reflexivity.
  - intros x. split; reflexivity.
  - unfold navDown, window. cbn [fst snd].
    destruct (selected (scrollable f) <? n - 1); cbn;
      destruct (_ <? _); reflexivity.
Qed.

End Navigation.

(** After a move the active scrollable is the same, the stack is well
    formed and the entries are counted as before. *)
Lemma moved_keeps nav s s' sp f n :
  stack_ok s -> getActiveScrollable s = Ok (Some sp) s ->
  fields s !! sp = Some f -> countEntries sp s = Ok n s ->
  moved nav sp f s s' ->
  stack_ok s' /\ getActiveScrollable s' = Ok (Some sp) s' /\
  countEntries sp s' = Ok n s'.
Proof.
  intros (Hlen & Hr & Hv) Ha Hf Hn (f' & Hf' & _ & He & Hmap & Hrest).
  destruct (same_rest_stack _ _ Hrest) as [Hst Hsp].
  assert (Hl : length (fields s') = length (fields s)).
  { rewrite <- (length_map variant (fields s')), Hmap. apply length_map. }
  split; [|split].
  - split; [now rewrite Hst|]. split; [now rewrite Hsp|].
    intros i Hi. rewrite Hsp in Hi. destruct (Hv i Hi) as (q & Hq & Hqv).
    exists q. rewrite Hst. split; [exact Hq|].
    apply lookup_lt_is_Some_2. rewrite Hl. now apply lookup_lt_is_Some_1.
  - exact (getActiveScrollable_frame s s' _ Hrest Ha).
  - exact (countEntries_frame s s' sp f f' n Hf Hf' He Hmap Hn).
Qed.

Lemma navUp_ok n w : window_ok n w -> window_ok n (navUp w).
Proof.
  destruct w as [fi sel]. unfold window_ok, navUp. cbn [fst snd].
  intros (H0 & H1 & H2).
  destruct (Z.leb_spec 1 sel).
  - destruct (Z.eq_dec (to_uint8 (sel - 1)) (sel - 1)) as [E | N].
    + rewrite E. destruct (Z.ltb_spec (sel - 1) fi); lia.
    + (* the decrement can only wrap above 255 *)
      unfold to_uint8, wrap_u in *. change (2 ^ 8) with 256 in *.
      pose proof (Z.mod_pos_bound (sel - 1) 256 ltac:(lia)) as Hb.
      pose proof (Z.mod_le (sel - 1) 256 ltac:(lia) ltac:(lia)) as Hle.
      destruct (Z.ltb_spec ((sel - 1) mod 256) fi); lia.
  - destruct (Z.ltb_spec sel fi); lia.
Qed.

Lemma navDown_ok n w :
  n <= 256 -> window_ok n w -> window_ok n (navDown n w).
Proof.
  destruct w as [fi sel]. unfold window_ok, navDown, MAX_SCROLLABLE_ROWS.
  cbn [fst snd]. intros Hn (H0 & H1 & H2).
  destruct (Z.ltb_spec sel (n - 1)).
  - rewrite (to_uint8_small (sel + 1)) by lia.
    destruct (Z.ltb_spec (fi + (4 - 1) - 1) (sel + 1)).
    + rewrite to_uint8_small by lia. lia.
    + lia.
  - destruct (Z.ltb_spec (fi + (4 - 1) - 1) sel).
    + rewrite to_uint8_small by lia. lia.
    + lia.
Qed.

(** What [onPressScrollable] does with a press that holds neither M nor
    on/off. *)
Lemma onPressScrollable_nav s sp f n (ev : buttons_events_t) :
  stack_ok s -> getActiveScrollable s = Ok (Some sp) s ->
  fields s !! sp = Some f -> countEntries sp s = Ok n s ->
  M_CLICK ev = false -> ONOFF_CLICK ev = false ->
  exists s',
    onPressScrollable ev s = Ok (UP_CLICK ev || DOWN_CLICK ev) s' /\
    moved (fun w => (if DOWN_CLICK ev then navDown n else id)
                      ((if UP_CLICK ev then navUp else id) w)) sp f s s'.
Proof.
  intros Hst Ha Hf Hn Hm Ho. unfold onPressScrollable.
  rewrite (bind_Ok _ _ _ _ _ Ha), Hm, Ho.
  assert (Hid : moved id sp f s s).
  { exists f. split; [exact Hf|]. repeat split; reflexivity. }
  (* the press of up *)
  assert (Hup : exists s1,
             (if UP_CLICK ev then do scrollUp sp then ret true else ret false) s
             = Ok (UP_CLICK ev) s1 /\
             moved (if UP_CLICK ev then navUp else id) sp f s s1).
  { destruct (UP_CLICK ev).
    - destruct (scrollUp_moved s sp f Hst Ha Hf) as (s1 & Hrun & Hmv).
      exists s1. split; [|exact Hmv]. now rewrite (bind_Ok _ _ _ _ _ Hrun).
    - exists s. split; [reflexivity | exact Hid]. }
  destruct Hup as (s1 & Hrun1 & Hmv1).
  rewrite (bind_Ok _ _ _ _ _ Hrun1).
  destruct (moved_keeps _ s s1 sp f n Hst Ha Hf Hn Hmv1) as (Hst1 & Ha1 & Hn1).
  destruct Hmv1 as (f1 & Hf1 & Hw1 & He1 & Hmap1 & Hrest1).
  (* the press of down *)
  destruct (DOWN_CLICK ev).
  - destruct (scrollDown_moved s1 sp f1 Hst1 Ha1 Hf1 n Hn1)
      as (s2 & Hrun2 & (f2 & Hf2 & Hw2 & He2 & Hmap2 & Hrest2)).
    exists s2. split.
    + rewrite (bind_Ok _ _ s1 true s2)
        by now rewrite (bind_Ok _ _ _ _ _ Hrun2).
      rewrite orb_true_r. reflexivity.
    + exists f2. split; [exact Hf2|]. split; [now rewrite Hw2, Hw1|].
      split; [congruence|]. split; [congruence|].
      eapply same_rest_trans; eauto.
  - exists s1. split.
    + rewrite orb_false_r. reflexivity.
    + exists f1. repeat split; assumption.
Qed.

(** C3, as amended.  For an active scrollable with at most 256 entries whose
    window satisfies [0 <= first <= selected <= entry_count - 1], a press
    that holds up, down or both (and neither M nor on/off) is handled and
    leaves the same scrollable active with the same entry count and a window
    within the same bounds. *)
Theorem scroll_window_bounds_preserved (s : state) (sp : fptr) (f : Field)
    (n : Z) (ev : buttons_events_t) :
  stack_ok s ->
  getActiveScrollable s = Ok (Some sp) s ->
  fields s !! sp = Some f ->
  countEntries sp s = Ok n s ->
  n <= 256 ->
  window_ok n (window f) ->
  M_CLICK ev = false -> ONOFF_CLICK ev = false ->
  exists s' f',
    onPressScrollable ev s = Ok (UP_CLICK ev || DOWN_CLICK ev) s' /\
    stack_ok s' /\
    getActiveScrollable s' = Ok (Some sp) s' /\
    fields s' !! sp = Some f' /\
    countEntries sp s' = Ok n s' /\
    window_ok n (window f').
Proof.
  intros Hst Ha Hf Hn Hle Hw Hm Ho.
  destruct (onPressScrollable_nav s sp f n ev Hst Ha Hf Hn Hm Ho)
    as (s' & Hrun & Hmv).
  destruct (moved_keeps _ s s' sp f n Hst Ha Hf Hn Hmv) as (Hst' & Ha' & Hn').
  destruct Hmv as (f' & Hf' & Hw' & _).
  exists s', f'. repeat (split; [assumption|]).
  rewrite Hw'.
  assert (Hu : window_ok n ((if UP_CLICK ev then navUp else id) (window f))).
  { destruct (UP_CLICK ev); [now apply navUp_ok | exact Hw]. }
  destruct (DOWN_CLICK ev); [now apply navDown_ok | exact Hu].
Qed.

(** A press of down in the six-entry menu "Trip". *)
Lemma scroll_window_bounds_preserved_witness :
  exists s' f',
    onPressScrollable press_down Examples.six_menu = Ok true s' /\
    fields s' !! 6%nat = Some f' /\
    window_ok 6 (window f').
Proof.
  destruct (scroll_window_bounds_preserved Examples.six_menu 6%nat
              (set_dirty true (set_blink true (FIELD_SCROLLABLE "Trip" 7)))
              6 press_down)
    as (s' & f' & Hrun & _ & _ & Hf' & _ & Hw).
  - split; [reflexivity|]. split; [vm_compute; split; discriminate|].
    intros i Hi. exists 6%nat.
    assert (i = 0%nat) as -> by (vm_compute in Hi; lia).
    split; [reflexivity | vm_compute; eauto].
  - reflexivity.
  - reflexivity.
  - reflexivity.
  - lia.
  - vm_compute. repeat split; discriminate.
  - reflexivity.
  - reflexivity.
  - exists s', f'. auto.
Defined.

(** C3 as stated fails past 256 entries: in the menu "Log" of 258 entries,
    with [first = 253] and [selected = 255] within the bounds, a press of
    down wraps the 8-bit [selected] to 0, below [first]. *)
Lemma scroll_window_bounds_fail_past_256 :
  option_map window (fields Examples.long_menu !! 6%nat) = Some (253, 255) /\
  countEntries 6%nat Examples.long_menu = Ok 258 Examples.long_menu /\
  window_ok 258 (253, 255) /\
  exists s',
    onPressScrollable press_down Examples.long_menu = Ok true s' /\
    option_map window (fields s' !! 6%nat) = Some (253, 0) /\
    ~ window_ok 258 (253, 0).
Proof.
  split; [reflexivity|]. split; [vm_compute; reflexivity|].
  split; [unfold window_ok; cbn; lia|].
  eexists. split; [vm_compute; reflexivity|].
  split; [reflexivity|].
  unfold window_ok. cbn. lia.
Qed.

(** C4, as amended.  In an active scrollable of at most 256 entries a press
    of down increments [selected] unless it has reached [entry_count - 1],
    and when the new [selected] lies past the last visible data row,
    [first + MAX_SCROLLABLE_ROWS - 2], it sets [first] so that [selected] is
    the last visible data row; otherwise [first] is kept.  In particular,
    in a scrollable of 6 entries with [first = 0] and [selected = 0], three
    presses of down give [selected = 3] and [first = 1]. *)
Theorem scroll_down_window :
  (forall (s : state) (sp : fptr) (f : Field) (n : Z),
      stack_ok s ->
      getActiveScrollable s = Ok (Some sp) s ->
      fields s !! sp = Some f ->
      countEntries sp s = Ok n s ->
      n <= 256 ->
      0 <= first (scrollable f) <= 255 ->
      0 <= selected (scrollable f) <= 255 ->
      exists s' f',
        onPressScrollable press_down s = Ok true s' /\
        fields s' !! sp = Some f' /\
        selected (scrollable f')
        = (if selected (scrollable f) <? n - 1
           then selected (scrollable f) + 1 else selected (scrollable f)) /\
        (selected (scrollable f) <= n - 1 ->
         selected (scrollable f')
         = Z.min (selected (scrollable f) + 1) (n - 1)) /\
        (first (scrollable f) + MAX_SCROLLABLE_ROWS - 2
         < selected (scrollable f') ->
         selected (scrollable f')
         = first (scrollable f') + MAX_SCROLLABLE_ROWS - 2) /\
        (selected (scrollable f')
         <= first (scrollable f) + MAX_SCROLLABLE_ROWS - 2 ->
         first (scrollable f') = first (scrollable f))) /\
  (option_map window (fields Examples.six_menu !! 6%nat) = Some (0, 0) /\
   countEntries 6%nat Examples.six_menu = Ok 6 Examples.six_menu /\
   exists s1 s2 s3,
     onPressScrollable press_down Examples.six_menu = Ok true s1 /\
     onPressScrollable press_down s1 = Ok true s2 /\
     onPressScrollable press_down s2 = Ok true s3 /\
     option_map window (fields s3 !! 6%nat) = Some (1, 3)).
Proof.
  split.
  - intros s sp f n Hst Ha Hf Hn Hle Hfi Hsel.
    destruct (onPressScrollable_nav s sp f n press_down Hst Ha Hf Hn
                eq_refl eq_refl) as (s' & Hrun & (f' & Hf' & Hw & _)).
    exists s', f'. split; [exact Hrun|]. split; [exact Hf'|].
    cbn [press_down UP_CLICK DOWN_CLICK id] in Hw.
    unfold window, navDown, MAX_SCROLLABLE_ROWS in *. cbn [fst snd] in Hw.
    injection Hw as Hfi' Hsel'.
    assert (Es : selected (scrollable f')
                 = (if selected (scrollable f) <? n - 1
                    then selected (scrollable f) + 1
                    else selected (scrollable f))).
    { rewrite Hsel'. destruct (Z.ltb_spec (selected (scrollable f)) (n - 1));
        [apply to_uint8_small; lia | reflexivity]. }
    split; [exact Es|].
    assert (Hr : 0 <= selected (scrollable f') <= 255).
    { rewrite Es. destruct (Z.ltb_spec (selected (scrollable f)) (n - 1)); lia. }
    rewrite <- Hsel' in Hfi'.
    split; [|split].
    + intros Hin. rewrite Es.
      destruct (Z.ltb_spec (selected (scrollable f)) (n - 1)); lia.
    + intros Hpast. rewrite Hfi'.
      destruct (Z.ltb_spec (first (scrollable f) + (4 - 1) - 1)
                  (selected (scrollable f'))); [|lia].
      rewrite to_uint8_small by lia. lia.
    + intros Hvis. rewrite Hfi'.
      destruct (Z.ltb_spec (first (scrollable f) + (4 - 1) - 1)
                  (selected (scrollable f'))); [lia | reflexivity].
  - split; [reflexivity|]. split; [vm_compute; reflexivity|].
    do 3 eexists.
    split; [vm_compute; reflexivity|].
    split; [vm_compute; reflexivity|].
    split; [vm_compute; reflexivity|].
    reflexivity.
Qed.

(** The first press of down in the six-entry menu "Trip" selects entry 1
    and keeps [first]. *)
Lemma scroll_down_window_witness :
  exists s' f',
    onPressScrollable press_down Examples.six_menu = Ok true s' /\
    fields s' !! 6%nat = Some f' /\
    selected (scrollable f') = 1 /\
    first (scrollable f') = 0.
Proof.
  destruct (proj1 scroll_down_window Examples.six_menu 6%nat
              (set_dirty true (set_blink true (FIELD_SCROLLABLE "Trip" 7))) 6)
    as (s' & f' & Hrun & Hf' & Hsel & _ & _ & Hfi).
  - split; [reflexivity|]. split; [vm_compute; split; discriminate|].
    intros i Hi. exists 6%nat.
    assert (i = 0%nat) as -> by (vm_compute in Hi; lia).
    split; [reflexivity | vm_compute; eauto].
  - reflexivity.
  - reflexivity.
  - reflexivity.
  - lia.
  - cbn. lia.
  - cbn. lia.
  - exists s', f'. split; [exact Hrun|]. split; [exact Hf'|].
    cbn in Hsel. split; [exact Hsel|].
    rewrite Hfi; [reflexivity|]. rewrite Hsel. vm_compute. discriminate.
Defined.

(** C4 as stated fails past 256 entries: in the menu "Log" of 258 entries
    with entry 255 selected, a press of down leaves [selected = 0] and not
    256, the increment clamped at 257. *)
Lemma scroll_down_wraps_past_256 :
  option_map window (fields Examples.long_menu !! 6%nat) = Some (253, 255) /\
  countEntries 6%nat Examples.long_menu = Ok 258 Examples.long_menu /\
  exists s',
    onPressScrollable press_down Examples.long_menu = Ok true s' /\
    option_map window (fields s' !! 6%nat) = Some (253, 0) /\
    0 <> Z.min (255 + 1) (258 - 1).
Proof.
  split; [reflexivity|]. split; [vm_compute; reflexivity|].
  eexists. split; [vm_compute; reflexivity|].
  split; [reflexivity | discriminate].
Qed.

(** ** Leaving a scrollable *)

Lemma stack_top s :
  stack_ok s -> 0 < scrollableStackPtr s ->
  exists top, getActiveScrollable s = Ok (Some top) s /\
              is_Some (fields s !! top).
Proof.
  intros (Hlen & Hr & Hv) Hp.
  destruct (Hv (Z.to_nat (scrollableStackPtr s - 1))) as (q & Hq & Hqv);
    [lia|].
  exists q. split; [|exact Hqv]. now apply getActiveScrollable_top.
Qed.

(** C6, as amended.  An exit press pops the stack of the active scrollable;
    it is reported unhandled exactly when the pop empties the stack (the
    depth was 1), and handled when a parent remains (the depth was 2 or
    more), which then is dirty.  With an empty stack the handler returns
    false and pops nothing. *)
Theorem exit_press_handled_iff_parent_remains (s : state) :
  stack_ok s ->
  (scrollableStackPtr s = 0 -> onPressScrollable press_exit s = Ok false s) /\
  (0 < scrollableStackPtr s ->
   exists s',
     onPressScrollable press_exit s = Ok (1 <? scrollableStackPtr s) s' /\
     scrollableStackPtr s' = scrollableStackPtr s - 1 /\
     scrollableStack s' = scrollableStack s /\
     (1 < scrollableStackPtr s ->
      exists parent fp,
        getActiveScrollable s' = Ok (Some parent) s' /\
        fields s' !! parent = Some fp /\ dirty fp = true)).
Proof.
  intros Hst. split.
  - intros E. unfold onPressScrollable.
    now rewrite (bind_Ok _ _ _ _ _ (getActiveScrollable_empty s E)).
  - intros Hp. destruct (stack_top s Hst Hp) as (top & Htop & _).
    unfold onPressScrollable. rewrite (bind_Ok _ _ _ _ _ Htop).
    cbn [press_exit UP_CLICK DOWN_CLICK M_CLICK ONOFF_CLICK].
    rewrite (bind_Ok _ _ s false s) by reflexivity.
    rewrite (bind_Ok _ _ s false s) by reflexivity.
    rewrite (bind_Ok _ _ s false s) by reflexivity.
    unfold exitScrollable.
    rewrite (bind_Ok _ _ s (scrollableStackPtr s) s) by reflexivity.
    rewrite (bind_Ok _ _ s tt s).
    2:{ unfold c_assert. destruct (Z.ltb_spec 0 (scrollableStackPtr s));
          [reflexivity | lia]. }
    set (s1 := set_scrollableStackPtr (scrollableStackPtr s - 1) s).
    rewrite (bind_Ok _ _ s tt s1) by reflexivity.
    destruct (Z.ltb_spec 1 (scrollableStackPtr s)) as [Hdeep | Hone].
    + (* a parent remains *)
      assert (Hst1 : stack_ok s1).
      { destruct Hst as (Hlen & Hr & Hv). split; [exact Hlen|].
        split; [subst s1; cbn; lia|].
        intros i Hi. apply Hv. subst s1. cbn in Hi. lia. }
      destruct (stack_top s1 Hst1) as (parent & Hpar & [fp Hfp]);
        [subst s1; cbn; lia|].
      rewrite (bind_Ok _ _ _ _ _ Hpar).
      rewrite (bind_Ok _ _ _ _ _ (modField_Ok s1 parent fp _ Hfp)).
      set (s2 := set_fields _ s1).
      rewrite (bind_Ok _ _ s2 tt (set_forceScrollableRelayout true s2))
        by reflexivity.
      eexists. split; [reflexivity|]. split; [reflexivity|].
      split; [reflexivity|]. intros _.
      exists parent, (set_dirty true fp). split.
      * apply (getActiveScrollable_frame s1); [reflexivity | exact Hpar].
      * split; [|reflexivity]. subst s2. cbn.
        apply list_lookup_insert_eq. eapply lookup_lt_Some; eauto.
    + (* the stack is empty after the pop *)
      assert (E : scrollableStackPtr s1 = 0) by (subst s1; cbn; lia).
      rewrite (bind_Ok _ _ _ _ _ (getActiveScrollable_empty s1 E)).
      exists s1. split; [reflexivity|]. split; [reflexivity|].
      split; [reflexivity|]. intros Hlt. lia.
Qed.

(** Exit from the root menu of the example screen: unhandled, and the stack
    is empty afterwards. *)
Lemma exit_press_handled_iff_parent_remains_witness :
  exists s',
    onPressScrollable press_exit Examples.menu_open = Ok false s' /\
    scrollableStackPtr s' = 0.
Proof.
  destruct (exit_press_handled_iff_parent_remains Examples.menu_open)
    as [_ Hpop].
  - split; [reflexivity|]. split; [vm_compute; split; discriminate|].
    intros i Hi. exists 6%nat.
    assert (i = 0%nat) as -> by (vm_compute in Hi; lia).
    split; [reflexivity | vm_compute; eauto].
  - destruct Hpop as (s' & Hrun & Hsp & _); [reflexivity|].
    exists s'. split; [exact Hrun | exact Hsp].
Defined.

(** C6 as stated fails at depth 1: the stack of [menu_open] is not empty
    before the pop, and the exit press is reported unhandled all the same. *)
Lemma exit_unhandled_though_stack_nonempty :
  scrollableStackPtr Examples.menu_open = 1 /\
  getActiveScrollable Examples.menu_open = Ok (Some 6%nat) Examples.menu_open /\
  exists s',
    onPressScrollable press_exit Examples.menu_open = Ok false s' /\
    scrollableStackPtr s' = 0.
Proof.
  split; [reflexivity|]. split; [reflexivity|].
  eexists. split; [vm_compute; reflexivity | reflexivity].
Qed.

(** ** Changing an editable *)

(** With [min_value = 0] a decrement at 0 does not wrap to [max_value]: the
    [int] -1 is compared as the unsigned 4294967295, which is not below
    [min_value] but above [max_value], and so [min_value] is stored. *)
Lemma changeUInt_decrement_at_zero (n : NumberData) :
  min_value n = 0 -> 0 <= max_value n < 4294967295 ->
  inc_step n = 0 \/ inc_step n = 1 ->
  changeUInt n false 0 = 0.
Proof.
  intros Hmin Hmax Hstep. unfold changeUInt.
  assert (E : (if to_int32 (inc_step n) =? 0 then 1
               else to_int32 (inc_step n)) = 1).
  { destruct Hstep as [-> | ->]; reflexivity. }
  rewrite E, Hmin.
  change (to_int32 (0 + to_int32 (1 * -1))) with (-1).
  change (to_uint32 (-1)) with 4294967295.
  destruct (Z.ltb_spec (max_value n) 4294967295); [reflexivity | lia].
Qed.

(** An increment at [max_value] wraps to [min_value]. *)
Lemma changeUInt_increment_at_max (n : NumberData) :
  0 <= min_value n <= max_value n -> max_value n < 2147483647 ->
  inc_step n = 0 \/ inc_step n = 1 ->
  changeUInt n true (max_value n) = min_value n.
Proof.
  intros Hmin Hmax Hstep. unfold changeUInt.
  assert (E : (if to_int32 (inc_step n) =? 0 then 1
               else to_int32 (inc_step n)) = 1).
  { destruct Hstep as [-> | ->]; reflexivity. }
  rewrite E. change (to_int32 (1 * 1)) with 1.
  rewrite (to_int32_small (max_value n + 1)) by lia.
  rewrite (to_uint32_small (max_value n + 1)) by lia.
  destruct (Z.ltb_spec (max_value n + 1) (min_value n)); [lia|].
  destruct (Z.ltb_spec (max_value n) (max_value n + 1)); [|lia].
  apply to_int32_small. lia.
Qed.

(** C2, at the failing input.  The editable "Level" (one byte, from 0 to
    9, step unset) holds its [min_value] 0; [changeEditable (false)]
    returns and the cell still holds 0, not the [max_value] 9.  The
    increment at 9 does store 0. *)
Theorem changeEditable_decrement_at_min_stays :
  (exists s',
      changeEditable false (Examples.level_edit Byte.x00) = Ok tt s' /\
      mem s' = [Byte.x00]) /\
  (exists s',
      changeEditable true (Examples.level_edit Byte.x09) = Ok tt s' /\
      mem s' = [Byte.x00]).
Proof.
  split; eexists; (split; [vm_compute; reflexivity | reflexivity]).
Qed.

(** What [getEditableNumber] returns when the cell holds [u]. *)
Lemma getEditableNumber_Ok s p f (n : nat) u :
  fields s !! p = Some f ->
  esize (editable f) = Z.of_nat n -> (n = 1 \/ n = 2 \/ n = 4)%nat ->
  load_le n (target (editable f)) (mem s) = Some u ->
  0 <= u < max_enum_count n ->
  getEditableNumber p s = Ok u s.
Proof.
  intros Hf Hsz Hn Hu Hr.
  assert (Hl : load n (target (editable f)) s = Ok u s).
  { unfold load. now rewrite Hu. }
  unfold getEditableNumber.
  rewrite (bind_Ok _ _ _ _ _ (getField_Ok _ _ _ Hf)). rewrite Hsz.
  destruct Hn as [-> | [-> | ->]]; red_size.
  - exact Hl.
  - rewrite (bind_Ok _ _ _ _ _ Hl). unfold ret. f_equal.
    apply to_int16_small. cbn in Hr. lia.
  - rewrite (bind_Ok _ _ _ _ _ Hl). unfold ret. f_equal.
    apply to_int32_small. cbn in Hr. lia.
Qed.

Lemma changeEnum_next n inc i :
  0 <= i < n -> n <= 2147483647 -> changeEnum n inc i = enum_next n inc i.
Proof.
  intros Hi Hn. unfold changeEnum, enum_next. destruct inc.
  - destruct (Z.eqb_spec i (n - 1)) as [-> | Ne].
    + rewrite (to_int32_small (n - 1 + 1)) by lia.
      destruct (Z.ltb_spec (n - 1 + 1) 0); [lia|].
      destruct (Z.leb_spec n (n - 1 + 1)); [reflexivity | lia].
    + rewrite (to_int32_small (i + 1)) by lia.
      destruct (Z.ltb_spec (i + 1) 0); [lia|].
      destruct (Z.leb_spec n (i + 1)); [lia | reflexivity].
  - destruct (Z.eqb_spec i 0) as [-> | Ne].
    + change (to_int32 (0 + -1)) with (-1). cbn [Z.ltb Z.compare].
      apply to_int32_small. lia.
    + rewrite (to_int32_small (i + -1)) by lia.
      destruct (Z.ltb_spec (i + -1) 0); [lia|].
      destruct (Z.leb_spec n (i + -1)); [lia | lia].
Qed.

(** C8, as amended.  For an active Enum editable over a cell of 1, 2 or 4
    bytes whose option count [n] (the entries before the NULL) is at most
    256, 32768 or 2^31 - 1 respectively, [changeEditable] stores 0 when it
    increments the index [n - 1], stores [n - 1] when it decrements the
    index 0, and moves any other index by exactly 1. *)
Theorem changeEditable_enum_wraps (s : state) (p : fptr) (f : Field)
    (sz : nat) (n i : Z) (increment : bool) :
  curActiveEditable s = Some p ->
  fields s !! p = Some f ->
  typ (editable f) = EditEnum ->
  esize (editable f) = Z.of_nat sz -> (sz = 1 \/ sz = 2 \/ sz = 4)%nat ->
  count_to_null (options (editEnum (editable f))) = Some n ->
  n <= max_enum_count sz ->
  load_le sz (target (editable f)) (mem s) = Some i ->
  0 <= i < n ->
  exists s',
    changeEditable increment s = Ok tt s' /\
    fields s' = fields s /\
    load_le sz (target (editable f)) (mem s')
    = Some (enum_next n increment i).
Proof.
  intros Hcae Hf Htyp Hsz Hn Hcnt Hmax Hld Hi.
  assert (Hb : (target (editable f) + sz <= length (mem s))%nat).
  { destruct Hn as [-> | [-> | ->]];
      exact (load_le_Some_bounds _ _ _ _ Hld). }
  assert (Hmc : max_enum_count sz <= 2147483647 /\
                max_enum_count sz <= 256 ^ Z.of_nat sz).
  { destruct Hn as [-> | [-> | ->]]; cbn; lia. }
  assert (Hget : getEditableNumber p s = Ok i s).
  { apply (getEditableNumber_Ok s p f sz); try assumption. lia. }
  assert (Hnext : 0 <= enum_next n increment i < n).
  { unfold enum_next. destruct increment.
    - destruct (Z.eqb_spec i (n - 1)); lia.
    - destruct (Z.eqb_spec i 0); lia. }
  unfold changeEditable.
  rewrite (bind_Ok _ _ s (Some p) s) by (unfold gets; now rewrite Hcae).
  rewrite (bind_Ok _ _ s p s) by reflexivity.
  rewrite (bind_Ok _ _ _ _ _ Hget).
  rewrite (bind_Ok _ _ _ _ _ (getField_Ok _ _ _ Hf)). rewrite Htyp.
  rewrite (bind_Ok _ _ s n s).
  2:{ unfold countEnumOptions.
      rewrite (bind_Ok _ _ _ _ _ (getField_Ok _ _ _ Hf)).
      now rewrite Hcnt. }
  rewrite changeEnum_next by lia.
  rewrite (setEditableNumber_Ok s p f _ sz Hf Hsz Hn Hb).
  eexists. split; [reflexivity|]. split; [reflexivity|].
  cbn [mem set_mem]. rewrite load_store_le by exact Hb.
  rewrite Z.mod_mod by (apply Z.pow_nonzero; lia).
  rewrite Z.mod_small by lia. reflexivity.
Qed.

(** The enum "Assist" with the choices Off, Low and High: an increment from
    High, of index 2, stores the index 0 of Off. *)
Lemma changeEditable_enum_wraps_witness :
  exists s',
    changeEditable true Examples.assist_edit = Ok tt s' /\
    load_le 1 0 (mem s') = Some 0.
Proof.
  destruct (changeEditable_enum_wraps Examples.assist_edit 6%nat
              (FIELD_EDITABLE_ENUM "Assist" 0 1
                 ["Off"%string; "Low"%string; "High"%string])
              1 3 2 true)
    as (s' & Hrun & _ & Hld).
  - reflexivity.
  - reflexivity.
  - reflexivity.
  - reflexivity.
  - left. reflexivity.
  - reflexivity.
  - vm_compute. discriminate.
  - reflexivity.
  - lia.
  - exists s'. split; [exact Hrun | exact Hld].
Defined.

Lemma count_to_null_repeat (x : string) (k : nat) :
  count_to_null (map Some (repeat x k) ++ [None]) = Some (Z.of_nat k).
Proof.
  induction k as [|k IH].
  - reflexivity.
  - cbn [repeat map app count_to_null]. rewrite IH. f_equal. lia.
Qed.

(** In a two-byte cell the last index of more than 32768 options is read
    back negative, and its increment stores the last index again. *)
Lemma changeEditable_enum_signed_read s p f n :
  curActiveEditable s = Some p ->
  fields s !! p = Some f ->
  typ (editable f) = EditEnum ->
  esize (editable f) = 2 ->
  count_to_null (options (editEnum (editable f))) = Some n ->
  32768 < n < 65536 ->
  load_le 2 (target (editable f)) (mem s) = Some (n - 1) ->
  exists s',
    changeEditable true s = Ok tt s' /\
    load_le 2 (target (editable f)) (mem s') = Some (n - 1).
Proof.
  intros Hcae Hf Htyp Hsz Hcnt Hn Hld.
  pose proof (load_le_Some_bounds _ _ _ _ Hld) as Hb.
  assert (Hget : getEditableNumber p s = Ok (n - 1 - 65536) s).
  { unfold getEditableNumber.
    rewrite (bind_Ok _ _ _ _ _ (getField_Ok _ _ _ Hf)). rewrite Hsz.
    cbn [Z.eqb Pos.eqb].
    rewrite (bind_Ok _ _ s (n - 1) s) by (unfold load; now rewrite Hld).
    unfold ret. f_equal. apply to_int16_high. lia. }
  unfold changeEditable.
  rewrite (bind_Ok _ _ s (Some p) s) by (unfold gets; now rewrite Hcae).
  rewrite (bind_Ok _ _ s p s) by reflexivity.
  rewrite (bind_Ok _ _ _ _ _ Hget).
  rewrite (bind_Ok _ _ _ _ _ (getField_Ok _ _ _ Hf)). rewrite Htyp.
  rewrite (bind_Ok _ _ s n s).
  2:{ unfold countEnumOptions.
      rewrite (bind_Ok _ _ _ _ _ (getField_Ok _ _ _ Hf)).
      now rewrite Hcnt. }
  assert (E : changeEnum n true (n - 1 - 65536) = n - 1).
  { unfold changeEnum. rewrite (to_int32_small (n - 1 - 65536 + 1)) by lia.
    destruct (Z.ltb_spec (n - 1 - 65536 + 1) 0); [|lia].
    apply to_int32_small. lia. }
  rewrite E.
  rewrite (setEditableNumber_Ok s p f _ 2 Hf Hsz) by (auto; lia).
  eexists. split; [reflexivity|].
  cbn [mem set_mem]. rewrite load_store_le by exact Hb.
  rewrite Z.mod_mod by (apply Z.pow_nonzero; lia).
  change (256 ^ Z.of_nat 2) with 65536.
  rewrite Z.mod_small by lia. reflexivity.
Qed.

(** C8 as stated fails for a two-byte cell and more than 32768 options:
    the last index 32768 of the 32769 choices of "Cell" is read back as
    -32768, and the increment stores 32768 again instead of 0. *)
Lemma changeEditable_enum_sticks_at_32768 :
  count_to_null
    (options (editEnum (editable
       (FIELD_EDITABLE_ENUM "Cell" 0 2 (repeat "x"%string (Z.to_nat 32769))))))
  = Some 32769 /\
  load_le 2 0 (mem Examples.cell_edit) = Some 32768 /\
  exists s',
    changeEditable true Examples.cell_edit = Ok tt s' /\
    load_le 2 0 (mem s') = Some 32768.
Proof.
  assert (Hcnt : count_to_null
                   (options (editEnum (editable
                      (FIELD_EDITABLE_ENUM "Cell" 0 2
                         (repeat "x"%string (Z.to_nat 32769))))))
                 = Some 32769).
  { cbn [FIELD_EDITABLE_ENUM options editEnum editable].
    rewrite count_to_null_repeat. rewrite Z2Nat.id by lia. reflexivity. }
  split; [exact Hcnt|]. split; [reflexivity|].
  apply (changeEditable_enum_signed_read Examples.cell_edit 6%nat
           (FIELD_EDITABLE_ENUM "Cell" 0 2
              (repeat "x"%string (Z.to_nat 32769))) 32769).
  - reflexivity.
  - reflexivity.
  - reflexivity.
  - reflexivity.
  - exact Hcnt.
  - lia.
  - reflexivity.
Qed.

(** ** The order of the button handlers *)

Section Dispatch.

Variable pressHandler : nat -> buttons_events_t -> M bool.

(** The answers of a dispatch hold at most one [true], the last one. *)
Lemma asked_shape layers s answers s' :
  asked layers s answers s' ->
  existsb id answers = true ->
  exists front, answers = front ++ [true] /\
                Forall (fun a => a = false) front.
Proof.
  induction 1 as [s | l rest s answers s' El Ha IH | l rest s h s' El Eh
                 | l rest s h s1 answers s' El Eh Ha IH]; cbn; intros Ht.
  - discriminate.
  - auto.
  - exists []. split; [reflexivity | constructor].
  - destruct (IH Ht) as (front & -> & Hfr).
    exists (false :: front). split; [reflexivity|].
    constructor; [reflexivity | exact Hfr].
Qed.

Lemma asked_firstClaim layers s answers s' :
  asked layers s answers s' ->
  firstClaim layers s = Ok (existsb id answers) s'.
Proof.
  induction 1 as [s | l rest s answers s' El Ha IH | l rest s h s' El Eh
                 | l rest s h s1 answers s' El Eh Ha IH]; cbn [firstClaim].
  - reflexivity.
  - now rewrite El.
  - rewrite El. unfold bind. now rewrite Eh.
  - rewrite El. unfold bind. rewrite Eh. exact IH.
Qed.

Lemma firstClaim_runs (layers : list Layer) : forall s b s',
  firstClaim layers s = Ok b s' ->
  exists answers, asked layers s answers s' /\ b = existsb id answers.
Proof.
  induction layers as [|l rest IH]; intros s b s'; cbn [firstClaim].
  - unfold ret. intros [= <- <-]. exists []. split; [constructor | reflexivity].
  - destruct (l s) as [h|] eqn:El.
    + unfold bind. destruct (h s) as [[|] s1| | |] eqn:Eh; try discriminate.
      * unfold ret. intros [= <- <-]. exists [true].
        split; [eapply asked_claim; eauto | reflexivity].
      * intros H. destruct (IH s1 b s' H) as (answers & Ha & Hb).
        exists (false :: answers). split; [eapply asked_pass; eauto | exact Hb].
    + intros H. destruct (IH s b s' H) as (answers & Ha & Hb).
      exists answers. split; [now apply asked_absent | exact Hb].
Qed.

Lemma firstClaim_asked (layers : list Layer) :
  forall s b s',
    firstClaim layers s = Ok b s' <->
    exists answers,
      asked layers s answers s' /\ b = existsb id answers /\
      (b = true -> exists front, answers = front ++ [true] /\
                                 Forall (fun a => a = false) front).
Proof.
  intros s b s'. split.
  - intros H. destruct (firstClaim_runs layers s b s' H) as (answers & Ha & Hb).
    exists answers. split; [exact Ha|]. split; [exact Hb|].
    intros Ht. apply (asked_shape layers s answers s' Ha). congruence.
  - intros (answers & Ha & -> & _). now apply asked_firstClaim.
Qed.

(** The code of [screenOnPress] is the ordered dispatch of the spec. *)
Lemma screenOnPress_dispatch_spec events s :
  screenOnPress pressHandler events s = dispatch_spec pressHandler events s.
Proof.
  unfold screenOnPress, dispatch_spec, firstClaim.
  unfold editableLayer, scrollableLayer, screenLayer, bind, gets, ret.
  destruct (curActiveEditable s) as [e|]; cbn [is_null negb orb].
  - destruct (onPressEditable events s) as [[|] s1| | |];
      cbn [negb orb]; try reflexivity.
    + destruct (curScreen s1) as [[[h|] ox sf]|]; reflexivity.
    + destruct (onPressScrollable events s1) as [[|] s2| | |];
        cbn [negb orb]; try reflexivity.
      * destruct (curScreen s2) as [[[h|] ox sf]|]; reflexivity.
      * destruct (curScreen s2) as [[[h|] ox sf]|]; cbn [onPress negb];
          try reflexivity.
        destruct (pressHandler h events s2) as [[|] s3| | |]; reflexivity.
  - destruct (onPressScrollable events s) as [[|] s2| | |];
      cbn [negb orb]; try reflexivity.
    + destruct (curScreen s2) as [[[h|] ox sf]|]; reflexivity.
    + destruct (curScreen s2) as [[[h|] ox sf]|]; cbn [onPress negb];
        try reflexivity.
      destruct (pressHandler h events s2) as [[|] s3| | |]; reflexivity.
Qed.

End Dispatch.

(** C7.  [screenOnPress] asks the handlers in strict order: the handler of
    the active editable, only when there is an active editable; then the
    handler of the active scrollable; then the [onPress] handler of the
    current screen, only when one is registered.  It stops at the first
    handler that claims the event, and it returns false exactly when no
    handler that was asked claimed it. *)
Theorem screenOnPress_ordered_dispatch
    (pressHandler : nat -> buttons_events_t -> M bool)
    (events : buttons_events_t) (s : state) :
  screenOnPress pressHandler events s = dispatch_spec pressHandler events s /\
  forall b s',
    screenOnPress pressHandler events s = Ok b s' <->
    exists answers,
      asked [editableLayer events; scrollableLayer events;
             screenLayer pressHandler events] s answers s' /\
      b = existsb id answers /\
      (b = true -> exists front, answers = front ++ [true] /\
                                 Forall (fun a => a = false) front).
Proof.
  split; [apply screenOnPress_dispatch_spec|].
  intros b s'. rewrite screenOnPress_dispatch_spec.
  apply firstClaim_asked.
Qed.

(** ** The render loop and the dirty flags *)

Lemma referenced_layouts s s' p j fp :
  layouts s' = layouts s -> referenced s p j fp -> referenced s' p j fp.
Proof.
  unfold referenced, field_of_layout. intros ->. tauto.
Qed.

(** The second loop of [renderLayouts]: it leaves the layouts alone, it
    keeps clean fields clean, and every field that the sequence references
    is clean after it. *)
Lemma clearDirty_pass k : forall p s s',
  forLayouts k clearDirty p tt s = Ok tt s' ->
  layouts s' = layouts s /\
  (forall fp, dirty_at s fp = Some false -> dirty_at s' fp = Some false) /\
  (forall j fp, referenced s p j fp -> dirty_at s' fp = Some false).
Proof.
  induction k as [|k IH]; intros p s s' Hrun; cbn [forLayouts] in Hrun.
  - discriminate.
  - destruct (layouts s !! p) as [l|] eqn:El.
    2:{ unfold bind, getLayout in Hrun. now rewrite El in Hrun. }
    rewrite (bind_Ok _ _ s l s) in Hrun by (unfold getLayout; now rewrite El).
    destruct (lfield l) as [q|] eqn:Eq.
    + (* one more layout: its field is cleared, then the rest *)
      apply bind_inv_Ok in Hrun. destruct Hrun as ([] & s1 & Hc & Hrun).
      assert (Hs1 : exists fq, fields s !! q = Some fq /\
                      s1 = set_fields (<[q := set_dirty false fq]> (fields s)) s).
      { unfold clearDirty in Hc.
        rewrite (bind_Ok _ _ s l s) in Hc by (unfold getLayout; now rewrite El).
        rewrite Eq in Hc. cbn [deref] in Hc.
        rewrite (bind_Ok _ _ s q s) in Hc by reflexivity.
        unfold modField in Hc. destruct (fields s !! q) as [fq|]; [|discriminate].
        injection Hc as <-. eauto. }
      destruct Hs1 as (fq & Hfq & ->).
      destruct (IH _ _ _ Hrun) as (Hlay & Hkeep & Hclean).
      cbn [layouts set_fields] in Hlay.
      assert (Hstep : forall fp, dirty_at s fp = Some false \/ fp = q ->
                dirty_at (set_fields (<[q := set_dirty false fq]> (fields s)) s)
                  fp = Some false).
      { intros fp Hfp. unfold dirty_at. cbn [fields set_fields].
        destruct (Nat.eq_dec q fp) as [-> | Nq].
        - rewrite list_lookup_insert_eq by (eapply lookup_lt_Some; eauto).
          reflexivity.
        - rewrite list_lookup_insert_ne by exact Nq.
          destruct Hfp as [Hfp | ->]; [exact Hfp | now elim Nq]. }
      split; [exact Hlay|]. split.
      * intros fp Hfp. apply Hkeep, Hstep. now left.
      * intros j fp [Hbefore Hat]. destruct j as [|j].
        -- rewrite Nat.add_0_r in Hat. unfold field_of_layout in Hat.
           rewrite El in Hat. cbn in Hat. rewrite Eq in Hat.
           injection Hat as <-. apply Hkeep, Hstep. now right.
        -- apply (Hclean j fp). split.
           ++ intros i Hi. destruct (Hbefore (S i)) as (q' & Hq'); [lia|].
              exists q'. unfold field_of_layout in *. cbn [layouts set_fields].
              now replace (S p + i)%nat with (p + S i)%nat by lia.
           ++ unfold field_of_layout in *. cbn [layouts set_fields].
              now replace (S p + j)%nat with (p + S j)%nat by lia.
    + (* the sentinel *)
      injection Hrun as <-. split; [reflexivity|]. split; [auto|].
      intros j fp [Hbefore Hat]. exfalso. destruct j as [|j].
      * rewrite Nat.add_0_r in Hat. unfold field_of_layout in Hat.
        rewrite El in Hat. cbn in Hat. congruence.
      * destruct (Hbefore 0%nat) as (q' & Hq'); [lia|].
        rewrite Nat.add_0_r in Hq'. unfold field_of_layout in Hq'.
        rewrite El in Hq'. cbn in Hq'. congruence.
Qed.

(** When [renderLayouts] returns, every field referenced by the sequence as
    the drawing pass has left it is clean. *)
Lemma renderLayouts_clears_final_sequence d p forceRender s b s' :
  renderLayouts d p forceRender s = Ok b s' ->
  forall j fp, referenced s' p j fp -> dirty_at s' fp = Some false.
Proof.
  destruct d as [|d]; [discriminate|]. cbn [renderLayouts].
  unfold renderLayoutsBody. intros Hrun j fp Href.
  apply bind_inv_Ok in Hrun. destruct Hrun as (mp & s0 & Hm & Hrun).
  injection Hm as <- <-.
  apply bind_inv_Ok in Hrun. destruct Hrun as (n & s0 & Hn & Hrun).
  injection Hn as <- <-.
  apply bind_inv_Ok in Hrun. destruct Hrun as (acc & s1 & _ & Hrun).
  apply bind_inv_Ok in Hrun. destruct Hrun as ([] & s2 & Hclear & Hrun).
  apply bind_inv_Ok in Hrun. destruct Hrun as ([] & s3 & Hlab & Hrun).
  injection Hrun as <- <-.
  destruct (clearDirty_pass _ _ _ _ Hclear) as (Hlay & _ & Hclean).
  assert (Hs3 : fields s3 = fields s2 /\ layouts s3 = layouts s2).
  { destruct (didChangeForceLabels acc); cbn [when] in Hlab.
    - apply bind_inv_Ok in Hlab. destruct Hlab as (fl & s4 & Hfl & Hlab).
      injection Hfl as <- <-. injection Hlab as <-. split; reflexivity.
    - injection Hlab as <-. split; reflexivity. }
  destruct Hs3 as [Hf3 Hl3].
  unfold dirty_at. rewrite Hf3. apply (Hclean j fp).
  apply (referenced_layouts s3); [congruence|].
  apply (referenced_layouts s3); [reflexivity | exact Href].
Qed.

(** C1, at the failing input.  During the first update of the example
    screen, [renderActiveScrollable] calls [renderLayouts (rows, false)] with
    the rows [heading], "Wheel", "Assist" and "Units".  Drawing the
    collapsed submenu "Assist" overwrites [rows[0]] and ends the array at
    [rows[1]], so the second pass clears [label] only: when the call returns
    the four fields it was given are still dirty, and they are still dirty
    when the update of the screen is over. *)
Theorem renderLayouts_rows_left_dirty :
  map (field_of_layout Examples.menu_rows_call) [0; 1; 2; 3; 4]%nat
  = [Some (Some heading); Some (Some 7%nat); Some (Some 8%nat);
     Some (Some 9%nat); Some None] /\
  (exists b s1,
      renderLayouts 2 rows false Examples.menu_rows_call = Ok b s1 /\
      map (dirty_at s1) [heading; 7; 8; 9]%nat
      = [Some true; Some true; Some true; Some true] /\
      map (field_of_layout s1) [0; 1]%nat
      = [Some (Some label_field); Some None]) /\
  (exists s2,
      panicScreenShow 3 (Some Examples.menu_screen) Examples.menu_state
      = Ok tt s2 /\
      map (dirty_at s2) [6; 7; 8; 9]%nat
      = [Some false; Some true; Some true; Some true]).
Proof.
  split; [vm_compute; reflexivity|]. split.
  - do 2 eexists. split; [vm_compute; reflexivity|].
    split; reflexivity.
  - eexists. split; [vm_compute; reflexivity|]. reflexivity.
Qed.

(** *** Sequences without scrollables

    The renderers of text, fills, meshes and editables do not touch the
    render loop's own data: the drawing pass over a sequence that shows no
    scrollable keeps every layout's field and every dirty flag, and the
    second pass then clears the flags of all the fields of the sequence. *)

Lemma keeps_refl s : keeps s s.
Proof. repeat split; auto. Qed.

Lemma keeps_trans s1 s2 s3 : keeps s1 s2 -> keeps s2 s3 -> keeps s1 s3.
Proof.
  intros (A1 & B1 & C1) (A2 & B2 & C2). repeat split; try congruence. auto.
Qed.

Lemma preserves_ret {A} (a : A) : preserves (ret a).
Proof. intros s a' s' [= <- <-]. apply keeps_refl. Qed.

Lemma preserves_gets {A} (f : state -> A) : preserves (gets f).
Proof. intros s a' s' [= <- <-]. apply keeps_refl. Qed.

Lemma preserves_fail {A} (o : outcome A) :
  (forall a s, o <> Ok a s) -> preserves (fun _ => o).
Proof. intros H s a s' E. now elim (H a s'). Qed.

Lemma preserves_bind {A B} (m : M A) (k : A -> M B) :
  preserves m -> (forall a, preserves (k a)) -> preserves (bind m k).
Proof.
  intros Hm Hk s b s' H. apply bind_inv_Ok in H.
  destruct H as (a & s1 & H1 & H2).
  eapply keeps_trans; [eapply Hm | eapply Hk]; eauto.
Qed.

Lemma preserves_when b (m : M unit) : preserves m -> preserves (when b m).
Proof. intros H. destruct b; [exact H | apply preserves_ret]. Qed.

Lemma preserves_assert b : preserves (c_assert b).
Proof.
  intros s a s'. unfold c_assert. destruct b; [|discriminate].
  intros [= <- <-]. apply keeps_refl.
Qed.

Lemma preserves_deref {A} (o : option A) : preserves (deref o).
Proof.
  destruct o; [apply preserves_ret | intros s a s'; discriminate].
Qed.

Lemma preserves_modify f :
  (forall s, fields (f s) = fields s /\ layouts (f s) = layouts s) ->
  preserves (modify f).
Proof.
  intros H s a s' [= <- <-]. destruct (H s) as [Hf Hl].
  unfold keeps, dirty_at. rewrite Hf, Hl. auto.
Qed.

Lemma preserves_emit op : preserves (emit op).
Proof. apply preserves_modify. intros s. split; reflexivity. Qed.

Lemma preserves_getField p : preserves (getField p).
Proof.
  intros s a s'. unfold getField. destruct (fields s !! p); [|discriminate].
  intros [= <- <-]. apply keeps_refl.
Qed.

Lemma preserves_getLayout p : preserves (getLayout p).
Proof.
  intros s a s'. unfold getLayout. destruct (layouts s !! p); [|discriminate].
  intros [= <- <-]. apply keeps_refl.
Qed.

Lemma preserves_modLayout p g :
  (forall l, lfield (g l) = lfield l) -> preserves (modLayout p g).
Proof.
  intros Hg s a s'. unfold modLayout.
  destruct (layouts s !! p) as [l|] eqn:El; [|discriminate].
  intros [= <- <-]. unfold keeps, dirty_at. cbn [layouts fields set_layouts].
  split; [|auto]. change (map lfield) with (fmap (M:=list) lfield).
  rewrite list_fmap_insert, Hg. apply list_insert_id.
  now rewrite list_lookup_fmap, El.
Qed.

Lemma preserves_modField p g :
  (forall f, variant (g f) = variant f /\
             (dirty f = true -> dirty (g f) = true)) ->
  preserves (modField p g).
Proof.
  intros Hg s a s'. unfold modField.
  destruct (fields s !! p) as [f|] eqn:Ef; [|discriminate].
  intros [= <- <-]. unfold keeps, dirty_at. cbn [layouts fields set_fields].
  split; [reflexivity|]. split.
  - apply (map_variant_insert _ p f); [exact Ef | apply Hg].
  - intros fp. destruct (Nat.eq_dec p fp) as [-> | N].
    + rewrite list_lookup_insert_eq by (eapply lookup_lt_Some; eauto).
      rewrite Ef. cbn. intros [= E]. f_equal. now apply Hg.
    + now rewrite list_lookup_insert_ne.
Qed.

Lemma preserves_load n a : preserves (load n a).
Proof.
  intros s v s'. unfold load. destruct (load_le n a (mem s)); [|discriminate].
  intros [= <- <-]. apply keeps_refl.
Qed.

Lemma preserves_store n a v : preserves (store n a v).
Proof.
  intros s u s'. unfold store. destruct (in_bounds n a (mem s)); [|discriminate].
  intros E. inversion E; subst. unfold keeps, dirty_at. cbn. auto.
Qed.

Create HintDb preserve.

(** Decompose a monadic term into the primitives above and the operations
    already shown to preserve. *)
Ltac preserve_step :=
  first
    [ solve [auto 1 with preserve nocore]
    | apply preserves_ret | apply preserves_gets | apply preserves_emit
    | apply preserves_getField | apply preserves_getLayout
    | apply preserves_deref | apply preserves_assert
    | apply preserves_load | apply preserves_store
    | apply preserves_fail; discriminate
    | apply preserves_when
    | apply preserves_bind; [|intros ?]
    | apply preserves_modLayout; intros ?; reflexivity
    | apply preserves_modField; intros ?; split; [reflexivity | cbn; auto]
    | apply preserves_modify; intros ?; split; reflexivity
    | match goal with
      | |- preserves (if ?b then _ else _) => destruct b
      | |- preserves (match ?x with _ => _ end) => destruct x
      end ].

Ltac preserve := repeat preserve_step.

Lemma preserves_renderDrawText p : preserves (renderDrawText p).
Proof. unfold renderDrawText, fillFrame, putString. preserve. Qed.

Lemma preserves_renderFill p : preserves (renderFill p).
Proof. unfold renderFill, fillFrame. preserve. Qed.

Lemma preserves_renderMesh p : preserves (renderMesh p).
Proof. unfold renderMesh, drawMesh. preserve. Qed.

Lemma preserves_getEditableNumber p : preserves (getEditableNumber p).
Proof. unfold getEditableNumber. preserve. Qed.

Lemma preserves_setEditableNumber p v : preserves (setEditableNumber p v).
Proof. unfold setEditableNumber. preserve. Qed.

#[local] Hint Resolve preserves_getEditableNumber preserves_setEditableNumber
  : preserve.

Lemma preserves_changeEditable b : preserves (changeEditable b).
Proof. unfold changeEditable, countEnumOptions. preserve. Qed.

Lemma preserves_formatUInt n num : preserves (formatUInt n num).
Proof. unfold formatUInt, undefined. preserve. Qed.

#[local] Hint Resolve preserves_changeEditable preserves_formatUInt : preserve.

Lemma preserves_renderEditable p : preserves (renderEditable p).
Proof. unfold renderEditable, fillFrame, putString, drawLine. preserve. Qed.

Lemma preserves_drawSelectionMarker p : preserves (drawSelectionMarker p).
Proof. unfold drawSelectionMarker, drawLine. preserve. Qed.

Lemma preserves_drawBorder p : preserves (drawBorder p).
Proof. unfold drawBorder, fillFrame, drawLine. preserve. Qed.

Lemma preserves_needsRender p : preserves (needsRender p).
Proof. unfold needsRender. preserve. Qed.

#[local] Hint Resolve preserves_renderDrawText preserves_renderFill
  preserves_renderMesh preserves_renderEditable preserves_drawSelectionMarker
  preserves_drawBorder preserves_needsRender : preserve.

Lemma keeps_field_of_layout s s' p :
  keeps s s' -> field_of_layout s' p = field_of_layout s p.
Proof.
  intros (Hl & _). unfold field_of_layout.
  rewrite <- !list_lookup_fmap. change (fmap lfield) with (map lfield).
  now rewrite Hl.
Qed.

Lemma keeps_variant s s' fp f' :
  keeps s s' -> fields s' !! fp = Some f' ->
  exists f, fields s !! fp = Some f /\ variant f = variant f'.
Proof.
  intros (_ & Hv & _) Hf'.
  assert (E : variant <$> (fields s !! fp) = Some (variant f')).
  { rewrite <- list_lookup_fmap. change (fmap variant) with (map variant).
    rewrite <- Hv. change (map variant) with (fmap (M:=list) variant).
    now rewrite list_lookup_fmap, Hf'. }
  destruct (fields s !! fp) as [f|]; [|discriminate].
  injection E as E. eauto.
Qed.

Lemma keeps_referenced s s' p j fp :
  keeps s s' -> referenced s' p j fp <-> referenced s p j fp.
Proof.
  intros H. unfold referenced.
  rewrite (keeps_field_of_layout s s' (p + j) H).
  split; intros [Hb Hat]; (split; [|exact Hat]); intros i Hi;
    destruct (Hb i Hi) as (q & Hq); exists q;
    [rewrite <- (keeps_field_of_layout s s' (p + i) H)
    | rewrite (keeps_field_of_layout s s' (p + i) H)]; exact Hq.
Qed.

Lemma flat_layout_keeps p s s' :
  keeps s s' -> flat_layout p s -> flat_layout p s'.
Proof.
  intros H Hflat fp f' Hat Hf'.
  rewrite (keeps_field_of_layout s s' p H) in Hat.
  destruct (keeps_variant s s' fp f' H Hf') as (f & Hf & <-).
  now apply (Hflat fp f).
Qed.

Lemma preserves_from_any (P : state -> Prop) {A} (m : M A) :
  preserves m -> preserves_from P m.
Proof. intros H s a s' _. apply H. Qed.

Lemma preserves_from_bind (P : state -> Prop) {A B} (m : M A) (k : A -> M B) :
  (forall s s', keeps s s' -> P s -> P s') ->
  preserves m -> (forall a, preserves_from P (k a)) ->
  preserves_from P (bind m k).
Proof.
  intros Hst Hm Hk s b s' HP H. apply bind_inv_Ok in H.
  destruct H as (a & s1 & H1 & H2). pose proof (Hm _ _ _ H1) as K1.
  eapply keeps_trans; [exact K1|]. eapply Hk; [|exact H2]. eauto.
Qed.

Section FlatRender.

Variable recur : lptr -> bool -> M bool.

Lemma preserves_renderers v p :
  v <> FieldScrollable -> preserves (renderers recur v p).
Proof.
  intros Hv. destruct v; cbn [renderers]; auto with preserve nocore.
  - now elim Hv.
  - unfold renderEnd. apply preserves_fail. discriminate.
Qed.

(** The dispatch to the renderer of the field that the layout shows. *)
Lemma preserves_dispatch p {A} (k : bool -> M A) :
  (forall drew, preserves (k drew)) ->
  preserves_from (flat_layout p)
    (let* l := getLayout p in
     let* fp := deref (lfield l) in
     let* f := getField fp in
     let* drew := renderers recur (variant f) p in
     k drew).
Proof.
  intros Hk s a s' Hflat Hrun.
  apply bind_inv_Ok in Hrun. destruct Hrun as (l & s1 & Hl & Hrun).
  unfold getLayout in Hl. destruct (layouts s !! p) as [l0|] eqn:El;
    [|discriminate].
  injection Hl as <- <-.
  apply bind_inv_Ok in Hrun. destruct Hrun as (fp & s1 & Hfp & Hrun).
  destruct (lfield l0) as [q|] eqn:Eq; [|discriminate].
  injection Hfp as <- <-.
  apply bind_inv_Ok in Hrun. destruct Hrun as (f & s1 & Hf & Hrun).
  unfold getField in Hf. destruct (fields s !! q) as [f0|] eqn:Ef;
    [|discriminate].
  injection Hf as <- <-.
  assert (Hv : variant f0 <> FieldScrollable).
  { apply (Hflat q f0); [|exact Ef]. unfold field_of_layout.
    rewrite El. cbn. now rewrite Eq. }
  revert Hrun. apply preserves_bind; [now apply preserves_renderers | exact Hk].
Qed.

Lemma preserves_renderOne forceRender mpressed p acc :
  preserves_from (flat_layout p) (renderOne recur forceRender mpressed p acc).
Proof.
  pose proof (flat_layout_keeps p) as Hst.
  unfold renderOne.
  apply preserves_from_bind; [exact Hst | preserve | intros _].
  apply preserves_from_bind; [exact Hst | preserve | intros l].
  apply preserves_from_bind; [exact Hst | preserve | intros fp].
  apply preserves_from_bind; [exact Hst | preserve | intros f].
  apply preserves_from_bind; [exact Hst | preserve | intros _].
  apply preserves_from_bind; [exact Hst | preserve | intros nr].
  destruct nr; [|apply preserves_from_any; preserve].
  apply preserves_from_bind; [exact Hst | preserve | intros _].
  apply preserves_from_bind; [exact Hst | preserve | intros _].
  apply preserves_from_bind; [exact Hst | preserve | intros _].
  apply preserves_from_bind; [exact Hst | preserve | intros _].
  apply preserves_from_bind; [exact Hst | preserve | intros _].
  apply preserves_dispatch. intros drew. preserve.
Qed.

(** The drawing pass over a sequence that shows no scrollable. *)
Lemma drawing_pass_keeps forceRender mpressed k : forall p acc s acc' s',
  forLayouts k (renderOne recur forceRender mpressed) p acc s = Ok acc' s' ->
  flat_sequence s p -> keeps s s'.
Proof.
  induction k as [|k IH]; intros p acc s acc' s' Hrun Hflat;
    cbn [forLayouts] in Hrun; [discriminate|].
  destruct (layouts s !! p) as [l|] eqn:El.
  2:{ unfold bind, getLayout in Hrun. now rewrite El in Hrun. }
  rewrite (bind_Ok _ _ s l s) in Hrun by (unfold getLayout; now rewrite El).
  destruct (lfield l) as [q|] eqn:Eq.
  2:{ injection Hrun as _ <-. apply keeps_refl. }
  apply bind_inv_Ok in Hrun. destruct Hrun as (acc1 & s1 & Hone & Hrun).
  assert (Hat : field_of_layout s p = Some (Some q)).
  { unfold field_of_layout. rewrite El. cbn. now rewrite Eq. }
  assert (K1 : keeps s s1).
  { apply (preserves_renderOne forceRender mpressed p acc s acc1 s1);
      [|exact Hone].
    intros fp f Hfp Hf. rewrite Hat in Hfp. injection Hfp as <-.
    destruct (Hflat 0%nat q) as (f' & Hf' & Hv).
    - split; [intros i Hi; lia | now rewrite Nat.add_0_r].
    - congruence. }
  eapply keeps_trans; [exact K1|]. apply (IH _ _ _ _ _ Hrun).
  intros j fp Href. apply (keeps_referenced s s1 _ _ _ K1) in Href.
  destruct (Hflat (S j) fp) as (f & Hf & Hv).
  - destruct Href as [Hb Hj]. split.
    + intros i Hi. destruct i as [|i].
      * exists q. now rewrite Nat.add_0_r.
      * destruct (Hb i) as (q' & Hq'); [lia|]. exists q'.
        now replace (p + S i)%nat with (S p + i)%nat by lia.
    + now replace (p + S j)%nat with (S p + j)%nat by lia.
  - destruct K1 as (_ & Hvar & _).
    assert (E : variant <$> (fields s1 !! fp) = Some (variant f)).
    { rewrite <- list_lookup_fmap. change (fmap variant) with (map variant).
      rewrite Hvar. change (map variant) with (fmap (M:=list) variant).
      now rewrite list_lookup_fmap, Hf. }
    destruct (fields s1 !! fp) as [f1|]; [|discriminate].
    injection E as E. exists f1. split; [reflexivity | congruence].
Qed.

End FlatRender.

(** For a sequence that shows no scrollable the property of C1 holds of
    every call that returns: the drawing pass clears no dirty flag, so that
    a dirty field is seen dirty at every layout that shows it, and on return
    every field of the sequence is clean. *)
Lemma renderLayouts_flat_sequence_clean d p forceRender s b s' :
  renderLayouts d p forceRender s = Ok b s' ->
  flat_sequence s p ->
  (exists s1 acc,
      forLayouts (S (length (layouts s)))
        (renderOne (renderLayouts (pred d)) forceRender (m_state s)) p
        {| didDraw := false; maxy := 0; didChangeForceLabels := false |} s
      = Ok acc s1 /\
      keeps s s1) /\
  forall j fp, referenced s p j fp -> dirty_at s' fp = Some false.
Proof.
  destruct d as [|d]; [discriminate|]. cbn [renderLayouts pred].
  unfold renderLayoutsBody. intros Hrun Hflat.
  rewrite (bind_Ok _ _ s (m_state s) s) in Hrun by reflexivity.
  rewrite (bind_Ok _ _ s (length (layouts s)) s) in Hrun by reflexivity.
  apply bind_inv_Ok in Hrun. destruct Hrun as (acc & s1 & Hdraw & Hrun).
  pose proof (drawing_pass_keeps _ _ _ _ _ _ _ _ _ Hdraw Hflat) as K1.
  split; [exists s1, acc; now split|].
  intros j fp Href.
  refine (renderLayouts_clears_final_sequence (S d) p forceRender s b s'
            _ j fp _).
  - cbn [renderLayouts]. unfold renderLayoutsBody.
    rewrite (bind_Ok _ _ s (m_state s) s) by reflexivity.
    rewrite (bind_Ok _ _ s (length (layouts s)) s) by reflexivity.
    now rewrite (bind_Ok _ _ _ _ _ Hdraw).
  - (* the layouts of the sequence are those of the start *)
    apply bind_inv_Ok in Hrun. destruct Hrun as ([] & s2 & Hclear & Hrun).
    apply bind_inv_Ok in Hrun. destruct Hrun as ([] & s3 & Hlab & Hrun).
    injection Hrun as _ <-.
    destruct (clearDirty_pass _ _ _ _ Hclear) as (Hlay & _ & _).
    assert (Hl3 : layouts s3 = layouts s2).
    { destruct (didChangeForceLabels acc); cbn [when] in Hlab.
      - apply bind_inv_Ok in Hlab. destruct Hlab as (fl & s4 & Hfl & Hlab).
        injection Hfl as <- <-. injection Hlab as <-. reflexivity.
      - injection Hlab as <-. reflexivity. }
    apply (referenced_layouts s1); [congruence|].
    now apply (keeps_referenced s s1).
Qed.

(** The text field of [twice_shown] is drawn at both of its layouts, the
    second one below the first, and is clean afterwards. *)
Example renderLayouts_twice_shown :
  exists s',
    renderLayouts 1 5%nat false Examples.twice_shown = Ok true s' /\
    dirty_at s' 6%nat = Some false /\
    display s'
    = [UG_FontSelect FONT_5X12; UG_SetForecolor C_WHITE;
       UG_FillFrame 0 0 63 11 C_BLACK; UG_SetBackcolor C_TRANSPARENT;
       UG_PutString 27 0 "Hi";
       UG_FontSelect FONT_5X12; UG_SetForecolor C_BLACK;
       UG_FillFrame 0 12 63 23 C_WHITE; UG_SetBackcolor C_TRANSPARENT;
       UG_PutString 27 12 "Hi"].
Proof.
  eexists. split; [vm_compute; reflexivity|]. split; reflexivity.
Qed.

Lemma twice_shown_flat : flat_sequence Examples.twice_shown 5%nat.
Proof.
  intros j fp [Hb Hat].
  destruct j as [|[|[|j]]].
  - injection Hat as <-. eexists. split; [reflexivity | discriminate].
  - injection Hat as <-. eexists. split; [reflexivity | discriminate].
  - discriminate.
  - destruct (Hb 2%nat) as (q & Hq); [lia | discriminate].
Qed.

(** The same through the general statement. *)
Example renderLayouts_twice_shown_clean :
  exists s',
    renderLayouts 1 5%nat false Examples.twice_shown = Ok true s' /\
    dirty_at s' 6%nat = Some false.
Proof.
  destruct renderLayouts_twice_shown as (s' & Hrun & _).
  exists s'. split; [exact Hrun|].
  destruct (renderLayouts_flat_sequence_clean _ _ _ _ _ _ Hrun twice_shown_flat)
    as [_ Hclean].
  apply (Hclean 1%nat). split.
  - intros i Hi. assert (i = 0%nat) as -> by lia. eexists. reflexivity.
  - reflexivity.
Qed.

(** * Further properties of the screen layer *)

(** ** Counting entries and options *)

Lemma FieldVariant_eqb_eq a b : FieldVariant_eqb a b = true <-> a = b.
Proof. destruct a, b; cbn; split; intros H; try reflexivity; discriminate. Qed.

Lemma countFrom_entries (fs : list Field) : forall n k e,
  (n < k)%nat ->
  (forall i, (i < n)%nat ->
             exists v, variant <$> (fs !! (e + i)%nat) = Some v /\ v <> FieldEnd) ->
  variant <$> (fs !! (e + n)%nat) = Some FieldEnd ->
  countFrom k fs e = Some (Z.of_nat n).
Proof.
  induction n as [|n IH]; intros k e Hk Hbefore Hend;
    (destruct k as [|k]; [lia|]); cbn [countFrom].
  - rewrite Nat.add_0_r in Hend.
    destruct (fs !! e) as [f|]; [|discriminate]. injection Hend as ->.
    reflexivity.
  - destruct (Hbefore 0%nat) as (v & Hv & Hne); [lia|].
    rewrite Nat.add_0_r in Hv.
    destruct (fs !! e) as [f|]; [|discriminate]. injection Hv as <-.
    destruct (FieldVariant_eqb (variant f) FieldEnd) eqn:E.
    { apply FieldVariant_eqb_eq in E. now elim Hne. }
    rewrite (IH k (S e)).
    + f_equal. lia.
    + lia.
    + intros i Hi. destruct (Hbefore (S i)) as (v & Hv & Hv'); [lia|].
      exists v. now replace (S e + i)%nat with (e + S i)%nat by lia.
    + now replace (S e + n)%nat with (e + S n)%nat by lia.
Qed.

Lemma countFrom_no_end (fs : list Field) : forall k e,
  (forall i f, fs !! (e + i)%nat = Some f -> variant f <> FieldEnd) ->
  countFrom k fs e = None.
Proof.
  induction k as [|k IH]; intros e Hno; cbn [countFrom]; [reflexivity|].
  destruct (fs !! e) as [f|] eqn:Ef; [|reflexivity].
  destruct (FieldVariant_eqb (variant f) FieldEnd) eqn:E.
  { apply FieldVariant_eqb_eq in E. elim (Hno 0%nat f); [|exact E].
    now rewrite Nat.add_0_r. }
  rewrite IH; [reflexivity|].
  intros i g Hg. apply (Hno (S i) g).
  now replace (e + S i)%nat with (S e + i)%nat by lia.
Qed.

(** X1.  [countEntries] returns the number of entries that precede the End
    marker of the scrollable's array; it returns 0 for a null array; and
    when no End marker follows in the field memory it does not return a
    count: the scan runs out of the memory. *)
Theorem countEntries_counts_to_End (s : state) (sp : fptr) (f : Field) :
  fields s !! sp = Some f ->
  (entries (scrollable f) = None -> countEntries sp s = Ok 0 s) /\
  (forall e n,
      entries (scrollable f) = Some e -> entries_end s e n ->
      countEntries sp s = Ok (Z.of_nat n) s) /\
  (forall e,
      entries (scrollable f) = Some e ->
      (forall i, variant_at s (e + i)%nat <> Some FieldEnd) ->
      countEntries sp s = Undefined).
Proof.
  intros Hf. unfold countEntries.
  rewrite (bind_Ok _ _ _ _ _ (getField_Ok _ _ _ Hf)).
  split; [intros ->; reflexivity|]. split.
  - intros e n -> [Hbefore Hend].
    rewrite (bind_Ok _ _ s (fields s) s) by reflexivity.
    rewrite (countFrom_entries (fields s) n); [reflexivity| |exact Hbefore|exact Hend].
    unfold variant_at in Hend.
    destruct (fields s !! (e + n)%nat) eqn:E; [|discriminate].
    apply lookup_lt_Some in E. lia.
  - intros e -> Hno.
    rewrite (bind_Ok _ _ s (fields s) s) by reflexivity.
    rewrite countFrom_no_end; [reflexivity|].
    intros i g Hg Hv. apply (Hno i). unfold variant_at. rewrite Hg. cbn.
    now rewrite Hv.
Qed.

(** The menu "Trip" has six entries before its End marker. *)
Lemma countEntries_counts_to_End_witness :
  countEntries 6%nat Examples.six_menu = Ok 6 Examples.six_menu.
Proof.
  destruct (countEntries_counts_to_End Examples.six_menu 6%nat
              (set_dirty true (set_blink true (FIELD_SCROLLABLE "Trip" 7)))
              eq_refl) as (_ & Hcount & _).
  apply (Hcount 7%nat 6%nat eq_refl). split; [|reflexivity].
  intros i Hi. exists FieldEditable. split; [|discriminate].
  do 6 (destruct i as [|i]; [reflexivity|]). lia.
Defined.

Lemma count_to_null_prefix (l : list string) (rest : list (option string)) :
  count_to_null (map Some l ++ None :: rest) = Some (Z.of_nat (length l)).
Proof.
  induction l as [|x l IH]; [reflexivity|].
  cbn [map app count_to_null length]. rewrite IH. f_equal. lia.
Qed.

Lemma count_to_null_unterminated (l : list string) :
  count_to_null (map Some l) = None.
Proof.
  induction l as [|x l IH]; [reflexivity|].
  cbn [map count_to_null]. now rewrite IH.
Qed.

(** Every index below the count names a string of the array. *)
Lemma count_to_null_lookup (opts : list (option string)) : forall n i,
  count_to_null opts = Some n -> 0 <= i < n ->
  exists str, opts !! Z.to_nat i = Some (Some str).
Proof.
  induction opts as [|o opts IH]; intros n i Hn Hi; cbn [count_to_null] in Hn.
  - discriminate.
  - destruct o as [str|]; [|injection Hn as <-; lia].
    destruct (count_to_null opts) as [m|] eqn:Em; [|discriminate].
    injection Hn as <-.
    destruct (Z.eq_dec i 0) as [-> | Ni].
    + exists str. reflexivity.
    + destruct (IH m (i - 1) eq_refl) as (str' & Hs); [lia|].
      exists str'. replace (Z.to_nat i) with (S (Z.to_nat (i - 1))) by lia.
      exact Hs.
Qed.

(** X2.  [countEnumOptions] returns the number of strings that precede the
    first NULL of the options array, whatever follows that NULL; for an
    array without a NULL entry it does not return a count. *)
Theorem countEnumOptions_counts_to_NULL (s : state) (p : fptr) (f : Field)
    (l : list string) (rest : list (option string)) :
  fields s !! p = Some f ->
  (options (editEnum (editable f)) = map Some l ++ None :: rest ->
   countEnumOptions p s = Ok (Z.of_nat (length l)) s) /\
  (options (editEnum (editable f)) = map Some l ->
   countEnumOptions p s = Undefined).
Proof.
  intros Hf. unfold countEnumOptions.
  rewrite (bind_Ok _ _ _ _ _ (getField_Ok _ _ _ Hf)).
  split; intros ->.
  - now rewrite count_to_null_prefix.
  - now rewrite count_to_null_unterminated.
Qed.

(** The enum "Assist" has the three options Off, Low and High. *)
Lemma countEnumOptions_counts_to_NULL_witness :
  countEnumOptions 6%nat Examples.assist_edit = Ok 3 Examples.assist_edit.
Proof.
  exact (proj1 (countEnumOptions_counts_to_NULL Examples.assist_edit 6%nat
                  (FIELD_EDITABLE_ENUM "Assist" 0 1
                     ["Off"%string; "Low"%string; "High"%string])
                  ["Off"%string; "Low"%string; "High"%string] [] eq_refl)
           eq_refl).
Defined.

(** ** The range of an edited value *)

Lemma to_int32_range z : -2147483648 <= to_int32 z < 2147483648.
Proof.
  unfold to_int32, wrap_s. change (2 ^ 32) with 4294967296.
  change (2 ^ (32 - 1)) with 2147483648.
  pose proof (Z.mod_pos_bound (z + 2147483648) 4294967296 ltac:(lia)). lia.
Qed.

(** An [int] whose unsigned conversion is below 2^31 is that number. *)
Lemma to_uint32_of_int v :
  -2147483648 <= v < 2147483648 -> to_uint32 v < 2147483648 ->
  to_uint32 v = v.
Proof.
  intros Hv Hu. unfold to_uint32, wrap_u in *.
  change (2 ^ 32) with 4294967296 in *.
  destruct (Z.lt_ge_cases v 0) as [Hneg | Hpos].
  - rewrite <- (Z.mod_unique v 4294967296 (-1) (v + 4294967296)) in Hu; lia.
  - apply Z.mod_small. lia.
Qed.

(** Whatever the value and the step, [changeUInt] gives a value of the
    configured range. *)
Lemma changeUInt_range (n : NumberData) (increment : bool) (v : Z) :
  0 <= min_value n <= max_value n -> max_value n < 2147483648 ->
  min_value n <= changeUInt n increment v <= max_value n.
Proof.
  intros Hmin Hmax. unfold changeUInt.
  set (step := if to_int32 (inc_step n) =? 0 then 1 else to_int32 (inc_step n)).
  set (v1 := to_int32 (v + to_int32 (step * (if increment then 1 else -1)))).
  pose proof (to_int32_range
                (v + to_int32 (step * (if increment then 1 else -1)))) as Hr.
  fold v1 in Hr.
  destruct (Z.ltb_spec (to_uint32 v1) (min_value n)).
  - rewrite to_int32_small by lia. lia.
  - destruct (Z.ltb_spec (max_value n) (to_uint32 v1)).
    + rewrite to_int32_small by lia. lia.
    + rewrite <- (to_uint32_of_int v1) by lia. lia.
Qed.

(** Whatever the value, [changeEnum] gives an index of the [n] options. *)
Lemma changeEnum_range (n : Z) (increment : bool) (v : Z) :
  1 <= n < 2147483648 -> 0 <= changeEnum n increment v < n.
Proof.
  intros Hn. unfold changeEnum.
  set (v1 := to_int32 (v + (if increment then 1 else -1))).
  destruct (Z.ltb_spec v1 0).
  - rewrite to_int32_small by lia. lia.
  - destruct (Z.leb_spec n v1); lia.
Qed.

(** [getEditableNumber] returns for every cell that lies in memory. *)
Lemma getEditableNumber_returns s p f (sz : nat) :
  fields s !! p = Some f ->
  esize (editable f) = Z.of_nat sz -> (sz = 1 \/ sz = 2 \/ sz = 4)%nat ->
  (target (editable f) + sz <= length (mem s))%nat ->
  exists v, getEditableNumber p s = Ok v s.
Proof.
  intros Hf Hsz Hn Hb.
  destruct (load_Ok s sz (target (editable f)) Hb) as (u & _ & _ & Hl).
  unfold getEditableNumber.
  rewrite (bind_Ok _ _ _ _ _ (getField_Ok _ _ _ Hf)). rewrite Hsz.
  destruct Hn as [-> | [-> | ->]]; red_size.
  - eauto.
  - rewrite (bind_Ok _ _ _ _ _ Hl). eexists. reflexivity.
  - rewrite (bind_Ok _ _ _ _ _ Hl). eexists. reflexivity.
Qed.

(** X3.  Whatever a numeric editable's cell holds and whatever its step,
    one [changeEditable] in either direction returns and leaves in the cell
    a value of the configured range [min_value .. max_value], provided that
    range is in order and fits the cell and an [int]; no field changes. *)
Theorem changeEditable_uint_within_range (s : state) (p : fptr) (f : Field)
    (sz : nat) (increment : bool) :
  curActiveEditable s = Some p ->
  fields s !! p = Some f ->
  typ (editable f) = EditUInt ->
  esize (editable f) = Z.of_nat sz -> (sz = 1 \/ sz = 2 \/ sz = 4)%nat ->
  (target (editable f) + sz <= length (mem s))%nat ->
  0 <= min_value (number (editable f)) <= max_value (number (editable f)) ->
  max_value (number (editable f)) < 2147483648 ->
  max_value (number (editable f)) < 256 ^ Z.of_nat sz ->
  exists s' u,
    changeEditable increment s = Ok tt s' /\
    fields s' = fields s /\
    cell s' sz (target (editable f)) = Some u /\
    min_value (number (editable f)) <= u <= max_value (number (editable f)).
Proof.
  intros Hcae Hf Htyp Hsz Hn Hb Hmin Hmax Hfit.
  destruct (getEditableNumber_returns s p f sz Hf Hsz Hn Hb) as (v & Hget).
  pose proof (changeUInt_range (number (editable f)) increment v Hmin Hmax)
    as Hr.
  unfold changeEditable.
  rewrite (bind_Ok _ _ s (Some p) s) by (unfold gets; now rewrite Hcae).
  rewrite (bind_Ok _ _ s p s) by reflexivity.
  rewrite (bind_Ok _ _ _ _ _ Hget).
  rewrite (bind_Ok _ _ _ _ _ (getField_Ok _ _ _ Hf)). rewrite Htyp.
  rewrite (setEditableNumber_Ok s p f _ sz Hf Hsz Hn Hb).
  eexists. eexists. split; [reflexivity|]. split; [reflexivity|].
  split; [|exact Hr].
  unfold cell. cbn [mem set_mem]. rewrite load_store_le by exact Hb.
  rewrite Z.mod_mod by (apply Z.pow_nonzero; lia).
  rewrite Z.mod_small by lia. reflexivity.
Qed.

(** A decrement of "Level" at 0 leaves a value from 0 to 9 in its cell. *)
Lemma changeEditable_uint_within_range_witness :
  exists s' u,
    changeEditable false (Examples.level_edit Byte.x00) = Ok tt s' /\
    cell s' 1 0 = Some u /\ 0 <= u <= 9.
Proof.
  destruct (changeEditable_uint_within_range (Examples.level_edit Byte.x00)
              6%nat (FIELD_EDITABLE_UINT "Level" 0 1 EmptyString 0 9 0)
              1 false)
    as (s' & u & Hrun & _ & Hcell & Hr).
  - reflexivity.
  - reflexivity.
  - reflexivity.
  - reflexivity.
  - left. reflexivity.
  - cbn. lia.
  - cbn. lia.
  - cbn. lia.
  - cbn. lia.
  - exists s', u. split; [exact Hrun|]. split; [exact Hcell | exact Hr].
Defined.

(** X4.  Whatever an enum editable's cell holds, one [changeEditable] in
    either direction returns and leaves in the cell the index of one of the
    options, so that the string to show exists; the option count must be at
    least 1 and fit the cell and an [int]. *)
Theorem changeEditable_enum_valid_index (s : state) (p : fptr) (f : Field)
    (sz : nat) (n : Z) (increment : bool) :
  curActiveEditable s = Some p ->
  fields s !! p = Some f ->
  typ (editable f) = EditEnum ->
  esize (editable f) = Z.of_nat sz -> (sz = 1 \/ sz = 2 \/ sz = 4)%nat ->
  (target (editable f) + sz <= length (mem s))%nat ->
  count_to_null (options (editEnum (editable f))) = Some n ->
  1 <= n < 2147483648 -> n <= 256 ^ Z.of_nat sz ->
  exists s' i str,
    changeEditable increment s = Ok tt s' /\
    fields s' = fields s /\
    cell s' sz (target (editable f)) = Some i /\
    0 <= i < n /\
    options (editEnum (editable f)) !! Z.to_nat i = Some (Some str).
Proof.
  intros Hcae Hf Htyp Hsz Hn Hb Hcnt Hrange Hfit.
  destruct (getEditableNumber_returns s p f sz Hf Hsz Hn Hb) as (v & Hget).
  pose proof (changeEnum_range n increment v Hrange) as Hr.
  destruct (count_to_null_lookup _ n _ Hcnt Hr) as (str & Hstr).
  unfold changeEditable.
  rewrite (bind_Ok _ _ s (Some p) s) by (unfold gets; now rewrite Hcae).
  rewrite (bind_Ok _ _ s p s) by reflexivity.
  rewrite (bind_Ok _ _ _ _ _ Hget).
  rewrite (bind_Ok _ _ _ _ _ (getField_Ok _ _ _ Hf)). rewrite Htyp.
  rewrite (bind_Ok _ _ s n s).
  2:{ unfold countEnumOptions.
      rewrite (bind_Ok _ _ _ _ _ (getField_Ok _ _ _ Hf)).
      now rewrite Hcnt. }
  rewrite (setEditableNumber_Ok s p f _ sz Hf Hsz Hn Hb).
  exists (set_mem
            (store_le sz (target (editable f))
               (changeEnum n increment v mod 256 ^ Z.of_nat sz) (mem s)) s),
    (changeEnum n increment v), str.
  split; [reflexivity|]. split; [reflexivity|].
  split; [|split; [exact Hr | exact Hstr]].
  unfold cell. cbn [mem set_mem]. rewrite load_store_le by exact Hb.
  rewrite Z.mod_mod by (apply Z.pow_nonzero; lia).
  rewrite Z.mod_small by lia. reflexivity.
Qed.

(** A decrement of the enum "Assist" leaves the index of an option. *)
Lemma changeEditable_enum_valid_index_witness :
  exists s' i,
    changeEditable false Examples.assist_edit = Ok tt s' /\
    cell s' 1 0 = Some i /\ 0 <= i < 3.
Proof.
  destruct (changeEditable_enum_valid_index Examples.assist_edit 6%nat
              (FIELD_EDITABLE_ENUM "Assist" 0 1
                 ["Off"%string; "Low"%string; "High"%string])
              1 3 false)
    as (s' & i & str & Hrun & _ & Hcell & Hr & _).
  - reflexivity.
  - reflexivity.
  - reflexivity.
  - reflexivity.
  - left. reflexivity.
  - cbn. lia.
  - reflexivity.
  - lia.
  - cbn. lia.
  - exists s', i. split; [exact Hrun|]. split; [exact Hcell | exact Hr].
Defined.

(** ** Presses while an editable is active *)

Lemma dirty_at_insert (s : state) (p q : fptr) (g : Field) (fs : list Field) :
  (p < length fs)%nat ->
  dirty <$> (<[p := g]> fs !! q)
  = if Nat.eqb p q then Some (dirty g) else dirty <$> (fs !! q).
Proof.
  intros Hp. destruct (Nat.eqb_spec p q) as [<- | N].
  - now rewrite list_lookup_insert_eq.
  - now rewrite list_lookup_insert_ne.
Qed.

(** Marking the edited field and, inside a scrollable, the root of the
    stack: the tail of [onPressEditable]. *)
Lemma mark_edited s p f :
  stack_ok s -> fields s !! p = Some f ->
  exists s',
    (let* q := deref (Some p) in
     do modField q (set_dirty true) then
     let* sc := getActiveScrollable in
     when (negb (is_null sc))
       (let* root := rootScrollable in modField root (set_dirty true))) s
    = Ok tt s' /\
    same_rest s s' /\
    map variant (fields s') = map variant (fields s) /\
    dirty_at s' p = Some true /\
    (0 < scrollableStackPtr s ->
     exists root, scrollableStack s !! 0%nat = Some (Some root) /\
                  dirty_at s' root = Some true).
Proof.
  intros Hst Hf.
  assert (Hlt : (p < length (fields s))%nat) by (eapply lookup_lt_Some; eauto).
  rewrite (bind_Ok _ _ s p s) by reflexivity.
  rewrite (bind_Ok _ _ _ _ _ (modField_Ok s p f _ Hf)).
  set (s1 := set_fields (<[p := set_dirty true f]> (fields s)) s).
  assert (Hf1 : fields s1 !! p = Some (set_dirty true f)).
  { subst s1. cbn. now apply list_lookup_insert_eq. }
  assert (Hv1 : map variant (fields s1) = map variant (fields s)).
  { subst s1. cbn. now apply (map_variant_insert _ p f). }
  destruct (Z.eq_dec (scrollableStackPtr s) 0) as [E0 | N0].
  - rewrite (bind_Ok _ _ s1 None s1)
      by (apply getActiveScrollable_empty; exact E0).
    exists s1. split; [reflexivity|]. split; [reflexivity|].
    split; [exact Hv1|]. split; [unfold dirty_at; now rewrite Hf1|].
    intros Hpos. lia.
  - assert (Hpos : 0 < scrollableStackPtr s) by (destruct Hst as (_ & ? & _); lia).
    destruct (stack_top s Hst Hpos) as (top & Htop & _).
    rewrite (bind_Ok _ _ s1 (Some top) s1)
      by (apply (getActiveScrollable_frame s); [reflexivity | exact Htop]).
    cbn [is_null negb when].
    destruct (active_root s top Hst Htop) as (root & fr & Hroot & Hfr).
    assert (Hfr1 : exists fr1, fields s1 !! root = Some fr1).
    { apply lookup_lt_is_Some_2. subst s1. cbn. rewrite length_insert.
      eapply lookup_lt_Some; eauto. }
    destruct Hfr1 as (fr1 & Hfr1).
    rewrite (bind_Ok _ _ _ _ _ (rootScrollable_Ok s1 root Hroot)).
    rewrite (modField_Ok s1 root fr1 _ Hfr1).
    eexists. split; [reflexivity|]. split; [reflexivity|].
    cbn [fields set_fields].
    split; [rewrite (map_variant_insert _ root fr1) by (auto; reflexivity);
            exact Hv1|].
    assert (Hlr : (root < length (fields s1))%nat)
      by (eapply lookup_lt_Some; eauto).
    split.
    + unfold dirty_at. cbn [fields set_fields].
      rewrite (dirty_at_insert s root p _ _ Hlr).
      destruct (Nat.eqb root p); [reflexivity | now rewrite Hf1].
    + intros _. exists root. split; [exact Hroot|].
      unfold dirty_at. cbn [fields set_fields].
      rewrite (dirty_at_insert s root root _ _ Hlr).
      now rewrite Nat.eqb_refl.
Qed.

(** X5.  While an editable is active, [onPressEditable] claims exactly the
    presses that hold up, down or on/off.  A claimed press marks the edited
    field dirty, and inside a scrollable the root of the stack too; on/off
    ends the editing, up and down keep it.  No press changes the stored
    value, the stack or the variant of a field, and an unclaimed press
    changes nothing at all. *)
Theorem onPressEditable_claims_and_marks (s : state) (p : fptr) (f : Field)
    (ev : buttons_events_t) :
  stack_ok s ->
  curActiveEditable s = Some p ->
  fields s !! p = Some f ->
  exists s',
    onPressEditable ev s
    = Ok (UP_CLICK ev || DOWN_CLICK ev || ONOFF_CLICK ev) s' /\
    mem s' = mem s /\
    curActiveEditable s' = (if ONOFF_CLICK ev then None else Some p) /\
    scrollableStackPtr s' = scrollableStackPtr s /\
    scrollableStack s' = scrollableStack s /\
    map variant (fields s') = map variant (fields s) /\
    (UP_CLICK ev || DOWN_CLICK ev || ONOFF_CLICK ev = false -> s' = s) /\
    (UP_CLICK ev || DOWN_CLICK ev || ONOFF_CLICK ev = true ->
     dirty_at s' p = Some true /\
     (0 < scrollableStackPtr s ->
      exists root, scrollableStack s !! 0%nat = Some (Some root) /\
                   dirty_at s' root = Some true)).
Proof.
  intros Hst Hcae Hf. unfold onPressEditable.
  rewrite (bind_Ok _ _ s (Some p) s) by (unfold gets; now rewrite Hcae).
  destruct (ONOFF_CLICK ev) eqn:Eo.
  - (* on/off: the editing ends *)
    set (s1 := set_curActiveEditable None s).
    rewrite (bind_Ok _ _ s true s1) by reflexivity.
    assert (Hst1 : stack_ok s1) by exact Hst.
    destruct (mark_edited s1 p f Hst1 Hf) as (s2 & Hrun & Hrest & Hv & Hd & Hroot).
    cbn [when]. rewrite (bind_Ok _ _ _ _ _ Hrun).
    rewrite !orb_true_r.
    exists s2. split; [reflexivity|].
    destruct (same_rest_stack _ _ Hrest) as [Hstk Hsp].
    split; [apply (f_equal mem) in Hrest; cbn in Hrest; congruence|].
    split; [apply (f_equal curActiveEditable) in Hrest; cbn in Hrest;
            congruence|].
    split; [exact Hsp|]. split; [exact Hstk|]. split; [exact Hv|].
    split; [discriminate|]. intros _. split; [exact Hd | exact Hroot].
  - rewrite (bind_Ok _ _ s (if DOWN_CLICK ev then true
                            else if UP_CLICK ev then true else false) s)
      by reflexivity.
    rewrite orb_false_r.
    replace (if DOWN_CLICK ev then true
             else if UP_CLICK ev then true else false)
      with (UP_CLICK ev || DOWN_CLICK ev)
      by (destruct (UP_CLICK ev), (DOWN_CLICK ev); reflexivity).
    destruct (UP_CLICK ev || DOWN_CLICK ev) eqn:Eh.
    + destruct (mark_edited s p f Hst Hf) as (s2 & Hrun & Hrest & Hv & Hd & Hroot).
      cbn [when]. rewrite (bind_Ok _ _ _ _ _ Hrun).
      exists s2. split; [reflexivity|].
      destruct (same_rest_stack _ _ Hrest) as [Hstk Hsp].
      split; [apply (f_equal mem) in Hrest; cbn in Hrest; congruence|].
      split; [apply (f_equal curActiveEditable) in Hrest; cbn in Hrest;
              congruence|].
      split; [exact Hsp|]. split; [exact Hstk|]. split; [exact Hv|].
      split; [discriminate|]. intros _. split; [exact Hd | exact Hroot].
    + exists s. cbn [when]. split; [reflexivity|].
      split; [reflexivity|]. split; [exact Hcae|].
      split; [reflexivity|]. split; [reflexivity|]. split; [reflexivity|].
      split; [reflexivity | discriminate].
Qed.

(** On/off while "Level" is edited ends the editing and keeps its cell. *)
Lemma onPressEditable_claims_and_marks_witness :
  exists s',
    onPressEditable press_exit (Examples.level_edit Byte.x05) = Ok true s' /\
    mem s' = [Byte.x05] /\ curActiveEditable s' = None.
Proof.
  destruct (onPressEditable_claims_and_marks (Examples.level_edit Byte.x05)
              6%nat (FIELD_EDITABLE_UINT "Level" 0 1 EmptyString 0 9 0)
              press_exit)
    as (s' & Hrun & Hmem & Hcae & _).
  - split; [reflexivity|]. split; [vm_compute; split; discriminate|].
    intros i Hi. vm_compute in Hi. lia.
  - reflexivity.
  - reflexivity.
  - exists s'. split; [exact Hrun|]. split; [exact Hmem | exact Hcae].
Defined.

(** ** Presses in the active scrollable *)

Lemma getActiveScrollable_stack s s' a :
  scrollableStack s' = scrollableStack s ->
  scrollableStackPtr s' = scrollableStackPtr s ->
  getActiveScrollable s = Ok a s -> getActiveScrollable s' = Ok a s'.
Proof.
  intros Hst Hsp. unfold getActiveScrollable, bind, gets. cbv beta iota.
  rewrite Hsp.
  destruct (scrollableStackPtr s =? 0); [intros [= <-]; reflexivity|].
  destruct (scrollableStackPtr s <? 0); [discriminate|].
  cbv beta iota. rewrite Hst.
  destruct (scrollableStack s !! _) as [o|]; cbn; [|discriminate].
  unfold ret. intros [= <-]. reflexivity.
Qed.

Lemma getActiveScrollable_inv s a s' :
  getActiveScrollable s = Ok a s' ->
  s' = s /\
  (scrollableStackPtr s = 0 /\ a = None \/
   0 < scrollableStackPtr s /\
   scrollableStack s !! Z.to_nat (scrollableStackPtr s - 1) = Some a).
Proof.
  unfold getActiveScrollable, bind, gets. cbv beta iota.
  destruct (Z.eqb_spec (scrollableStackPtr s) 0) as [E | N].
  - intros [= <- <-]. split; [reflexivity|]. left. split; [exact E | reflexivity].
  - destruct (Z.ltb_spec (scrollableStackPtr s) 0) as [L | G]; [discriminate|].
    cbv beta iota.
    destruct (scrollableStack s !! _) as [o|] eqn:Eo; cbn; [|discriminate].
    unfold ret. intros [= <- <-]. split; [reflexivity|]. right.
    split; [lia | reflexivity].
Qed.

(** X6.  A press of up in the active scrollable is handled without a look at
    the entries: [selected] goes down by one and stops at 0, it never wraps;
    [first] follows it down so that the selected entry stays in the window.
    Stored values, the active editable and the stack are as before. *)
Theorem up_press_stops_at_first_entry (s : state) (sp : fptr) (f : Field) :
  stack_ok s ->
  getActiveScrollable s = Ok (Some sp) s ->
  fields s !! sp = Some f ->
  0 <= selected (scrollable f) <= 255 ->
  exists s' f',
    onPressScrollable press_up s = Ok true s' /\
    fields s' !! sp = Some f' /\
    selected (scrollable f') = Z.max (selected (scrollable f) - 1) 0 /\
    first (scrollable f')
    = Z.min (first (scrollable f)) (selected (scrollable f')) /\
    entries (scrollable f') = entries (scrollable f) /\
    mem s' = mem s /\ curActiveEditable s' = curActiveEditable s /\
    scrollableStackPtr s' = scrollableStackPtr s /\
    scrollableStack s' = scrollableStack s.
Proof.
  intros Hst Ha Hf Hsel. unfold onPressScrollable.
  rewrite (bind_Ok _ _ _ _ _ Ha).
  cbn [press_up UP_CLICK DOWN_CLICK M_CLICK ONOFF_CLICK].
  destruct (scrollUp_moved s sp f Hst Ha Hf)
    as (s1 & Hrun & (f1 & Hf1 & Hw & He & _ & Hrest)).
  rewrite (bind_Ok _ _ s true s1) by now rewrite (bind_Ok _ _ _ _ _ Hrun).
  rewrite (bind_Ok _ _ s1 true s1) by reflexivity.
  rewrite (bind_Ok _ _ s1 true s1) by reflexivity.
  exists s1, f1. split; [reflexivity|]. split; [exact Hf1|].
  unfold window, navUp in Hw. cbn [fst snd] in Hw.
  injection Hw as Hfirst Hselected.
  assert (Hs1 : selected (scrollable f1) = Z.max (selected (scrollable f) - 1) 0).
  { rewrite Hselected.
    destruct (Z.leb_spec 1 (selected (scrollable f))).
    - rewrite to_uint8_small by lia. lia.
    - lia. }
  split; [exact Hs1|]. split.
  { rewrite Hfirst, <- Hselected.
    destruct (Z.ltb_spec (selected (scrollable f1)) (first (scrollable f))); lia. }
  split; [exact He|].
  destruct (same_rest_stack _ _ Hrest) as [Hstk Hsp].
  split; [apply (f_equal mem) in Hrest; cbn in Hrest; congruence|].
  split; [apply (f_equal curActiveEditable) in Hrest; cbn in Hrest; congruence|].
  split; [exact Hsp | exact Hstk].
Qed.

(** Up in the freshly opened menu of the example screen: the first entry
    stays selected. *)
Lemma up_press_stops_at_first_entry_witness :
  exists s' f',
    onPressScrollable press_up Examples.menu_open = Ok true s' /\
    fields s' !! 6%nat = Some f' /\
    selected (scrollable f') = 0 /\ first (scrollable f') = 0.
Proof.
  destruct (up_press_stops_at_first_entry Examples.menu_open 6%nat
              (set_dirty true (set_blink true (FIELD_SCROLLABLE "Config" 7))))
    as (s' & f' & Hrun & Hf' & Hsel & Hfirst & _).
  - split; [reflexivity|]. split; [vm_compute; split; discriminate|].
    intros i Hi. exists 6%nat.
    assert (i = 0%nat) as -> by (vm_compute in Hi; lia).
    split; [reflexivity | vm_compute; eauto].
  - reflexivity.
  - reflexivity.
  - cbn. lia.
  - exists s', f'. split; [exact Hrun|]. split; [exact Hf'|].
    split; [exact Hsel|]. rewrite Hfirst, Hsel. reflexivity.
Defined.

(** ** Entering and leaving a scrollable *)

(** The state after a push of [f], given explicitly. *)
Lemma enterScrollable_run s f f0 :
  stack_ok s -> fields s !! f = Some f0 ->
  scrollableStackPtr s < MAX_SCROLLABLE_DEPTH ->
  exists F,
    enterScrollable f s
    = Ok tt (set_forceScrollableRelayout true
               (set_fields F
                  (set_scrollableStackPtr (scrollableStackPtr s + 1)
                     (set_scrollableStack
                        (<[Z.to_nat (scrollableStackPtr s) := Some f]>
                           (scrollableStack s)) s)))) /\
    map variant F = map variant (fields s) /\
    (exists ff, F !! f = Some ff /\ blink ff = true).
Proof.
  intros (Hlen & Hrange & Hvalid) Hf0 Hlt.
  set (sp := scrollableStackPtr s) in *.
  set (s1 := set_scrollableStackPtr (sp + 1)
               (set_scrollableStack
                  (<[Z.to_nat sp := Some f]> (scrollableStack s)) s)).
  set (s2 := set_fields (<[f := set_blink true f0]> (fields s1)) s1).
  assert (Hroot : exists root, scrollableStack s1 !! 0%nat = Some (Some root)
                               /\ is_Some (fields s !! root)).
  { subst s1. cbn [scrollableStack set_scrollableStack set_scrollableStackPtr].
    destruct (Z.eq_dec sp 0) as [E0 | N0].
    - exists f. rewrite E0. cbn. split; [|eauto].
      apply list_lookup_insert_eq. rewrite Hlen. cbn. lia.
    - destruct (Hvalid 0%nat) as (q & Hq & Hqv); [lia|].
      exists q. split; [|exact Hqv].
      rewrite list_lookup_insert_ne by lia. exact Hq. }
  destruct Hroot as (root & Hroot & [fr0 Hfr0]).
  assert (Hf2 : fields s2 !! f = Some (set_blink true f0)).
  { subst s2 s1. cbn. apply list_lookup_insert_eq.
    eapply lookup_lt_Some; eauto. }
  assert (Hr2 : exists fr2, fields s2 !! root = Some fr2).
  { apply lookup_lt_is_Some_2. subst s2 s1. cbn.
    rewrite length_insert. eapply lookup_lt_Some; eauto. }
  destruct Hr2 as (fr2 & Hr2).
  exists (<[root := set_dirty true fr2]> (fields s2)).
  split; [|split].
  - unfold enterScrollable, bind at 1, gets. fold sp.
    unfold bind at 1, c_assert.
    destruct (Z.ltb_spec sp MAX_SCROLLABLE_DEPTH); [|lia].
    unfold bind at 1.
    destruct (Z.ltb_spec sp 0); [lia|].
    unfold modify. fold s1.
    rewrite (bind_Ok _ _ _ _ _ (modField_Ok s1 f f0 _ Hf0)). fold s2.
    unfold rootScrollable.
    unfold bind at 1. unfold bind at 1, gets.
    replace (scrollableStack s2) with (scrollableStack s1) by reflexivity.
    rewrite Hroot. cbn [deref ret bind].
    rewrite (bind_Ok _ _ _ _ _ (modField_Ok s2 root fr2 _ Hr2)).
    reflexivity.
  - rewrite (map_variant_insert _ root fr2 _ Hr2) by reflexivity.
    subst s2 s1. cbn. apply (map_variant_insert _ f f0); auto.
  - destruct (Nat.eq_dec root f) as [-> | Nrf].
    + exists (set_dirty true fr2). split.
      * apply list_lookup_insert_eq. eapply lookup_lt_Some; eauto.
      * rewrite Hf2 in Hr2. injection Hr2 as <-. reflexivity.
    + exists (set_blink true f0). split; [|reflexivity].
      rewrite list_lookup_insert_ne by exact Nrf. exact Hf2.
Qed.

Lemma length_of_variants (F G : list Field) :
  map variant F = map variant G -> length F = length G.
Proof.
  intros H. rewrite <- (length_map variant F), H. apply length_map.
Qed.

(** X7.  Leaving a scrollable undoes entering it: after [enterScrollable f]
    and [exitScrollable] the stack has its old depth and its old entries
    below that depth, the scrollable that was active is active again, and
    the stored values and the active editable are untouched.  The exit
    reports whether a scrollable is active again.  On an empty stack
    [exitScrollable] stops at its assertion. *)
Theorem enter_exit_round_trip (s : state) (f : fptr) :
  stack_ok s ->
  is_Some (fields s !! f) ->
  (scrollableStackPtr s < MAX_SCROLLABLE_DEPTH ->
   exists s1 s2,
     enterScrollable f s = Ok tt s1 /\
     exitScrollable s1 = Ok (0 <? scrollableStackPtr s) s2 /\
     scrollableStackPtr s2 = scrollableStackPtr s /\
     (forall i, (i < Z.to_nat (scrollableStackPtr s))%nat ->
                scrollableStack s2 !! i = scrollableStack s !! i) /\
     (forall a, getActiveScrollable s = Ok a s ->
                getActiveScrollable s2 = Ok a s2) /\
     stack_ok s2 /\
     mem s2 = mem s /\ curActiveEditable s2 = curActiveEditable s /\
     map variant (fields s2) = map variant (fields s)) /\
  (scrollableStackPtr s = 0 -> exitScrollable s = AssertFail).
Proof.
  intros Hst [f0 Hf0]. split.
  2:{ intros E. unfold exitScrollable, bind at 1, gets. rewrite E.
      reflexivity. }
  intros Hlt.
  destruct (enterScrollable_run s f f0 Hst Hf0 Hlt) as (F & Hrun & HvF & _).
  destruct Hst as (Hlen & Hrange & Hvalid).
  set (sp := scrollableStackPtr s) in *.
  set (ST := <[Z.to_nat sp := Some f]> (scrollableStack s)) in *.
  set (s1 := set_forceScrollableRelayout true
               (set_fields F
                  (set_scrollableStackPtr (sp + 1)
                     (set_scrollableStack ST s)))) in *.
  assert (HlF : length F = length (fields s)) by now apply length_of_variants.
  assert (Hbelow : forall i, (i < Z.to_nat sp)%nat ->
                             ST !! i = scrollableStack s !! i).
  { intros i Hi. subst ST. apply list_lookup_insert_ne. lia. }
  set (s1' := set_scrollableStackPtr (sp + 1 - 1) s1).
  assert (Hpop : exitScrollable s1
                 = (let* a := getActiveScrollable in
                    match a with
                    | Some q =>
                        do modField q (set_dirty true) then
                        do modify (set_forceScrollableRelayout true) then
                        ret true
                    | None => ret false
                    end) s1').
  { unfold exitScrollable.
    rewrite (bind_Ok _ _ s1 (sp + 1) s1) by reflexivity.
    rewrite (bind_Ok _ _ s1 tt s1).
    2:{ unfold c_assert. destruct (Z.ltb_spec 0 (sp + 1)); [reflexivity | lia]. }
    rewrite (bind_Ok _ _ s1 tt s1') by reflexivity. reflexivity. }
  destruct (Z.eq_dec sp 0) as [E0 | N0].
  - (* the stack was empty *)
    assert (E1 : scrollableStackPtr s1' = 0) by (subst s1'; cbn; lia).
    exists s1, s1'. split; [exact Hrun|]. split.
    { rewrite Hpop, (bind_Ok _ _ _ _ _ (getActiveScrollable_empty s1' E1)).
      rewrite E0. reflexivity. }
    split; [subst s1'; cbn; lia|].
    split; [intros i Hi; lia|].
    split.
    { intros a Ha. rewrite (getActiveScrollable_empty s E0) in Ha.
      injection Ha as <-. apply getActiveScrollable_empty. exact E1. }
    split.
    { split; [subst s1' s1 ST; cbn; now rewrite length_insert|].
      split; [rewrite E1; unfold MAX_SCROLLABLE_DEPTH; lia|].
      intros i Hi. rewrite E1 in Hi. cbn in Hi. lia. }
    split; [reflexivity|]. split; [reflexivity|]. exact HvF.
  - (* the scrollable below [f] is active again *)
    destruct (Hvalid (Z.to_nat (sp - 1))) as (q & Hq & Hqv); [lia|].
    assert (Hq1 : exists fq, fields s1' !! q = Some fq).
    { apply lookup_lt_is_Some_2. subst s1' s1. cbn. rewrite HlF.
      now apply lookup_lt_is_Some_1. }
    destruct Hq1 as (fq & Hfq).
    assert (Ha1 : getActiveScrollable s1' = Ok (Some q) s1').
    { apply getActiveScrollable_top.
      - subst s1'. cbn. lia.
      - replace (scrollableStackPtr s1') with (sp + 1 - 1) by reflexivity.
        replace (sp + 1 - 1 - 1) with (sp - 1) by lia.
        replace (scrollableStack s1') with ST by reflexivity.
        rewrite Hbelow by lia. exact Hq. }
    set (s2 := set_forceScrollableRelayout true
                 (set_fields (<[q := set_dirty true fq]> (fields s1')) s1')).
    exists s1, s2. split; [exact Hrun|]. split.
    { rewrite Hpop, (bind_Ok _ _ _ _ _ Ha1).
      rewrite (bind_Ok _ _ _ _ _ (modField_Ok s1' q fq _ Hfq)).
      destruct (Z.ltb_spec 0 sp); [reflexivity | lia]. }
    split; [subst s2 s1'; cbn; lia|].
    split; [intros i Hi; exact (Hbelow i Hi)|].
    assert (Hv2 : map variant (fields s2) = map variant (fields s)).
    { subst s2. cbn [fields set_fields set_forceScrollableRelayout].
      rewrite (map_variant_insert _ q fq _ Hfq) by reflexivity. exact HvF. }
    split.
    { intros a Ha. destruct (getActiveScrollable_inv _ _ _ Ha) as (_ & [[E _] | [_ Hl]]);
        [contradiction|].
      fold sp in Hl. rewrite Hq in Hl. injection Hl as <-.
      apply (getActiveScrollable_stack s1'); [reflexivity | reflexivity | exact Ha1]. }
    split.
    { split; [subst s2 s1' s1 ST; cbn; now rewrite length_insert|].
      split; [subst s2 s1'; cbn; lia|].
      intros i Hi.
      replace (scrollableStackPtr s2) with (sp + 1 - 1) in Hi by reflexivity.
      destruct (Hvalid i) as (r & Hr & Hrv); [lia|].
      exists r. split.
      - replace (scrollableStack s2) with ST by reflexivity.
        rewrite Hbelow by lia. exact Hr.
      - apply lookup_lt_is_Some_2.
        rewrite (length_of_variants _ _ Hv2).
        now apply lookup_lt_is_Some_1. }
    split; [reflexivity|]. split; [reflexivity|]. exact Hv2.
Qed.

(** Into the second entry of the open example menu and out again. *)
Lemma enter_exit_round_trip_witness :
  exists s1 s2,
    enterScrollable 8%nat Examples.menu_open = Ok tt s1 /\
    exitScrollable s1 = Ok true s2 /\
    scrollableStackPtr s2 = 1 /\
    getActiveScrollable s2 = Ok (Some 6%nat) s2.
Proof.
  destruct (enter_exit_round_trip Examples.menu_open 8%nat) as [Hround _].
  - split; [reflexivity|]. split; [vm_compute; split; discriminate|].
    intros i Hi. exists 6%nat.
    assert (i = 0%nat) as -> by (vm_compute in Hi; lia).
    split; [reflexivity | vm_compute; eauto].
  - vm_compute. eauto.
  - destruct Hround as (s1 & s2 & Hin & Hout & Hsp & _ & Hact & _).
    + vm_compute. reflexivity.
    + exists s1, s2. split; [exact Hin|]. split; [exact Hout|].
      split; [exact Hsp|]. apply Hact. reflexivity.
Defined.

(** M on an entry that may be edited. *)
Lemma select_editable_run s sp f e c :
  stack_ok s -> getActiveScrollable s = Ok (Some sp) s ->
  fields s !! sp = Some f -> entries (scrollable f) = Some e ->
  0 <= selected (scrollable f) ->
  fields s !! (e + Z.to_nat (selected (scrollable f)))%nat = Some c ->
  variant c = FieldEditable -> read_only (editable c) = false ->
  exists s',
    onPressScrollable press_select s = Ok true s' /\
    curActiveEditable s' = Some (e + Z.to_nat (selected (scrollable f)))%nat /\
    dirty_at s' (e + Z.to_nat (selected (scrollable f)))%nat = Some true /\
    mem s' = mem s /\
    scrollableStackPtr s' = scrollableStackPtr s /\
    scrollableStack s' = scrollableStack s.
Proof.
  intros Hst Ha Hf He Hsel Hc Hv Hro.
  set (clicked := (e + Z.to_nat (selected (scrollable f)))%nat) in *.
  unfold onPressScrollable. rewrite (bind_Ok _ _ _ _ _ Ha).
  cbn [press_select UP_CLICK DOWN_CLICK M_CLICK ONOFF_CLICK].
  rewrite (bind_Ok _ _ s false s) by reflexivity.
  rewrite (bind_Ok _ _ s false s) by reflexivity.
  set (s1 := set_curActiveEditable (Some clicked) s).
  set (s2 := set_fields (<[clicked := set_dirty true c]> (fields s1)) s1).
  assert (Hlc : (clicked < length (fields s))%nat)
    by (eapply lookup_lt_Some; eauto).
  assert (Ha2 : getActiveScrollable s2 = Ok (Some sp) s2)
    by (apply (getActiveScrollable_stack s); [reflexivity | reflexivity | exact Ha]).
  destruct (active_root s sp Hst Ha) as (root & fr & Hroot & Hfr).
  assert (Hfr2 : exists fr2, fields s2 !! root = Some fr2).
  { apply lookup_lt_is_Some_2. subst s2 s1. cbn. rewrite length_insert.
    eapply lookup_lt_Some; eauto. }
  destruct Hfr2 as (fr2 & Hfr2).
  destruct (forceScrollableRender_step s2 sp root fr2 Ha2 Hroot Hfr2)
    as (s3 & Hrun3 & Hfs3 & Hrest3).
  assert (Hclick : clickEntry sp false s = Ok true s3).
  { unfold clickEntry.
    rewrite (bind_Ok _ _ _ _ _ (getField_Ok _ _ _ Hf)).
    rewrite (bind_Ok _ _ s clicked s).
    2:{ unfold entry_at. rewrite He. cbn [deref].
        rewrite (bind_Ok _ _ s e s) by reflexivity.
        destruct (Z.ltb_spec (selected (scrollable f)) 0); [lia | reflexivity]. }
    rewrite (bind_Ok _ _ _ _ _ (getField_Ok _ _ _ Hc)).
    rewrite Hv, Hro. cbn [negb].
    rewrite (bind_Ok _ _ s tt s1) by reflexivity.
    rewrite (bind_Ok _ _ _ _ _ (modField_Ok s1 clicked c _ Hc)).
    fold s2. now rewrite (bind_Ok _ _ _ _ _ Hrun3). }
  rewrite (bind_Ok _ _ _ _ _ Hclick).
  exists s3. split; [reflexivity|].
  destruct (same_rest_stack _ _ Hrest3) as [Hstk Hsp].
  split; [apply (f_equal curActiveEditable) in Hrest3; cbn in Hrest3;
          congruence|].
  split.
  { unfold dirty_at. rewrite Hfs3.
    assert (Hlr : (root < length (fields s2))%nat)
      by (eapply lookup_lt_Some; eauto).
    rewrite (dirty_at_insert s root clicked _ _ Hlr).
    destruct (Nat.eqb root clicked); [reflexivity|].
    subst s2 s1. cbn. now rewrite list_lookup_insert_eq. }
  split; [apply (f_equal mem) in Hrest3; cbn in Hrest3; congruence|].
  split; [exact Hsp | exact Hstk].
Qed.

(** X8.  A press of M in the active scrollable acts on the selected entry
    alone.  An editable that is not read-only becomes the active editable
    and is marked dirty; a scrollable is entered, or the press stops at the
    assertion of [enterScrollable] when the stack is full; a read-only
    editable and every other kind of entry leave the press unhandled and the
    state as it was.  No case writes a stored value. *)
Theorem select_press_acts_on_selected_entry (s : state) (sp : fptr) (f : Field)
    (e : fptr) (c : Field) :
  stack_ok s ->
  getActiveScrollable s = Ok (Some sp) s ->
  fields s !! sp = Some f ->
  entries (scrollable f) = Some e ->
  0 <= selected (scrollable f) ->
  fields s !! (e + Z.to_nat (selected (scrollable f)))%nat = Some c ->
  let clicked := (e + Z.to_nat (selected (scrollable f)))%nat in
  (variant c = FieldEditable -> read_only (editable c) = false ->
   exists s',
     onPressScrollable press_select s = Ok true s' /\
     curActiveEditable s' = Some clicked /\
     dirty_at s' clicked = Some true /\
     mem s' = mem s /\
     scrollableStackPtr s' = scrollableStackPtr s /\
     scrollableStack s' = scrollableStack s) /\
  (variant c = FieldScrollable ->
   scrollableStackPtr s < MAX_SCROLLABLE_DEPTH ->
   exists s',
     onPressScrollable press_select s = Ok true s' /\
     getActiveScrollable s' = Ok (Some clicked) s' /\
     scrollableStackPtr s' = scrollableStackPtr s + 1 /\
     curActiveEditable s' = curActiveEditable s /\ mem s' = mem s) /\
  (variant c = FieldScrollable ->
   scrollableStackPtr s = MAX_SCROLLABLE_DEPTH ->
   onPressScrollable press_select s = AssertFail) /\
  (variant c <> FieldScrollable ->
   (variant c = FieldEditable -> read_only (editable c) = true) ->
   onPressScrollable press_select s = Ok false s).
Proof.
  intros Hst Ha Hf He Hsel Hc clicked.
  assert (Hstep : onPressScrollable press_select s = clickEntry sp false s).
  { unfold onPressScrollable. rewrite (bind_Ok _ _ _ _ _ Ha).
    cbn [press_select UP_CLICK DOWN_CLICK M_CLICK ONOFF_CLICK].
    rewrite (bind_Ok _ _ s false s) by reflexivity.
    rewrite (bind_Ok _ _ s false s) by reflexivity.
    unfold bind at 1. destruct (clickEntry sp false s); reflexivity. }
  assert (Hclick : clickEntry sp false s
                   = (match variant c with
                      | FieldEditable =>
                          if negb (read_only (editable c)) then
                            do modify (set_curActiveEditable (Some clicked)) then
                            do modField clicked (set_dirty true) then
                            do forceScrollableRender then
                            ret true
                          else ret false
                      | FieldScrollable =>
                          do enterScrollable clicked then ret true
                      | _ => ret false
                      end) s).
  { unfold clickEntry.
    rewrite (bind_Ok _ _ _ _ _ (getField_Ok _ _ _ Hf)).
    rewrite (bind_Ok _ _ s clicked s).
    2:{ unfold entry_at. rewrite He. cbn [deref].
        rewrite (bind_Ok _ _ s e s) by reflexivity.
        destruct (Z.ltb_spec (selected (scrollable f)) 0); [lia | reflexivity]. }
    rewrite (bind_Ok _ _ _ _ _ (getField_Ok _ _ _ Hc)). reflexivity. }
  pose proof (eq_trans Hstep Hclick) as Hstep0.
  rewrite Hstep, Hclick. clear Hstep Hclick.
  split; [|split; [|split]].
  - (* an editable that may be edited *)
    intros Hv Hro.
    destruct (select_editable_run s sp f e c Hst Ha Hf He Hsel Hc Hv Hro)
      as (s' & Hrun & Hrest).
    exists s'. split; [rewrite <- Hstep0; exact Hrun | exact Hrest].
  - (* a scrollable, with room on the stack *)
    intros Hv Hlt. rewrite Hv.
    destruct (enterScrollable_run s clicked c Hst Hc Hlt) as (F & Hrun & _).
    rewrite (bind_Ok _ _ _ _ _ Hrun).
    eexists. split; [reflexivity|].
    destruct Hst as (Hlen & Hrange & _).
    split.
    { apply getActiveScrollable_top.
      - cbn. lia.
      - cbn. replace (scrollableStackPtr s + 1 - 1) with (scrollableStackPtr s)
          by lia.
        apply list_lookup_insert_eq. rewrite Hlen. lia. }
    split; [reflexivity|]. split; reflexivity.
  - (* a scrollable, with the stack full *)
    intros Hv E. rewrite Hv.
    unfold bind at 1. unfold enterScrollable, bind at 1, gets. rewrite E.
    reflexivity.
  - (* any other entry *)
    intros Hns Hro. destruct (variant c); try reflexivity.
    + contradiction.
    + rewrite Hro by reflexivity. reflexivity.
Qed.

(** M on the first entry of the open example menu starts the editing of
    "Wheel". *)
Lemma select_press_acts_on_selected_entry_witness :
  exists s',
    onPressScrollable press_select Examples.menu_open = Ok true s' /\
    curActiveEditable s' = Some 7%nat /\
    mem s' = mem Examples.menu_open.
Proof.
  destruct (select_press_acts_on_selected_entry Examples.menu_open 6%nat
              (set_dirty true (set_blink true (FIELD_SCROLLABLE "Config" 7)))
              7%nat (FIELD_EDITABLE_UINT "Wheel" 0 2 "mm" 0 3000 0))
    as [Hedit _].
  - split; [reflexivity|]. split; [vm_compute; split; discriminate|].
    intros i Hi. exists 6%nat.
    assert (i = 0%nat) as -> by (vm_compute in Hi; lia).
    split; [reflexivity | vm_compute; eauto].
  - reflexivity.
  - reflexivity.
  - reflexivity.
  - cbn. lia.
  - reflexivity.
  - destruct Hedit as (s' & Hrun & Hcae & _ & Hmem & _).
    + reflexivity.
    + reflexivity.
    + exists s'. split; [exact Hrun|]. split; [exact Hcae | exact Hmem].
Defined.

(** ** Frames in which nothing is due *)

Lemma set_dirty_same (f : Field) : set_dirty (dirty f) f = f.
Proof. now destruct f. Qed.

Lemma field_of_layout_Some s p fp :
  field_of_layout s p = Some fp ->
  exists l, layouts s !! p = Some l /\ lfield l = fp.
Proof.
  unfold field_of_layout. destruct (layouts s !! p) as [l|]; [|discriminate].
  intros [= <-]. eauto.
Qed.

Lemma getLayout_Ok s p l : layouts s !! p = Some l -> getLayout p s = Ok l s.
Proof. intros H. unfold getLayout. now rewrite H. Qed.

Section QuietRender.

Variable recur : lptr -> bool -> M bool.

Lemma needsRender_quiet s p fp f :
  field_of_layout s p = Some (Some fp) -> fields s !! fp = Some f ->
  quiet (blinkChanged s) f -> needsRender p s = Ok false s.
Proof.
  intros Hl Hf (Hd & Hv & Hb).
  destruct (field_of_layout_Some _ _ _ Hl) as (l & El & Efp).
  unfold needsRender.
  rewrite (bind_Ok _ _ _ _ _ (getLayout_Ok _ _ _ El)), Efp. cbn [deref].
  rewrite (bind_Ok _ _ s fp s) by reflexivity.
  rewrite (bind_Ok _ _ _ _ _ (getField_Ok _ _ _ Hf)).
  rewrite (bind_Ok _ _ s (blinkChanged s) s) by reflexivity.
  rewrite Hd, Hb.
  destruct (FieldVariant_eqb (variant f) FieldEditable) eqn:E;
    [apply FieldVariant_eqb_eq in E; contradiction | reflexivity].
Qed.

Lemma renderOne_quiet s p fp f mpressed acc :
  field_of_layout s p = Some (Some fp) -> fields s !! fp = Some f ->
  quiet (blinkChanged s) f ->
  renderOne recur false mpressed p acc s = Ok acc s.
Proof.
  intros Hl Hf Hq. pose proof (needsRender_quiet s p fp f Hl Hf Hq) as Hn.
  destruct Hq as (Hd & Hv & Hb).
  destruct (field_of_layout_Some _ _ _ Hl) as (l & El & Efp).
  unfold renderOne. cbn [when].
  rewrite (bind_Ok _ _ s tt s) by reflexivity.
  rewrite (bind_Ok _ _ _ _ _ (getLayout_Ok _ _ _ El)), Efp. cbn [deref].
  rewrite (bind_Ok _ _ s fp s) by reflexivity.
  rewrite (bind_Ok _ _ _ _ _ (getField_Ok _ _ _ Hf)).
  destruct (FieldVariant_eqb (variant f) FieldEditable) eqn:E;
    [apply FieldVariant_eqb_eq in E; contradiction|].
  cbn [when]. rewrite (bind_Ok _ _ s tt s) by reflexivity.
  rewrite (bind_Ok _ _ _ _ _ Hn). now destruct acc.
Qed.

Lemma clearDirty_quiet s p fp f :
  field_of_layout s p = Some (Some fp) -> fields s !! fp = Some f ->
  dirty f = false -> clearDirty p tt s = Ok tt s.
Proof.
  intros Hl Hf Hd.
  destruct (field_of_layout_Some _ _ _ Hl) as (l & El & Efp).
  unfold clearDirty.
  rewrite (bind_Ok _ _ _ _ _ (getLayout_Ok _ _ _ El)), Efp. cbn [deref].
  rewrite (bind_Ok _ _ s fp s) by reflexivity.
  rewrite (modField_Ok s fp f _ Hf). f_equal.
  rewrite <- Hd, set_dirty_same, list_insert_id by exact Hf.
  now destruct s.
Qed.

(** A loop whose body leaves the state alone at every layout of the
    sequence runs to the sentinel and leaves the state alone. *)
Lemma forLayouts_unchanged {A} (body : lptr -> A -> M A) s (P : Field -> Prop)
    (acc : A) :
  (forall p fp f, field_of_layout s p = Some (Some fp) ->
                  fields s !! fp = Some f -> P f -> body p acc s = Ok acc s) ->
  forall n k p, (n < k)%nat -> sequence_of s p n P ->
                forLayouts k body p acc s = Ok acc s.
Proof.
  intros Hbody. induction n as [|n IH]; intros k p Hk [Hin Hend];
    (destruct k as [|k]; [lia|]); cbn [forLayouts].
  - rewrite Nat.add_0_r in Hend.
    destruct (field_of_layout_Some _ _ _ Hend) as (l & El & Efp).
    now rewrite (bind_Ok _ _ _ _ _ (getLayout_Ok _ _ _ El)), Efp.
  - destruct (Hin 0%nat) as (fp & f & Hl & Hf & HP); [lia|].
    rewrite Nat.add_0_r in Hl.
    destruct (field_of_layout_Some _ _ _ Hl) as (l & El & Efp).
    rewrite (bind_Ok _ _ _ _ _ (getLayout_Ok _ _ _ El)), Efp.
    rewrite (bind_Ok _ _ _ _ _ (Hbody p fp f Hl Hf HP)).
    apply IH; [lia|]. split.
    + intros i Hi. destruct (Hin (S i)) as (fp' & f' & H'); [lia|].
      exists fp', f'. now replace (S p + i)%nat with (p + S i)%nat by lia.
    + now replace (S p + n)%nat with (p + S n)%nat by lia.
Qed.

Lemma sequence_of_length s p n P :
  sequence_of s p n P -> (n < length (layouts s))%nat.
Proof.
  intros [_ Hend]. destruct (field_of_layout_Some _ _ _ Hend) as (l & El & _).
  apply lookup_lt_Some in El. lia.
Qed.

Lemma sequence_of_weaken s p n (P Q : Field -> Prop) :
  (forall f, P f -> Q f) -> sequence_of s p n P -> sequence_of s p n Q.
Proof.
  intros HPQ [Hin Hend]. split; [|exact Hend].
  intros i Hi. destruct (Hin i Hi) as (fp & f & Hl & Hf & HP). eauto 6.
Qed.

Lemma renderLayoutsBody_quiet s p n :
  sequence_of s p n (quiet (blinkChanged s)) ->
  renderLayoutsBody recur p false s = Ok false s.
Proof.
  intros Hseq. pose proof (sequence_of_length _ _ _ _ Hseq) as Hlen.
  unfold renderLayoutsBody.
  rewrite (bind_Ok _ _ s (m_state s) s) by reflexivity.
  rewrite (bind_Ok _ _ s (length (layouts s)) s) by reflexivity.
  rewrite (bind_Ok _ _ s {| didDraw := false; maxy := 0;
                            didChangeForceLabels := false |} s).
  2:{ apply (forLayouts_unchanged _ s (quiet (blinkChanged s)) _) with (n := n);
        [|lia | exact Hseq].
      intros q fp f Hl Hf Hq. now apply (renderOne_quiet s q fp f). }
  rewrite (bind_Ok _ _ s tt s).
  2:{ apply (forLayouts_unchanged _ s (quiet (blinkChanged s)) _) with (n := n);
        [|lia | exact Hseq].
      intros q fp f Hl Hf (Hd & _). now apply (clearDirty_quiet s q fp f). }
  reflexivity.
Qed.

End QuietRender.

(** X9.  A frame with nothing due is free: when every layout of a
    sentinel-terminated sequence shows a field that is clean, is no
    editable and does not blink on this tick, [renderLayouts] without
    [forceRender] returns [false] and leaves the whole state, display
    included, exactly as it was, at any nesting depth. *)
Theorem renderLayouts_nothing_due (d : nat) (p : lptr) (n : nat) (s : state) :
  sequence_of s p n (quiet (blinkChanged s)) ->
  renderLayouts (S d) p false s = Ok false s.
Proof.
  intros Hseq. cbn [renderLayouts].
  exact (renderLayoutsBody_quiet (renderLayouts d) s p n Hseq).
Qed.

Lemma drawn_texts_quiet :
  sequence_of drawn_texts 5%nat 2 (quiet false).
Proof.
  split; [|reflexivity].
  intros i Hi. destruct i as [|[|i]]; [| |lia].
  - exists 6%nat. eexists. split; [reflexivity|]. split; [reflexivity|].
    split; [reflexivity|]. split; [discriminate | reflexivity].
  - exists 7%nat. eexists. split; [reflexivity|]. split; [reflexivity|].
    split; [reflexivity|]. split; [discriminate | reflexivity].
Qed.

(** The two drawn texts of the example between two blink ticks. *)
Lemma renderLayouts_nothing_due_witness :
  renderLayouts 1 5%nat false drawn_texts = Ok false drawn_texts.
Proof.
  apply (renderLayouts_nothing_due 0 5%nat 2 drawn_texts).
  exact drawn_texts_quiet.
Defined.

Lemma to_uint8_mod10 (z : Z) : to_uint8 (z mod 10) = z mod 10.
Proof.
  apply to_uint8_small. pose proof (Z.mod_pos_bound z 10). lia.
Qed.

(** X10.  [screenUpdate] without a current screen does nothing.  With a
    screen that is not dirty and whose fields are clean, no editables and
    not due to blink on the tick of this update, it does the blink
    bookkeeping and nothing else: no field, layout or stored value changes,
    nothing is drawn and the display is not flushed. *)
Theorem screenUpdate_nothing_due (depth : nat) (s : state) :
  (curScreen s = None -> screenUpdate depth s = Ok tt s) /\
  (forall scr n,
      curScreen s = Some scr -> screenDirty s = false ->
      sequence_of s (sfields scr) n
        (quiet ((blinkCounter s + 1) mod 10 =? 0)) ->
      screenUpdate (S depth) s = Ok tt (set_screenDirty false (ticked s)) /\
      display (set_screenDirty false (ticked s)) = display s /\
      fields (set_screenDirty false (ticked s)) = fields s /\
      layouts (set_screenDirty false (ticked s)) = layouts s /\
      mem (set_screenDirty false (ticked s)) = mem s).
Proof.
  split.
  - intros E. unfold screenUpdate.
    rewrite (bind_Ok _ _ s None s) by (unfold gets; now rewrite E).
    reflexivity.
  - intros scr n Hscr Hsd Hseq.
    assert (Hparts : display (ticked s) = display s /\
                     fields (ticked s) = fields s /\
                     layouts (ticked s) = layouts s /\
                     mem (ticked s) = mem s /\
                     screenDirty (ticked s) = screenDirty s /\
                     blinkChanged (ticked s)
                     = ((blinkCounter s + 1) mod 10 =? 0)).
    { unfold ticked. rewrite to_uint8_mod10.
      destruct ((blinkCounter s + 1) mod 10 =? 0); repeat split. }
    destruct Hparts as (Hdisp & Hfs & Hls & Hmem & Hsd' & Hbc).
    split; [|repeat split; assumption].
    assert (Hseq' : sequence_of (ticked s) (sfields scr) n
                      (quiet (blinkChanged (ticked s)))).
    { rewrite Hbc. destruct Hseq as [Hin Hend]. unfold sequence_of,
        field_of_layout. rewrite Hls, Hfs. split; assumption. }
    unfold screenUpdate.
    rewrite (bind_Ok _ _ s (Some scr) s) by (unfold gets; now rewrite Hscr).
    rewrite (bind_Ok _ _ s (blinkCounter s) s) by reflexivity.
    rewrite (bind_Ok _ _ s tt
               (set_blinkCounter (to_uint8 ((blinkCounter s + 1) mod 10)) s))
      by reflexivity.
    rewrite (bind_Ok _ _ _ tt
               (set_blinkChanged (to_uint8 ((blinkCounter s + 1) mod 10) =? 0)
                  (set_blinkCounter (to_uint8 ((blinkCounter s + 1) mod 10))
                     s)))
      by reflexivity.
    rewrite (bind_Ok _ _ _ tt (ticked s)).
    2:{ unfold ticked.
        destruct (to_uint8 ((blinkCounter s + 1) mod 10) =? 0); reflexivity. }
    rewrite (bind_Ok _ _ (ticked s) false (ticked s))
      by (unfold gets; now rewrite Hsd', Hsd).
    rewrite (bind_Ok _ _ (ticked s) false (ticked s)) by reflexivity.
    rewrite (bind_Ok _ _ (ticked s) false (ticked s))
      by (unfold gets; now rewrite Hsd', Hsd).
    rewrite (bind_Ok _ _ (ticked s) false (ticked s))
      by (apply (renderLayoutsBody_quiet _ _ _ n Hseq')).
    reflexivity.
Qed.

(** One update of the example screen between two blink ticks: the counter
    advances and nothing reaches the display. *)
Lemma screenUpdate_nothing_due_witness :
  exists s',
    screenUpdate 1 drawn_texts = Ok tt s' /\
    blinkCounter s' = 1 /\ display s' = display drawn_texts.
Proof.
  destruct (screenUpdate_nothing_due 0 drawn_texts) as [_ Hdue].
  destruct (Hdue {| onPress := None; onExit := None; sfields := 5%nat |} 2%nat)
    as (Hrun & Hdisp & _).
  - reflexivity.
  - reflexivity.
  - exact drawn_texts_quiet.
  - eexists. split; [exact Hrun|]. split; [reflexivity | exact Hdisp].
Defined.

(** ** What drawing leaves alone *)

Lemma steady_refl s : steady s s.
Proof.
  split; [reflexivity|]. split; [reflexivity|].
  split; [exists []; now rewrite app_nil_r|]. split; auto.
Qed.

Lemma controls_editing_step s s' :
  controls s' = controls s -> editing_step s' = editing_step s.
Proof.
  unfold controls, editing_step. intros [= -> _ _ -> _ _ _ -> ->].
  reflexivity.
Qed.

Lemma lookup_editable s s' p f' :
  map editable (fields s') = map editable (fields s) ->
  fields s' !! p = Some f' ->
  exists f, fields s !! p = Some f /\ editable f = editable f'.
Proof.
  intros Hm Hf'.
  assert (E : editable <$> (fields s !! p) = Some (editable f')).
  { rewrite <- list_lookup_fmap. change (fmap editable) with (map editable).
    rewrite <- Hm. change (map editable) with (fmap (M:=list) editable).
    now rewrite list_lookup_fmap, Hf'. }
  destruct (fields s !! p) as [f|]; [|discriminate].
  injection E as E. eauto.
Qed.

Lemma in_active_cell_back s s' i :
  controls s' = controls s ->
  map editable (fields s') = map editable (fields s) ->
  in_active_cell s' i -> in_active_cell s i.
Proof.
  intros Hc Hm (p & f' & Hcae & Hf' & Hi).
  destruct (lookup_editable s s' p f' Hm Hf') as (f & Hf & He).
  exists p, f. split; [|split; [exact Hf | now rewrite He]].
  unfold controls in Hc. injection Hc as Hc _. congruence.
Qed.

Lemma steady_trans s1 s2 s3 : steady s1 s2 -> steady s2 s3 -> steady s1 s3.
Proof.
  intros (Hc1 & He1 & (o1 & Hd1) & Hm1 & Hi1) (Hc2 & He2 & (o2 & Hd2) & Hm2 & Hi2).
  split; [congruence|]. split; [congruence|].
  split; [exists (o1 ++ o2); now rewrite Hd2, Hd1, app_assoc|].
  split.
  - intros E. rewrite Hm2, Hm1; auto.
    now rewrite (controls_editing_step _ _ Hc1).
  - intros i Hi. rewrite Hi2, Hi1; auto.
    intros Hin. apply Hi. now apply (in_active_cell_back s1 s2).
Qed.

Lemma writes_cell_refl s : writes_cell s s.
Proof. repeat split; auto. Qed.

Lemma writes_cell_trans s1 s2 s3 :
  writes_cell s1 s2 -> writes_cell s2 s3 -> writes_cell s1 s3.
Proof.
  intros (Hc1 & Hf1 & Hd1 & Hi1) (Hc2 & Hf2 & Hd2 & Hi2).
  split; [congruence|]. split; [congruence|]. split; [congruence|].
  intros i Hi. rewrite Hi2, Hi1; auto.
  intros Hin. apply Hi. apply (in_active_cell_back s1 s2); auto.
  now rewrite Hf1.
Qed.

(** *** Operations that only read *)

Lemma reads_ret {A} (a : A) : reads (ret a).
Proof. intros s b s' H. now inversion H. Qed.

Lemma reads_gets {A} (f : state -> A) : reads (gets f).
Proof. intros s b s' H. now inversion H. Qed.

Lemma reads_fail {A} (o : outcome A) :
  (forall a s, o <> Ok a s) -> reads (fun _ => o).
Proof. intros H s a s' E. now elim (H a s'). Qed.

Lemma reads_bind {A B} (m : M A) (k : A -> M B) :
  reads m -> (forall a, reads (k a)) -> reads (bind m k).
Proof.
  intros Hm Hk s b s' H. apply bind_inv_Ok in H.
  destruct H as (a & s1 & H1 & H2).
  apply Hm in H1. subst s1. now apply Hk in H2.
Qed.

Lemma reads_assert b : reads (c_assert b).
Proof.
  intros s a s'. unfold c_assert. destruct b; [|discriminate].
  intros H. now inversion H.
Qed.

Lemma reads_deref {A} (o : option A) : reads (deref o).
Proof. destruct o; [apply reads_ret | apply reads_fail; discriminate]. Qed.

Lemma reads_getField p : reads (getField p).
Proof.
  intros s a s'. unfold getField. destruct (fields s !! p); [|discriminate].
  intros H. now inversion H.
Qed.

Lemma reads_getLayout p : reads (getLayout p).
Proof.
  intros s a s'. unfold getLayout. destruct (layouts s !! p); [|discriminate].
  intros H. now inversion H.
Qed.

Lemma reads_load n a : reads (load n a).
Proof.
  intros s v s'. unfold load. destruct (load_le n a (mem s)); [|discriminate].
  intros H. now inversion H.
Qed.

Create HintDb reading.

Ltac reads_step :=
  first
    [ solve [auto 1 with reading nocore]
    | apply reads_ret | apply reads_gets | apply reads_getField
    | apply reads_getLayout | apply reads_deref | apply reads_assert
    | apply reads_load
    | apply reads_fail; discriminate
    | apply reads_bind; [|intros ?]
    | match goal with
      | |- reads (if ?b then _ else _) => destruct b
      | |- reads (match ?x with _ => _ end) => destruct x
      end ].

Ltac reading := repeat reads_step.

Lemma reads_getEditableNumber p : reads (getEditableNumber p).
Proof. unfold getEditableNumber. reading. Qed.

Lemma reads_countEnumOptions p : reads (countEnumOptions p).
Proof. unfold countEnumOptions. reading. Qed.

Lemma reads_getActiveScrollable : reads getActiveScrollable.
Proof. unfold getActiveScrollable. reading. Qed.

Lemma reads_rootScrollable : reads rootScrollable.
Proof. unfold rootScrollable. reading. Qed.

Lemma reads_needsRender p : reads (needsRender p).
Proof. unfold needsRender. reading. Qed.

Lemma reads_countEntries p : reads (countEntries p).
Proof. unfold countEntries. reading. Qed.

Lemma reads_formatUInt n num : reads (formatUInt n num).
Proof. unfold formatUInt, undefined. reading. Qed.

Lemma reads_entry_at b n : reads (entry_at b n).
Proof. unfold entry_at, undefined. reading. Qed.

#[local] Hint Resolve reads_getEditableNumber reads_countEnumOptions
  reads_getActiveScrollable reads_rootScrollable reads_needsRender
  reads_countEntries reads_formatUInt reads_entry_at : reading.

(** *** The one write to the storage *)

Lemma store_le_outside : forall n a v (m : list Byte.byte) i,
  (i < a \/ a + n <= i)%nat -> store_le n a v m !! i = m !! i.
Proof.
  induction n as [|n IH]; intros a v m i Hi; cbn [store_le]; [reflexivity|].
  rewrite IH by lia. apply list_lookup_insert_ne. lia.
Qed.

Lemma setEditableNumber_writes_cell s p v s' :
  curActiveEditable s = Some p ->
  setEditableNumber p v s = Ok tt s' -> writes_cell s s'.
Proof.
  intros Hcae H. unfold setEditableNumber in H.
  apply bind_inv_Ok in H. destruct H as (f & s1 & Hf & H).
  pose proof (reads_getField _ _ _ _ Hf) as ->.
  unfold getField in Hf. destruct (fields s !! p) as [f0|] eqn:Ef;
    [|discriminate].
  injection Hf as <-.
  assert (Hstore : forall n w,
             esize (editable f0) = Z.of_nat n ->
             store n (target (editable f0)) w s = Ok tt s' -> writes_cell s s').
  { intros n w Hn Hs. unfold store in Hs.
    destruct (in_bounds n (target (editable f0)) (mem s)); [|discriminate].
    injection Hs as <-. split; [reflexivity|]. split; [reflexivity|].
    split; [reflexivity|]. intros i Hi. cbn [mem set_mem].
    apply store_le_outside.
    destruct (Nat.lt_ge_cases i (target (editable f0))) as [|Hge]; [now left|].
    destruct (Nat.lt_ge_cases i (target (editable f0) + n)) as [Hlt|]; [|now right].
    exfalso. apply Hi. exists p, f0. split; [exact Hcae|]. split; [exact Ef|].
    rewrite Hn, Nat2Z.id. lia. }
  destruct (Z.eqb_spec (esize (editable f0)) 1) as [E1|_];
    [exact (Hstore 1%nat _ E1 H)|].
  destruct (Z.eqb_spec (esize (editable f0)) 2) as [E2|_];
    [exact (Hstore 2%nat _ E2 H)|].
  destruct (Z.eqb_spec (esize (editable f0)) 4) as [E4|_];
    [exact (Hstore 4%nat _ E4 H)|].
  discriminate.
Qed.

Lemma changeEditable_writes_cell b s s' :
  changeEditable b s = Ok tt s' -> writes_cell s s'.
Proof.
  intros H. unfold changeEditable in H.
  apply bind_inv_Ok in H. destruct H as (cae & s1 & Hc & H).
  injection Hc as <- <-.
  destruct (curActiveEditable s) as [p|] eqn:Hcae.
  2:{ apply bind_inv_Ok in H. destruct H as (? & ? & Hx & _). discriminate. }
  rewrite (bind_Ok _ _ s p s) in H by reflexivity.
  apply bind_inv_Ok in H. destruct H as (v & s1 & Hv & H).
  pose proof (reads_getEditableNumber _ _ _ _ Hv) as ->.
  apply bind_inv_Ok in H. destruct H as (fd & s1 & Hfd & H).
  pose proof (reads_getField _ _ _ _ Hfd) as ->.
  destruct (typ (editable fd)).
  - exact (setEditableNumber_writes_cell s p _ s' Hcae H).
  - apply bind_inv_Ok in H. destruct H as (n & s1 & Hn & H).
    pose proof (reads_countEnumOptions _ _ _ _ Hn) as ->.
    exact (setEditableNumber_writes_cell s p _ s' Hcae H).
Qed.

(** The block of [renderEditable] that applies a held button to the active
    editable. *)
Lemma held_button_steady s cae field ro s' :
  cae = curActiveEditable s ->
  when (fptr_eqb cae field && blinkChanged s && negb ro)
    (let* up := gets up_state in
     do when up (changeEditable true) then
     let* down := gets down_state in
     when down (changeEditable false)) s = Ok tt s' ->
  steady s s'.
Proof.
  intros -> H.
  destruct (fptr_eqb (curActiveEditable s) field && blinkChanged s && negb ro)
    eqn:Eg; cbn [when] in H.
  2:{ injection H as <-. apply steady_refl. }
  apply andb_prop in Eg. destruct Eg as [Eg _].
  apply andb_prop in Eg. destruct Eg as [Ea Ebc].
  apply bind_inv_Ok in H. destruct H as (up & s1 & Hup & H).
  injection Hup as <- <-.
  apply bind_inv_Ok in H. destruct H as ([] & sa & Hchg1 & H).
  apply bind_inv_Ok in H. destruct H as (down & s1 & Hdown & H).
  injection Hdown as <- <-.
  assert (W1 : writes_cell s sa /\ (up_state s = false -> sa = s)).
  { destruct (up_state s); cbn [when] in Hchg1.
    - split; [now apply (changeEditable_writes_cell true) | discriminate].
    - injection Hchg1 as <-. split; [apply writes_cell_refl | reflexivity]. }
  assert (W2 : writes_cell sa s' /\ (down_state sa = false -> s' = sa)).
  { destruct (down_state sa); cbn [when] in H.
    - split; [now apply (changeEditable_writes_cell false) | discriminate].
    - injection H as <-. split; [apply writes_cell_refl | reflexivity]. }
  destruct W1 as [W1 U1]. destruct W2 as [W2 U2].
  pose proof (writes_cell_trans _ _ _ W1 W2) as (Hc & Hf & Hd & Hi).
  split; [exact Hc|]. split; [now rewrite Hf|].
  split; [exists []; now rewrite app_nil_r|].
  split; [|exact Hi].
  intros Estep. unfold editing_step in Estep. rewrite Ebc in Estep.
  destruct (curActiveEditable s) as [q|]; [|discriminate Ea].
  cbn in Estep. apply orb_false_elim in Estep. destruct Estep as [Eu Ed].
  rewrite U2, U1; auto. now rewrite U1.
Qed.

(** *** The steps of the render loop *)

Lemma steadily_reads {A} (m : M A) : reads m -> steadily m.
Proof. intros H s a s' E. rewrite (H _ _ _ E). apply steady_refl. Qed.

Lemma steadily_fail {A} (o : outcome A) :
  (forall a s, o <> Ok a s) -> steadily (fun _ => o).
Proof. intros H s a s' E. now elim (H a s'). Qed.

Lemma steadily_bind {A B} (m : M A) (k : A -> M B) :
  steadily m -> (forall a, steadily (k a)) -> steadily (bind m k).
Proof.
  intros Hm Hk s b s' H. apply bind_inv_Ok in H.
  destruct H as (a & s1 & H1 & H2).
  eapply steady_trans; [eapply Hm | eapply Hk]; eauto.
Qed.

Lemma steadily_when b (m : M unit) : steadily m -> steadily (when b m).
Proof.
  intros H. destruct b; [exact H|]. apply steadily_reads, reads_ret.
Qed.

Lemma steadily_modify f :
  (forall s, controls (f s) = controls s /\ fields (f s) = fields s /\
             display (f s) = display s /\ mem (f s) = mem s) ->
  steadily (modify f).
Proof.
  intros H s a s' E. inversion E; subst; clear E.
  destruct (H s) as (Hc & Hf & Hd & Hm).
  split; [exact Hc|]. split; [now rewrite Hf|].
  split; [exists []; now rewrite app_nil_r, Hd|].
  split; [auto|]. intros i _. now rewrite Hm.
Qed.

Lemma steadily_emit op : steadily (emit op).
Proof.
  intros s a s' E. inversion E; subst; clear E.
  split; [reflexivity|]. split; [reflexivity|].
  split; [now exists [op]|]. split; auto.
Qed.

Lemma steadily_modLayout p g : steadily (modLayout p g).
Proof.
  intros s a s'. unfold modLayout.
  destruct (layouts s !! p) as [l|]; [|discriminate].
  intros E. inversion E; subst; clear E.
  split; [reflexivity|]. split; [reflexivity|].
  split; [exists []; now rewrite app_nil_r|]. split; auto.
Qed.

Lemma map_editable_insert (fs : list Field) p f f' :
  fs !! p = Some f -> editable f' = editable f ->
  map editable (<[p := f']> fs) = map editable fs.
Proof.
  intros Hf Hv. change (map editable) with (fmap (M:=list) editable).
  rewrite list_fmap_insert, Hv. apply list_insert_id.
  now rewrite list_lookup_fmap, Hf.
Qed.

Lemma steadily_modField p g :
  (forall f, editable (g f) = editable f) -> steadily (modField p g).
Proof.
  intros Hg s a s'. unfold modField.
  destruct (fields s !! p) as [f|] eqn:Ef; [|discriminate].
  intros E. inversion E; subst; clear E.
  split; [reflexivity|].
  split; [cbn [fields set_fields]; now apply (map_editable_insert _ p f)|].
  split; [exists []; now rewrite app_nil_r|]. split; auto.
Qed.

Create HintDb steady.

(** Decompose a monadic term into the primitives above and the operations
    already shown to be steady. *)
Ltac steady_step :=
  first
    [ solve [auto 1 with steady nocore]
    | apply steadily_emit | apply steadily_modLayout
    | apply steadily_reads; solve [reading]
    | apply steadily_fail; discriminate
    | apply steadily_when
    | apply steadily_bind; [|intros ?]
    | apply steadily_modField; intros ?; reflexivity
    | apply steadily_modify; intros ?; repeat split; reflexivity
    | match goal with
      | |- steadily (if ?b then _ else _) => destruct b
      | |- steadily (match ?x with _ => _ end) => destruct x
      end ].

Ltac steadying := repeat steady_step.

Lemma steadily_fieldPrintf p str : steadily (fieldPrintf p str).
Proof. unfold fieldPrintf. steadying. Qed.

Lemma steadily_renderDrawText p : steadily (renderDrawText p).
Proof. unfold renderDrawText, fillFrame, putString. steadying. Qed.

Lemma steadily_renderFill p : steadily (renderFill p).
Proof. unfold renderFill, fillFrame. steadying. Qed.

Lemma steadily_renderMesh p : steadily (renderMesh p).
Proof. unfold renderMesh, drawMesh. steadying. Qed.

Lemma steadily_drawSelectionMarker p : steadily (drawSelectionMarker p).
Proof. unfold drawSelectionMarker, drawLine. steadying. Qed.

Lemma steadily_drawBorder p : steadily (drawBorder p).
Proof. unfold drawBorder, drawLine, fillFrame. steadying. Qed.

Lemma steadily_enterScrollable f : steadily (enterScrollable f).
Proof. unfold enterScrollable, rootScrollable, undefined. steadying. Qed.

#[local] Hint Resolve steadily_fieldPrintf steadily_renderDrawText
  steadily_renderFill steadily_renderMesh steadily_drawSelectionMarker
  steadily_drawBorder steadily_enterScrollable : steady.

Lemma steadily_layoutRow layout field i more :
  steadily (layoutRow layout field i more).
Proof. unfold layoutRow, entry_at, undefined. steadying. Qed.

#[local] Hint Resolve steadily_layoutRow : steady.

Lemma steadily_prepareRows layout field : steadily (prepareRows layout field).
Proof. unfold prepareRows, entry_at, undefined. steadying. Qed.

#[local] Hint Resolve steadily_prepareRows : steady.

Lemma steadily_renderEditable p : steadily (renderEditable p).
Proof.
  intros s a s' H. unfold renderEditable in H.
  apply bind_inv_Ok in H. destruct H as (l & s1 & Hl & H).
  pose proof (reads_getLayout _ _ _ _ Hl) as ->.
  apply bind_inv_Ok in H. destruct H as (field & s1 & Hfield & H).
  pose proof (reads_deref _ _ _ _ Hfield) as ->.
  apply bind_inv_Ok in H. destruct H as (f & s1 & Hf & H).
  pose proof (reads_getField _ _ _ _ Hf) as ->.
  cbv zeta in H.
  apply bind_inv_Ok in H. destruct H as (cae & s1 & Hcae & H).
  injection Hcae as <- <-.
  apply bind_inv_Ok in H. destruct H as ([] & se & Hemit & H).
  apply bind_inv_Ok in H. destruct H as (bc & s1 & Hbc & H).
  injection Hbc as <- <-.
  apply bind_inv_Ok in H. destruct H as ([] & s2 & Hheld & H).
  apply (steady_trans _ se); [exact (steadily_emit _ _ _ _ Hemit)|].
  apply (steady_trans _ s2).
  - apply (held_button_steady se (curActiveEditable s) field
             (read_only (editable f)) s2); [|exact Hheld].
    inversion Hemit; subst. reflexivity.
  - revert H.
    refine ((_ : steadily _) s2 a s').
    unfold fillFrame, putString, drawLine. steadying.
Qed.

#[local] Hint Resolve steadily_renderEditable : steady.

Section SteadyRender.

Variable recur : lptr -> bool -> M bool.
Hypothesis steadily_recur : forall p b, steadily (recur p b).

Lemma steadily_renderScrollable p : steadily (renderScrollable recur p).
Proof using steadily_recur.
  unfold renderScrollable, renderActiveScrollable. steadying.
Qed.

Lemma steadily_renderers v p : steadily (renderers recur v p).
Proof using steadily_recur.
  destruct v; cbn [renderers]; auto with steady nocore.
  - apply steadily_renderScrollable.
  - unfold renderEnd. apply steadily_fail. discriminate.
Qed.

Lemma steadily_renderOne forceRender mpressed p acc :
  steadily (renderOne recur forceRender mpressed p acc).
Proof using steadily_recur.
  pose proof steadily_renderers as Hr.
  unfold renderOne. steadying.
Qed.

Lemma steadily_forLayouts {A} (body : lptr -> A -> M A) :
  (forall p acc, steadily (body p acc)) ->
  forall k p acc, steadily (forLayouts k body p acc).
Proof.
  intros Hbody. induction k as [|k IH]; intros p acc; cbn [forLayouts].
  - apply steadily_fail. discriminate.
  - apply steadily_bind; [apply steadily_reads, reads_getLayout | intros l].
    destruct (lfield l); [|apply steadily_reads, reads_ret].
    apply steadily_bind; [apply Hbody | intros acc']. apply IH.
Qed.

Lemma steadily_clearDirty p u : steadily (clearDirty p u).
Proof. unfold clearDirty. steadying. Qed.

Lemma steadily_renderLayoutsBody p forceRender :
  steadily (renderLayoutsBody recur p forceRender).
Proof using steadily_recur.
  unfold renderLayoutsBody.
  apply steadily_bind; [apply steadily_reads, reads_gets | intros mp].
  apply steadily_bind; [apply steadily_reads, reads_gets | intros n].
  apply steadily_bind;
    [apply steadily_forLayouts; intros; apply steadily_renderOne | intros acc].
  apply steadily_bind;
    [apply steadily_forLayouts; intros; apply steadily_clearDirty | intros _].
  steadying.
Qed.

End SteadyRender.

Lemma steadily_renderLayouts d : forall p forceRender,
  steadily (renderLayouts d p forceRender).
Proof.
  induction d as [|d IH]; intros p forceRender; cbn [renderLayouts].
  - apply steadily_fail. discriminate.
  - apply steadily_renderLayoutsBody. exact IH.
Qed.



(** ** The screen controller *)

Lemma ticked_parts s :
  blinkCounter (ticked s) = (blinkCounter s + 1) mod 10 /\
  blinkChanged (ticked s) = ((blinkCounter s + 1) mod 10 =? 0) /\
  blinkOn (ticked s)
  = xorb (blinkOn s) ((blinkCounter s + 1) mod 10 =? 0) /\
  curScreen (ticked s) = curScreen s /\
  curActiveEditable (ticked s) = curActiveEditable s /\
  screenDirty (ticked s) = screenDirty s /\
  display (ticked s) = display s.
Proof.
  unfold ticked. rewrite to_uint8_mod10.
  destruct ((blinkCounter s + 1) mod 10 =? 0); cbn;
    rewrite ?xorb_true_r, ?xorb_false_r; repeat split.
Qed.

(** The run of [screenUpdate] on a current screen, step by step. *)
Lemma screenUpdate_inv depth s scr s' :
  curScreen s = Some scr ->
  screenUpdate depth s = Ok tt s' ->
  exists drew sr,
    renderLayouts depth (sfields scr) (screenDirty s) (cleared s)
    = Ok drew sr /\
    s' = set_screenDirty false
           (if screenDirty s || drew
            then set_display (display sr ++ [lcd_refresh]) sr else sr).
Proof.
  intros Hscr H. unfold screenUpdate in H.
  rewrite (bind_Ok _ _ s (Some scr) s) in H by (unfold gets; now rewrite Hscr).
  rewrite (bind_Ok _ _ s (blinkCounter s) s) in H by reflexivity.
  rewrite (bind_Ok _ _ s tt
             (set_blinkCounter (to_uint8 ((blinkCounter s + 1) mod 10)) s))
    in H by reflexivity.
  rewrite (bind_Ok _ _ _ tt
             (set_blinkChanged (to_uint8 ((blinkCounter s + 1) mod 10) =? 0)
                (set_blinkCounter (to_uint8 ((blinkCounter s + 1) mod 10))
                   s)))
    in H by reflexivity.
  rewrite (bind_Ok _ _ _ tt (ticked s)) in H.
  2:{ unfold ticked.
      destruct (to_uint8 ((blinkCounter s + 1) mod 10) =? 0); reflexivity. }
  destruct (ticked_parts s) as (_ & _ & _ & _ & _ & Hsd & _).
  rewrite (bind_Ok _ _ (ticked s) (screenDirty s) (ticked s)) in H
    by (unfold gets; now rewrite Hsd).
  rewrite (bind_Ok _ _ (ticked s) (screenDirty s) (cleared s)) in H.
  2:{ unfold cleared. destruct (screenDirty s); reflexivity. }
  rewrite (bind_Ok _ _ (cleared s) (screenDirty s) (cleared s)) in H.
  2:{ unfold gets, cleared. destruct (screenDirty s) eqn:E; cbn; now rewrite Hsd. }
  apply bind_inv_Ok in H. destruct H as (drew & sr & Hdraw & H).
  exists drew, sr. split; [exact Hdraw|].
  apply bind_inv_Ok in H. destruct H as ([] & sf & Hflush & H).
  inversion H; subst; clear H. f_equal.
  destruct (screenDirty s || drew); cbn [when] in Hflush;
    now inversion Hflush.
Qed.

(** X12.  An update of a current screen that returns has advanced the blink
    counter by one modulo 10, has set [blinkChanged] exactly when the
    counter came back to 0 and has toggled [blinkOn] exactly then; the
    screen is no longer dirty, and the current screen and the active
    editable are the same.  A dirty screen is cleared before anything is
    drawn and flushed to the display at the end. *)
Theorem screenUpdate_blink_bookkeeping (depth : nat) (s : state) (scr : Screen)
    (s' : state) :
  curScreen s = Some scr ->
  0 <= blinkCounter s <= 255 ->
  screenUpdate depth s = Ok tt s' ->
  blinkCounter s' = (blinkCounter s + 1) mod 10 /\
  blinkChanged s' = (blinkCounter s' =? 0) /\
  blinkOn s' = xorb (blinkOn s) (blinkChanged s') /\
  screenDirty s' = false /\
  curScreen s' = Some scr /\
  curActiveEditable s' = curActiveEditable s /\
  (screenDirty s = true ->
   exists ops,
     display s' = display s ++ UG_FillScreen C_BLACK :: ops ++ [lcd_refresh]).
Proof.
  intros Hscr _ H.
  destruct (screenUpdate_inv depth s scr s' Hscr H) as (drew & sr & Hdraw & ->).
  destruct (steadily_renderLayouts _ _ _ _ _ _ Hdraw)
    as (Hc & _ & (ops & Hops) & _).
  destruct (ticked_parts s) as (Hctr & Hbc & Hbo & Hcs & Hcae & Hsd & Hdisp).
  assert (Hcl : controls (cleared s) = controls (ticked s)).
  { unfold cleared. destruct (screenDirty s); reflexivity. }
  rewrite Hcl in Hc. unfold controls in Hc.
  injection Hc as Ecae Ecs _ Ebc Ebo Ectr _ _ _ _ _ _.
  assert (Hsame :
            blinkCounter
              (set_screenDirty false
                 (if screenDirty s || drew
                  then set_display (display sr ++ [lcd_refresh]) sr else sr))
            = blinkCounter sr /\
            blinkChanged
              (set_screenDirty false
                 (if screenDirty s || drew
                  then set_display (display sr ++ [lcd_refresh]) sr else sr))
            = blinkChanged sr /\
            blinkOn
              (set_screenDirty false
                 (if screenDirty s || drew
                  then set_display (display sr ++ [lcd_refresh]) sr else sr))
            = blinkOn sr /\
            curScreen
              (set_screenDirty false
                 (if screenDirty s || drew
                  then set_display (display sr ++ [lcd_refresh]) sr else sr))
            = curScreen sr /\
            curActiveEditable
              (set_screenDirty false
                 (if screenDirty s || drew
                  then set_display (display sr ++ [lcd_refresh]) sr else sr))
            = curActiveEditable sr).
  { destruct (screenDirty s || drew); repeat split. }
  destruct Hsame as (S1 & S2 & S3 & S4 & S5).
  rewrite S1, S2, S3, S4, S5, Ectr, Ebc, Ebo, Ecs, Ecae, Hctr, Hbc, Hbo,
    Hcs, Hcae.
  split; [reflexivity|]. split; [reflexivity|]. split; [reflexivity|].
  split; [reflexivity|]. split; [exact Hscr|]. split; [reflexivity|].
  intros Edirty. exists ops. rewrite Edirty. cbn [orb display set_screenDirty
    set_display].
  rewrite Hops. unfold cleared. rewrite Edirty. cbn [display set_display].
  rewrite Hdisp, <- !app_assoc. reflexivity.
Qed.

(** The first update of the dirty example screen: the counter goes to 1,
    no tick, and the screen is clean afterwards. *)
Lemma screenUpdate_blink_bookkeeping_witness :
  exists s',
    screenUpdate 1 (set_screenDirty true drawn_texts) = Ok tt s' /\
    blinkCounter s' = 1 /\ blinkChanged s' = false /\ screenDirty s' = false.
Proof.
  destruct (screenUpdate 1 (set_screenDirty true drawn_texts))
    as [[] s'| | |] eqn:E; try (vm_compute in E; discriminate).
  destruct (screenUpdate_blink_bookkeeping 1 (set_screenDirty true drawn_texts)
              {| onPress := None; onExit := None; sfields := 5%nat |} s')
    as (Hctr & Hbc & _ & Hsd & _).
  - reflexivity.
  - cbn. lia.
  - exact E.
  - exists s'. split; [reflexivity|]. split; [exact Hctr|].
    split; [now rewrite Hbc, Hctr | exact Hsd].
Defined.

Section ShowScreen.

Variable exitHandler : nat -> M unit.

(** X13.  With the null screen [panicScreenShow] ends any editing, resets
    the stack of scrollables, makes the null screen current and leaves the
    dirty flag set; nothing is drawn.  With a screen, a call that returns
    leaves no editable active, that screen current and clean, and it has
    cleared the display before drawing and flushed it at the end.
    [screenShow] is [panicScreenShow] after the exit handler of the screen
    that is left, if that screen names one. *)
Theorem panicScreenShow_switches (depth : nat) (s : state) :
  panicScreenShow depth None s = Ok tt (switched None s) /\
  (forall scr s',
      panicScreenShow depth (Some scr) s = Ok tt s' ->
      curActiveEditable s' = None /\ curScreen s' = Some scr /\
      screenDirty s' = false /\
      exists ops,
        display s'
        = display s ++ UG_FillScreen C_BLACK :: ops ++ [lcd_refresh]) /\
  (forall screen,
      screenShow exitHandler depth screen s
      = match curScreen s with
        | Some old =>
            match onExit old with
            | Some h => (do exitHandler h then panicScreenShow depth screen) s
            | None => panicScreenShow depth screen s
            end
        | None => panicScreenShow depth screen s
        end).
Proof.
  assert (Hstep : forall screen,
             panicScreenShow depth screen s
             = screenUpdate depth (switched screen s)).
  { intros screen. reflexivity. }
  split; [|split].
  - rewrite Hstep. reflexivity.
  - intros scr s' H. rewrite Hstep in H.
    destruct (screenUpdate_inv depth (switched (Some scr) s) scr s'
                (eq_refl (Some scr)) H)
      as (drew & sr & Hdraw & ->).
    destruct (steadily_renderLayouts _ _ _ _ _ _ Hdraw)
      as (Hc & _ & (ops & Hops) & _).
    unfold controls in Hc. injection Hc as Ecae Ecs _ _ _ _ _ _ _ _ _ _.
    destruct (ticked_parts (switched (Some scr) s))
      as (_ & _ & _ & E2 & E1 & _).
    cbn [curScreen curActiveEditable switched set_screenDirty set_curScreen
         set_scrollableStackPtr set_curActiveEditable] in E1, E2.
    assert (E3 : display (cleared (switched (Some scr) s))
                 = display s ++ [UG_FillScreen C_BLACK]).
    { unfold cleared. cbn [screenDirty switched set_screenDirty display
        set_display].
      destruct (ticked_parts (switched (Some scr) s))
        as (_ & _ & _ & _ & _ & _ & Hd). rewrite Hd. reflexivity. }
    cbn [screenDirty switched set_screenDirty orb].
    cbn [curActiveEditable curScreen screenDirty display set_screenDirty
         set_display].
    split; [congruence|]. split; [congruence|]. split; [reflexivity|].
    exists ops. rewrite Hops, E3, <- !app_assoc. reflexivity.
  - intros screen. unfold screenShow.
    rewrite (bind_Ok _ _ s (curScreen s) s) by reflexivity.
    destruct (curScreen s) as [old|]; [destruct (onExit old)|]; reflexivity.
Qed.

End ShowScreen.

(** Showing the example screen of two texts: it is current and clean
    afterwards, and the display was cleared first. *)
Lemma panicScreenShow_switches_witness :
  exists s' ops,
    panicScreenShow 1
      (Some {| onPress := None; onExit := None; sfields := 5%nat |})
      drawn_texts = Ok tt s' /\
    screenDirty s' = false /\
    display s' = UG_FillScreen C_BLACK :: ops ++ [lcd_refresh].
Proof.
  destruct (panicScreenShow 1
              (Some {| onPress := None; onExit := None; sfields := 5%nat |})
              drawn_texts) as [[] s'| | |] eqn:E;
    try (vm_compute in E; discriminate).
  destruct (panicScreenShow_switches (fun _ => ret tt) 1 drawn_texts)
    as (_ & Hshow & _).
  destruct (Hshow _ _ E) as (_ & _ & Hsd & ops & Hops).
  exists s', ops. split; [reflexivity|]. split; [exact Hsd | exact Hops].
Defined.

(** ** Sequences without scrollables need no nesting depth *)

Lemma bind_agree {A B} (m : M A) (k1 k2 : A -> M B) s :
  (forall a s1, m s = Ok a s1 -> k1 a s1 = k2 a s1) ->
  bind m k1 s = bind m k2 s.
Proof.
  intros H. unfold bind. destruct (m s) as [a s1| | |]; auto.
Qed.

Lemma flat_sequence_head s p q :
  flat_sequence s p -> field_of_layout s p = Some (Some q) -> flat_layout p s.
Proof.
  intros Hflat Hat fp f Hfp Hf. rewrite Hat in Hfp. injection Hfp as <-.
  destruct (Hflat 0%nat q) as (f' & Hf' & Hv).
  - split; [intros i Hi; lia | now rewrite Nat.add_0_r].
  - congruence.
Qed.

Lemma flat_sequence_next s s1 p q :
  flat_sequence s p -> field_of_layout s p = Some (Some q) ->
  keeps s s1 -> flat_sequence s1 (S p).
Proof.
  intros Hflat Hat K1 j fp Href.
  apply (keeps_referenced s s1 _ _ _ K1) in Href.
  destruct (Hflat (S j) fp) as (f & Hf & Hv).
  - destruct Href as [Hb Hj]. split.
    + intros i Hi. destruct i as [|i].
      * exists q. now rewrite Nat.add_0_r.
      * destruct (Hb i) as (q' & Hq'); [lia|]. exists q'.
        now replace (p + S i)%nat with (S p + i)%nat by lia.
    + now replace (p + S j)%nat with (S p + j)%nat by lia.
  - destruct K1 as (_ & Hvar & _).
    assert (E : variant <$> (fields s1 !! fp) = Some (variant f)).
    { rewrite <- list_lookup_fmap. change (fmap variant) with (map variant).
      rewrite Hvar. change (map variant) with (fmap (M:=list) variant).
      now rewrite list_lookup_fmap, Hf. }
    destruct (fields s1 !! fp) as [f1|]; [|discriminate].
    injection E as E. exists f1. split; [reflexivity | congruence].
Qed.

Section FlatDepth.

Variables recur1 recur2 : lptr -> bool -> M bool.

Lemma renderers_flat v p :
  v <> FieldScrollable -> renderers recur1 v p = renderers recur2 v p.
Proof. intros Hv. destruct v; try reflexivity. now elim Hv. Qed.

(** From a state in which the layout shows no scrollable, two computations
    with a common prefix that keeps the state agree if their continuations
    do. *)
Lemma agree_bind p {A B} (m : M A) (k1 k2 : A -> M B) s :
  preserves m -> flat_layout p s ->
  (forall a s1, flat_layout p s1 -> k1 a s1 = k2 a s1) ->
  bind m k1 s = bind m k2 s.
Proof.
  intros Hm Hflat Hk. apply bind_agree. intros a s1 H1. apply Hk.
  exact (flat_layout_keeps p s s1 (Hm _ _ _ H1) Hflat).
Qed.

Lemma renderOne_flat forceRender mpressed p acc s :
  flat_layout p s ->
  renderOne recur1 forceRender mpressed p acc s
  = renderOne recur2 forceRender mpressed p acc s.
Proof.
  intros Hflat. unfold renderOne.
  apply (agree_bind p); [preserve | exact Hflat | intros _ s1 F1].
  apply (agree_bind p); [preserve | exact F1 | intros l s2 F2].
  apply (agree_bind p); [preserve | exact F2 | intros fp s3 F3].
  apply (agree_bind p); [preserve | exact F3 | intros f s4 F4].
  apply (agree_bind p); [preserve | exact F4 | intros _ s5 F5].
  apply (agree_bind p); [preserve | exact F5 | intros nr s6 F6].
  destruct nr; [|reflexivity].
  apply (agree_bind p); [preserve | exact F6 | intros _ s7 F7].
  apply (agree_bind p); [preserve | exact F7 | intros _ s8 F8].
  apply (agree_bind p); [preserve | exact F8 | intros _ s9 F9].
  apply (agree_bind p); [preserve | exact F9 | intros _ s10 F10].
  apply (agree_bind p); [preserve | exact F10 | intros _ s11 F11].
  apply bind_agree. intros l1 s12 Hl1.
  apply bind_agree. intros fp1 s13 Hfp1.
  apply bind_agree. intros f1 s14 Hf1.
  pose proof (reads_getLayout _ _ _ _ Hl1) as ->.
  pose proof (reads_deref _ _ _ _ Hfp1) as ->.
  pose proof (reads_getField _ _ _ _ Hf1) as ->.
  rewrite (renderers_flat (variant f1) p); [reflexivity|].
  unfold getLayout in Hl1. destruct (layouts s11 !! p) as [l0|] eqn:El;
    [|discriminate].
  injection Hl1 as <-.
  destruct (lfield l0) as [q|] eqn:Eq; [|discriminate].
  injection Hfp1 as <-.
  unfold getField in Hf1. destruct (fields s11 !! q) as [f0|] eqn:Ef;
    [|discriminate].
  injection Hf1 as <-.
  apply (F11 q f0); [|exact Ef].
  unfold field_of_layout. rewrite El. cbn. now rewrite Eq.
Qed.

Lemma forLayouts_flat forceRender mpressed k : forall p acc s,
  flat_sequence s p ->
  forLayouts k (renderOne recur1 forceRender mpressed) p acc s
  = forLayouts k (renderOne recur2 forceRender mpressed) p acc s.
Proof.
  induction k as [|k IH]; intros p acc s Hflat; cbn [forLayouts];
    [reflexivity|].
  apply bind_agree. intros l s1 Hl.
  pose proof (reads_getLayout _ _ _ _ Hl) as ->.
  destruct (lfield l) as [q|] eqn:Eq; [|reflexivity].
  assert (Hat : field_of_layout s p = Some (Some q)).
  { unfold getLayout in Hl. unfold field_of_layout.
    destruct (layouts s !! p) as [l0|]; [|discriminate].
    injection Hl as <-. cbn. now rewrite Eq. }
  pose proof (flat_sequence_head s p q Hflat Hat) as Hhead.
  unfold bind. rewrite (renderOne_flat forceRender mpressed p acc s Hhead).
  destruct (renderOne recur2 forceRender mpressed p acc s)
    as [acc1 s1| | |] eqn:Hone; try reflexivity.
  apply IH.
  apply (flat_sequence_next s s1 p q Hflat Hat).
  exact (preserves_renderOne recur2 forceRender mpressed p acc s acc1 s1
           Hhead Hone).
Qed.

Lemma renderLayoutsBody_flat p forceRender s :
  flat_sequence s p ->
  renderLayoutsBody recur1 p forceRender s
  = renderLayoutsBody recur2 p forceRender s.
Proof.
  intros Hflat. unfold renderLayoutsBody.
  rewrite !(bind_Ok _ _ s (m_state s) s) by reflexivity.
  rewrite !(bind_Ok _ _ s (length (layouts s)) s) by reflexivity.
  unfold bind at 1 5.
  rewrite (forLayouts_flat forceRender (m_state s) _ p _ s Hflat).
  reflexivity.
Qed.

End FlatDepth.

(** *** No other step of the render loop depends on the depth *)

Lemma fueled_ret {A} (a : A) : fueled (ret a).
Proof. intros s. discriminate. Qed.

Lemma fueled_gets {A} (f : state -> A) : fueled (gets f).
Proof. intros s. discriminate. Qed.

Lemma fueled_modify f : fueled (modify f).
Proof. intros s. discriminate. Qed.

Lemma fueled_emit op : fueled (emit op).
Proof. intros s. discriminate. Qed.

Lemma fueled_fail {A} (o : outcome A) :
  o <> OutOfFuel -> fueled (fun _ => o).
Proof. intros H s. exact H. Qed.

Lemma fueled_bind {A B} (m : M A) (k : A -> M B) :
  fueled m -> (forall a, fueled (k a)) -> fueled (bind m k).
Proof.
  intros Hm Hk s. unfold bind. pose proof (Hm s) as H.
  destruct (m s) as [a s1| | |]; try discriminate; [apply Hk | contradiction].
Qed.

Lemma fueled_when b (m : M unit) : fueled m -> fueled (when b m).
Proof. intros H. destruct b; [exact H | apply fueled_ret]. Qed.

Lemma fueled_assert b : fueled (c_assert b).
Proof. intros s. unfold c_assert. destruct b; discriminate. Qed.

Lemma fueled_deref {A} (o : option A) : fueled (deref o).
Proof. intros s. destruct o; discriminate. Qed.

Lemma fueled_getField p : fueled (getField p).
Proof. intros s. unfold getField. destruct (fields s !! p); discriminate. Qed.

Lemma fueled_getLayout p : fueled (getLayout p).
Proof. intros s. unfold getLayout. destruct (layouts s !! p); discriminate. Qed.

Lemma fueled_modField p g : fueled (modField p g).
Proof. intros s. unfold modField. destruct (fields s !! p); discriminate. Qed.

Lemma fueled_modLayout p g : fueled (modLayout p g).
Proof. intros s. unfold modLayout. destruct (layouts s !! p); discriminate. Qed.

Lemma fueled_load n a : fueled (load n a).
Proof. intros s. unfold load. destruct (load_le n a (mem s)); discriminate. Qed.

Lemma fueled_store n a v : fueled (store n a v).
Proof.
  intros s. unfold store. destruct (in_bounds n a (mem s)); discriminate.
Qed.

Create HintDb fuel.

Ltac fueled_step :=
  first
    [ solve [auto 1 with fuel nocore]
    | apply fueled_ret | apply fueled_gets | apply fueled_emit
    | apply fueled_modify | apply fueled_getField | apply fueled_getLayout
    | apply fueled_modField | apply fueled_modLayout
    | apply fueled_deref | apply fueled_assert
    | apply fueled_load | apply fueled_store
    | apply fueled_fail; discriminate
    | apply fueled_when
    | apply fueled_bind; [|intros ?]
    | match goal with
      | |- fueled (if ?b then _ else _) => destruct b
      | |- fueled (match ?x with _ => _ end) => destruct x
      end ].

Ltac fueling := repeat fueled_step.

Lemma fueled_fieldPrintf p str : fueled (fieldPrintf p str).
Proof. unfold fieldPrintf. fueling. Qed.

Lemma fueled_renderDrawText p : fueled (renderDrawText p).
Proof. unfold renderDrawText, fillFrame, putString. fueling. Qed.

Lemma fueled_renderFill p : fueled (renderFill p).
Proof. unfold renderFill, fillFrame. fueling. Qed.

Lemma fueled_renderMesh p : fueled (renderMesh p).
Proof. unfold renderMesh, drawMesh. fueling. Qed.

Lemma fueled_getEditableNumber p : fueled (getEditableNumber p).
Proof. unfold getEditableNumber. fueling. Qed.

Lemma fueled_setEditableNumber p v : fueled (setEditableNumber p v).
Proof. unfold setEditableNumber. fueling. Qed.

#[local] Hint Resolve fueled_getEditableNumber fueled_setEditableNumber : fuel.

Lemma fueled_changeEditable b : fueled (changeEditable b).
Proof. unfold changeEditable, countEnumOptions. fueling. Qed.

Lemma fueled_formatUInt n num : fueled (formatUInt n num).
Proof. unfold formatUInt, undefined. fueling. Qed.

#[local] Hint Resolve fueled_changeEditable fueled_formatUInt : fuel.

Lemma fueled_renderEditable p : fueled (renderEditable p).
Proof. unfold renderEditable, fillFrame, putString, drawLine. fueling. Qed.

Lemma fueled_drawSelectionMarker p : fueled (drawSelectionMarker p).
Proof. unfold drawSelectionMarker, drawLine. fueling. Qed.

Lemma fueled_drawBorder p : fueled (drawBorder p).
Proof. unfold drawBorder, drawLine, fillFrame. fueling. Qed.

Lemma fueled_needsRender p : fueled (needsRender p).
Proof. unfold needsRender. fueling. Qed.

Lemma fueled_getActiveScrollable : fueled getActiveScrollable.
Proof. unfold getActiveScrollable, undefined. fueling. Qed.

Lemma fueled_enterScrollable f : fueled (enterScrollable f).
Proof. unfold enterScrollable, rootScrollable, undefined. fueling. Qed.

#[local] Hint Resolve fueled_fieldPrintf fueled_renderDrawText
  fueled_renderFill fueled_renderMesh fueled_renderEditable
  fueled_drawSelectionMarker fueled_drawBorder fueled_needsRender
  fueled_getActiveScrollable fueled_enterScrollable : fuel.

Lemma fueled_layoutRow layout field i more :
  fueled (layoutRow layout field i more).
Proof. unfold layoutRow, entry_at, undefined. fueling. Qed.

#[local] Hint Resolve fueled_layoutRow : fuel.

Lemma fueled_prepareRows layout field : fueled (prepareRows layout field).
Proof. unfold prepareRows, entry_at, undefined. fueling. Qed.

#[local] Hint Resolve fueled_prepareRows : fuel.

Section FueledRender.

Variable recur : lptr -> bool -> M bool.
Hypothesis fueled_recur : forall p b, fueled (recur p b).

Lemma fueled_renderers v p : fueled (renderers recur v p).
Proof using fueled_recur.
  destruct v; cbn [renderers]; auto with fuel nocore.
  - unfold renderScrollable, renderActiveScrollable. fueling.
  - unfold renderEnd. apply fueled_fail. discriminate.
Qed.

Lemma fueled_renderOne forceRender mpressed p acc :
  fueled (renderOne recur forceRender mpressed p acc).
Proof using fueled_recur.
  pose proof fueled_renderers as Hr.
  unfold renderOne. fueling.
Qed.

Lemma fueled_forLayouts {A} (body : lptr -> A -> M A) :
  (forall p acc, fueled (body p acc)) ->
  forall k p acc, fueled (forLayouts k body p acc).
Proof.
  intros Hbody. induction k as [|k IH]; intros p acc; cbn [forLayouts].
  - apply fueled_fail. discriminate.
  - apply fueled_bind; [apply fueled_getLayout | intros l].
    destruct (lfield l); [|apply fueled_ret].
    apply fueled_bind; [apply Hbody | intros acc']. apply IH.
Qed.

Lemma fueled_renderLayoutsBody p forceRender :
  fueled (renderLayoutsBody recur p forceRender).
Proof using fueled_recur.
  unfold renderLayoutsBody.
  apply fueled_bind; [apply fueled_gets | intros mp].
  apply fueled_bind; [apply fueled_gets | intros n].
  apply fueled_bind;
    [apply fueled_forLayouts; intros; apply fueled_renderOne | intros acc].
  apply fueled_bind;
    [apply fueled_forLayouts; intros; unfold clearDirty; fueling | intros _].
  fueling.
Qed.

End FueledRender.

(** X14.  A sequence of layouts that shows no scrollable is rendered without
    recursion: the result of [renderLayouts] on it is the same at every
    nesting depth from 1 on, and the call never stops for lack of depth.
    When it returns, every field of the sequence is clean. *)
Theorem renderLayouts_flat_needs_no_depth (d : nat) (p : lptr)
    (forceRender : bool) (s : state) :
  flat_sequence s p ->
  renderLayouts (S d) p forceRender s = renderLayouts 1 p forceRender s /\
  renderLayouts (S d) p forceRender s <> OutOfFuel /\
  forall b s',
    renderLayouts (S d) p forceRender s = Ok b s' ->
    forall j fp, referenced s p j fp -> dirty_at s' fp = Some false.
Proof.
  intros Hflat.
  split; [cbn [renderLayouts]; now apply renderLayoutsBody_flat|]. split.
  - cbn [renderLayouts].
    rewrite (renderLayoutsBody_flat (renderLayouts d) (fun _ _ => undefined)
               p forceRender s Hflat).
    apply fueled_renderLayoutsBody. intros q b s0. discriminate.
  - intros b s' Hrun.
    destruct (renderLayouts_flat_sequence_clean _ _ _ _ _ _ Hrun Hflat)
      as [_ Hclean].
    exact Hclean.
Qed.

(** The text of [twice_shown], drawn at depth 3 as at depth 1, is clean
    afterwards. *)
Lemma renderLayouts_flat_needs_no_depth_witness :
  renderLayouts 3 5%nat false Examples.twice_shown
  = renderLayouts 1 5%nat false Examples.twice_shown /\
  exists s',
    renderLayouts 3 5%nat false Examples.twice_shown = Ok true s' /\
    dirty_at s' 6%nat = Some false.
Proof.
  destruct (renderLayouts_flat_needs_no_depth 2 5%nat false
              Examples.twice_shown twice_shown_flat)
    as (Hsame & _ & Hclean).
  split; [exact Hsame|].
  destruct (renderLayouts 3 5%nat false Examples.twice_shown)
    as [b s'| | |] eqn:E; try (vm_compute in Hsame; discriminate).
  assert (b = true) as -> by (vm_compute in Hsame; now injection Hsame).
  exists s'. split; [reflexivity|].
  apply (Hclean true s' eq_refl 1%nat). split.
  - intros i Hi. assert (i = 0%nat) as -> by lia. eexists. reflexivity.
  - reflexivity.
Defined.

(** ** Writing and reading an editable *)

Lemma wrap_s_mod bits z :
  0 < bits -> - 2 ^ (bits - 1) <= z < 2 ^ (bits - 1) ->
  wrap_s bits (z mod 2 ^ bits) = z.
Proof.
  intros Hb Hz. unfold wrap_s.
  rewrite Zplus_mod_idemp_l. apply (wrap_s_small bits z Hb Hz).
Qed.

(** X15.  A value written with [setEditableNumber] is read back unchanged
    by [getEditableNumber] when it is a value of the type that the read
    goes through: 0..255 for one byte, [int16_t] for two bytes and
    [int32_t] for four.  The write changes no field and no byte outside the
    cell. *)
Theorem set_get_editable_round_trip (s : state) (p : fptr) (f : Field)
    (sz : nat) (v : Z) :
  fields s !! p = Some f ->
  esize (editable f) = Z.of_nat sz -> (sz = 1 \/ sz = 2 \/ sz = 4)%nat ->
  (target (editable f) + sz <= length (mem s))%nat ->
  read_back sz v ->
  exists s',
    setEditableNumber p v s = Ok tt s' /\
    getEditableNumber p s' = Ok v s' /\
    fields s' = fields s /\
    length (mem s') = length (mem s) /\
    forall i, (i < target (editable f) \/ target (editable f) + sz <= i)%nat ->
              mem s' !! i = mem s !! i.
Proof.
  intros Hf Hsz Hn Hb Hv.
  set (m' := store_le sz (target (editable f)) (v mod 256 ^ Z.of_nat sz)
               (mem s)).
  exists (set_mem m' s).
  split; [now apply setEditableNumber_Ok|].
  assert (Hload : load sz (target (editable f)) (set_mem m' s)
                  = Ok (v mod 256 ^ Z.of_nat sz) (set_mem m' s)).
  { unfold load. cbn [mem set_mem]. subst m'.
    rewrite load_store_le by exact Hb.
    rewrite Z.mod_mod by (apply Z.pow_nonzero; lia). reflexivity. }
  split; [|split; [reflexivity|split]].
  - unfold getEditableNumber.
    rewrite (bind_Ok _ _ (set_mem m' s) f (set_mem m' s))
      by (apply getField_Ok; exact Hf).
    rewrite Hsz. unfold read_back in Hv.
    destruct Hn as [-> | [-> | ->]]; red_size; cbn [Nat.eqb] in Hv.
    + rewrite Hload. f_equal. apply Z.mod_small. cbn. lia.
    + rewrite (bind_Ok _ _ _ _ _ Hload). unfold ret. f_equal.
      apply (wrap_s_mod 16 v); lia.
    + rewrite (bind_Ok _ _ _ _ _ Hload). unfold ret. f_equal.
      apply (wrap_s_mod 32 v); lia.
  - cbn [mem set_mem]. subst m'. apply store_le_length.
  - intros i Hi. cbn [mem set_mem]. subst m'. now apply store_le_outside.
Qed.

(** -2 written to the two-byte cell of "Wheel" is read back as -2. *)
Lemma set_get_editable_round_trip_witness :
  exists s',
    setEditableNumber 6%nat (-2) Examples.wheel_state = Ok tt s' /\
    getEditableNumber 6%nat s' = Ok (-2) s' /\
    mem s' = [Byte.xfe; Byte.xff].
Proof.
  destruct (set_get_editable_round_trip Examples.wheel_state 6%nat
              (FIELD_EDITABLE_UINT "Wheel" 0 2 "mm" 0 65535 0) 2 (-2))
    as (s' & Hset & Hget & _).
  - reflexivity.
  - reflexivity.
  - right. left. reflexivity.
  - cbn. lia.
  - unfold read_back. cbn. lia.
  - exists s'. split; [exact Hset|]. split; [exact Hget|].
    vm_compute in Hset. injection Hset as <-. reflexivity.
Defined.

(** ** When an editable is drawn again *)

Lemma set_display_same s : set_display (display s ++ []) s = s.
Proof. rewrite app_nil_r. now destruct s. Qed.

Lemma draws_only_reads {A} (m : M A) : reads m -> draws_only m.
Proof.
  intros H s a s' E. rewrite (H _ _ _ E). exists [].
  symmetry. apply set_display_same.
Qed.

Lemma draws_only_emit op : draws_only (emit op).
Proof. intros s a s' E. inversion E; subst. now exists [op]. Qed.

Lemma draws_only_fail {A} (o : outcome A) :
  (forall a s, o <> Ok a s) -> draws_only (fun _ => o).
Proof. intros H s a s' E. now elim (H a s'). Qed.

Lemma draws_only_bind {A B} (m : M A) (k : A -> M B) :
  draws_only m -> (forall a, draws_only (k a)) -> draws_only (bind m k).
Proof.
  intros Hm Hk s b s' H. apply bind_inv_Ok in H.
  destruct H as (a & s1 & H1 & H2).
  destruct (Hm _ _ _ H1) as (o1 & ->). destruct (Hk _ _ _ _ H2) as (o2 & ->).
  exists (o1 ++ o2). cbn [display set_display]. now rewrite app_assoc.
Qed.

Lemma draws_only_when b (m : M unit) : draws_only m -> draws_only (when b m).
Proof.
  intros H. destruct b; [exact H|]. apply draws_only_reads, reads_ret.
Qed.

Ltac draws_step :=
  first
    [ apply draws_only_emit
    | apply draws_only_reads; solve [reading]
    | apply draws_only_fail; discriminate
    | apply draws_only_when
    | apply draws_only_bind; [|intros ?]
    | match goal with
      | |- draws_only (if ?b then _ else _) => destruct b
      | |- draws_only (match ?x with _ => _ end) => destruct x
      end ].

Ltac drawing := repeat draws_step.

Lemma load_frame s s2 n a u s1 :
  mem s2 = mem s -> load n a s = Ok u s1 -> load n a s2 = Ok u s2.
Proof.
  intros Hm. unfold load. rewrite Hm.
  destruct (load_le n a (mem s)); [|discriminate]. now intros [= <-].
Qed.

Lemma getEditableNumber_frame s s2 p v :
  fields s2 = fields s -> mem s2 = mem s ->
  getEditableNumber p s = Ok v s -> getEditableNumber p s2 = Ok v s2.
Proof.
  intros Hf Hm H. unfold getEditableNumber in *.
  apply bind_inv_Ok in H. destruct H as (f & s1 & Hg & H).
  pose proof (reads_getField _ _ _ _ Hg) as ->.
  assert (Hg2 : getField p s2 = Ok f s2).
  { unfold getField in *. rewrite Hf.
    destruct (fields s !! p); [|discriminate]. now injection Hg as ->. }
  rewrite (bind_Ok _ _ _ _ _ Hg2). cbv zeta in *.
  destruct (esize (editable f) =? 1); [exact (load_frame _ _ _ _ _ _ Hm H)|].
  destruct (esize (editable f) =? 2).
  { apply bind_inv_Ok in H. destruct H as (u & s1 & Hu & H).
    rewrite (bind_Ok _ _ _ _ _ (load_frame _ _ _ _ _ _ Hm Hu)).
    inversion H; subst. reflexivity. }
  destruct (esize (editable f) =? 4); [|discriminate].
  apply bind_inv_Ok in H. destruct H as (u & s1 & Hu & H).
  rewrite (bind_Ok _ _ _ _ _ (load_frame _ _ _ _ _ _ Hm Hu)).
  inversion H; subst. reflexivity.
Qed.

(** X16.  Outside an editing step, [renderEditable] draws an editable again
    exactly when its field is dirty, when the stored value differs from the
    value drawn last at this layout, or when the label mode has changed.
    When none of these holds it returns [false] after selecting the colour
    and draws nothing.  Otherwise a call that returns has returned [true]
    and remembers the stored value as the one drawn last; it has changed no
    field and no stored value. *)
Theorem renderEditable_draws_on_change (s : state) (p : lptr)
    (l : FieldLayout) (fp : fptr) (f : Field) (v : Z) :
  layouts s !! p = Some l -> lfield l = Some fp ->
  fields s !! fp = Some f ->
  fptr_eqb (curActiveEditable s) fp && blinkChanged s
  && negb (read_only (editable f)) = false ->
  getEditableNumber fp s = Ok v s ->
  let due := dirty f || negb (to_uint32 v =? old_editable l)
             || negb (Bool.eqb (forceLabels s) (oldForceLabels s)) in
  (due = false ->
   renderEditable p s
   = Ok false
       (set_display (display s ++ [UG_SetForecolor (getForeColor l)]) s)) /\
  (due = true ->
   forall b s',
     renderEditable p s = Ok b s' ->
     b = true /\
     old_editable <$> (layouts s' !! p) = Some (to_uint32 v) /\
     fields s' = fields s /\ mem s' = mem s).
Proof.
  intros Hl Hfp Hf Hguard Hv due.
  set (se := set_display (display s ++ [UG_SetForecolor (getForeColor l)]) s).
  set (num := to_uint32 v) in *.
  set (s2 := if negb (num =? old_editable l)
             then set_layouts (<[p := set_old_editable num l]> (layouts se)) se
             else se).
  assert (Hve : getEditableNumber fp se = Ok v se)
    by (apply (getEditableNumber_frame s); [reflexivity | reflexivity | exact Hv]).
  unfold renderEditable.
  rewrite (bind_Ok _ _ _ _ _ (getLayout_Ok _ _ _ Hl)), Hfp. cbn [deref].
  rewrite (bind_Ok _ _ s fp s) by reflexivity.
  rewrite (bind_Ok _ _ _ _ _ (getField_Ok _ _ _ Hf)).
  cbv zeta.
  rewrite (bind_Ok _ _ s (curActiveEditable s) s) by reflexivity.
  rewrite (bind_Ok _ _ s tt se) by reflexivity.
  rewrite (bind_Ok _ _ se (blinkChanged s) se) by reflexivity.
  rewrite Hguard. cbn [when].
  rewrite (bind_Ok _ _ se tt se) by reflexivity.
  rewrite (bind_Ok _ _ _ _ _ Hve). fold num.
  rewrite (bind_Ok _ _ se l se) by (apply getLayout_Ok; exact Hl).
  rewrite (bind_Ok _ _ se (dirty f || negb (num =? old_editable l)) s2).
  2:{ subst s2. destruct (negb (num =? old_editable l)).
      - rewrite (bind_Ok _ _ se tt
                   (set_layouts (<[p := set_old_editable num l]> (layouts se))
                      se)).
        + now rewrite orb_true_r.
        + unfold modLayout. cbn [layouts set_display se]. subst se.
          cbn [layouts set_display]. now rewrite Hl.
      - now rewrite orb_false_r. }
  assert (Hs2 : forceLabels s2 = forceLabels s /\
                oldForceLabels s2 = oldForceLabels s /\
                fields s2 = fields s /\ mem s2 = mem s /\
                old_editable <$> (layouts s2 !! p) = Some num).
  { subst s2. destruct (Z.eqb_spec num (old_editable l)) as [E|N]; cbn [negb].
    - repeat split. subst se. cbn [layouts set_display]. rewrite Hl. cbn.
      now rewrite E.
    - repeat split. cbn [layouts set_layouts].
      rewrite list_lookup_insert_eq; [reflexivity|].
      subst se. cbn [layouts set_display]. eapply lookup_lt_Some; eauto. }
  destruct Hs2 as (Hfl & Hofl & Hfs & Hmem & Hold).
  rewrite (bind_Ok _ _ s2 (forceLabels s) s2)
    by (unfold gets; now rewrite Hfl).
  rewrite (bind_Ok _ _ s2 (oldForceLabels s) s2)
    by (unfold gets; now rewrite Hofl).
  replace (if negb (Bool.eqb (forceLabels s) (oldForceLabels s)) then true
           else dirty f || negb (num =? old_editable l)) with due
    by (subst due; fold num;
        destruct (Bool.eqb (forceLabels s) (oldForceLabels s));
        cbn [negb]; now rewrite ?orb_true_r, ?orb_false_r).
  split.
  - intros Edue. rewrite Edue. cbn [negb].
    assert (E2 : s2 = se).
    { subst s2. subst due. apply orb_false_elim in Edue.
      destruct Edue as [Edue _]. apply orb_false_elim in Edue.
      destruct Edue as [_ Edue]. now rewrite Edue. }
    rewrite E2. reflexivity.
  - intros Edue b s' H. rewrite Edue in H. cbn [negb] in H.
    assert (Hdraw : exists ops, s' = set_display (display s2 ++ ops) s2).
    { revert H. refine ((_ : draws_only _) s2 b s').
      unfold fillFrame, putString, drawLine. drawing. }
    destruct Hdraw as (ops & ->).
    split; [|now repeat split].
    repeat (apply bind_inv_Ok in H;
            let x := fresh in let y := fresh in
            destruct H as (x & y & _ & H)).
    now inversion H.
Qed.

(** The first drawing of "Level" remembers the 5 that it shows; drawing it
    again at once draws nothing. *)
Lemma renderEditable_draws_on_change_witness :
  exists s',
    renderEditable 5%nat level_shown = Ok true s' /\
    old_editable <$> (layouts s' !! 5%nat) = Some 5 /\
    exists s'', renderEditable 5%nat s' = Ok false s'' /\
                display s'' = display s' ++ [UG_SetForecolor C_WHITE].
Proof.
  destruct (renderEditable 5%nat level_shown) as [b s'| | |] eqn:E;
    try (vm_compute in E; discriminate).
  destruct (renderEditable_draws_on_change level_shown 5%nat
              (set_lheight 24 (set_lwidth 64 (layoutOf 0 0 6))) 6%nat
              (FIELD_EDITABLE_UINT "Level" 0 1 EmptyString 0 9 0) 5)
    as [_ Hdue]; try reflexivity.
  destruct (Hdue eq_refl b s' E) as (-> & Hold & _).
  exists s'. split; [reflexivity|]. split; [exact Hold|].
  vm_compute in E. injection E as <-.
  eexists. split; [vm_compute; reflexivity | reflexivity].
Defined.

(** ** A collapsed scrollable takes over the rows *)

Lemma modLayout_inv p g s u s' :
  modLayout p g s = Ok u s' ->
  exists l, layouts s !! p = Some l /\
            s' = set_layouts (<[p := g l]> (layouts s)) s.
Proof.
  unfold modLayout. destruct (layouts s !! p) as [l|]; [|discriminate].
  intros H. inversion H; subst. eauto.
Qed.

Lemma modField_inv p g s u s' :
  modField p g s = Ok u s' ->
  exists f, fields s !! p = Some f /\
            s' = set_fields (<[p := g f]> (fields s)) s.
Proof.
  unfold modField. destruct (fields s !! p) as [f|]; [|discriminate].
  intros H. inversion H; subst. eauto.
Qed.

Lemma fieldPrintf_layouts p str s u s' :
  fieldPrintf p str s = Ok u s' -> layouts s' = layouts s.
Proof.
  unfold fieldPrintf. intros H.
  apply bind_inv_Ok in H. destruct H as (f & s1 & Hf & H).
  pose proof (reads_getField _ _ _ _ Hf) as ->.
  destruct (strcmp_ne _ _); [|now inversion H].
  apply bind_inv_Ok in H. destruct H as (? & s1 & H1 & H).
  apply modField_inv in H1. destruct H1 as (? & _ & ->).
  apply modField_inv in H. destruct H as (? & _ & ->). reflexivity.
Qed.

Section TakingRows.

Variables (s0 : state) (p : lptr) (l : FieldLayout).

(** A step that writes [rows[0]], from the layout at [p] or not. *)
Lemma taking_rows_write (Q Q' : FieldLayout -> Prop)
    (g : FieldLayout -> FieldLayout -> FieldLayout) s s' :
  (forall a r, geom a = geom l -> Q r -> Q' (g a r)) ->
  (forall a, geom a = geom l -> geom (g a a) = geom l) ->
  taking_rows s0 p (geom l) Q s ->
  (let* a := getLayout p in modLayout rows (g a)) s = Ok tt s' ->
  taking_rows s0 p (geom l) Q' s' /\ fields s' = fields s.
Proof.
  intros HQ Hgeom (Hrest & (lp & Hlp & Hg) & (r & Hr & HQr)) H.
  apply bind_inv_Ok in H. destruct H as (a & s1 & Ha & H).
  pose proof (reads_getLayout _ _ _ _ Ha) as ->.
  unfold getLayout in Ha. rewrite Hlp in Ha. injection Ha as <-.
  apply modLayout_inv in H. destruct H as (r' & Hr' & ->).
  rewrite Hr in Hr'. injection Hr' as <-.
  assert (Hlen : (rows < length (layouts s))%nat)
    by (eapply lookup_lt_Some; eauto).
  split; [|reflexivity]. unfold taking_rows. cbn [layouts set_layouts].
  split; [|split].
  - intros q Hq. rewrite list_lookup_insert_ne by (unfold rows; lia).
    now apply Hrest.
  - destruct (Nat.eq_dec p rows) as [-> | Np].
    + exists (g lp r). split; [now apply list_lookup_insert_eq|].
      rewrite Hlp in Hr. injection Hr as <-. now apply Hgeom.
    + exists lp. split; [|exact Hg].
      rewrite list_lookup_insert_ne by auto. exact Hlp.
  - exists (g lp r). split; [now apply list_lookup_insert_eq|]. now apply HQ.
Qed.

(** A step that leaves the layouts alone. *)
Lemma taking_rows_keep (Q : FieldLayout -> Prop) s s' :
  layouts s' = layouts s ->
  taking_rows s0 p (geom l) Q s -> taking_rows s0 p (geom l) Q s'.
Proof. unfold taking_rows. now intros ->. Qed.

End TakingRows.

(** X17.  Drawing a collapsed scrollable takes over the rows: whatever
    [rows] held, after [renderActiveScrollable] has laid out a scrollable
    that is not the active one, [rows] is a sequence of exactly one layout,
    which shows [label] in the rectangle of the scrollable's own layout,
    and [rows[1]] is the sentinel.  No layout other than [rows[0]] and
    [rows[1]] has changed.  This holds also when the scrollable's layout is
    itself one of the rows. *)
Theorem collapsed_scrollable_takes_rows (s : state) (p : lptr) (field : fptr)
    (l : FieldLayout) (sc : option fptr) (s' : state) :
  layouts s !! p = Some l ->
  getActiveScrollable s = Ok sc s ->
  fptr_eqb sc field = false ->
  prepareRows p field s = Ok tt s' ->
  sequence_of s' rows 1 (fun _ => True) /\
  (exists r, layouts s' !! rows = Some r /\
             lfield r = Some label_field /\ geom r = geom l) /\
  (forall q, (2 <= q)%nat -> layouts s' !! q = layouts s !! q).
Proof.
  intros Hl Ha Hne H. unfold prepareRows in H.
  rewrite (bind_Ok _ _ _ _ _ Ha) in H. cbv zeta in H. rewrite Hne in H.
  (* the four copies of the rectangle *)
  apply bind_inv_Ok in H. destruct H as ([] & s1 & H1 & H).
  apply bind_inv_Ok in H. destruct H as ([] & s2 & H2 & H).
  apply bind_inv_Ok in H. destruct H as ([] & s3 & H3 & H).
  apply bind_inv_Ok in H. destruct H as ([] & s4 & H4 & H).
  apply bind_inv_Ok in H. destruct H as ([] & s5 & H5 & H).
  apply bind_inv_Ok in H. destruct H as (f & s6 & H6 & H).
  pose proof (reads_getField _ _ _ _ H6) as ->.
  apply bind_inv_Ok in H. destruct H as ([] & s7 & H7 & H).
  apply bind_inv_Ok in H. destruct H as ([] & s8 & H8 & H).
  apply bind_inv_Ok in H. destruct H as ([] & s9 & H9 & H).
  apply bind_inv_Ok in H. destruct H as ([] & s10 & H10 & H).
  apply bind_inv_Ok in H. destruct H as ([] & s11 & H11 & H).
  assert (T0 : taking_rows s p (geom l) (fun _ => True) s).
  { split; [auto|]. split; [eauto|].
    apply modLayout_inv in H5. destruct H5 as (r5 & Hr5 & _).
    apply bind_inv_Ok in H1. destruct H1 as (? & ? & Hg & H1).
    pose proof (reads_getLayout _ _ _ _ Hg) as ->.
    apply modLayout_inv in H1. destruct H1 as (r & Hr & _). eauto. }
  assert (T1 : taking_rows s p (geom l) (fun r => lx r = lx l) s1).
  { refine (proj1 (taking_rows_write s p l (fun _ => True) _
                     (fun a => set_lx (lx a)) s s1 _ _ T0 H1)).
    - intros a r Hg _. unfold geom in Hg. cbn. congruence.
    - intros a Hg. unfold geom in *. cbn. congruence. }
  assert (T2 : taking_rows s p (geom l)
                 (fun r => lx r = lx l /\ ly r = ly l) s2).
  { refine (proj1 (taking_rows_write s p l (fun r => lx r = lx l) _
                     (fun a => set_ly (ly a)) s1 s2 _ _ T1 H2)).
    - intros a r Hg Hq. unfold geom in Hg. cbn. split; congruence.
    - intros a Hg. unfold geom in *. cbn. congruence. }
  assert (T3 : taking_rows s p (geom l)
                 (fun r => lx r = lx l /\ ly r = ly l /\ lwidth r = lwidth l)
                 s3).
  { refine (proj1 (taking_rows_write s p l
                     (fun r => lx r = lx l /\ ly r = ly l) _
                     (fun a => set_lwidth (lwidth a)) s2 s3 _ _ T2 H3)).
    - intros a r Hg (Hx & Hy). unfold geom in Hg. cbn.
      repeat split; congruence.
    - intros a Hg. unfold geom in *. cbn. congruence. }
  assert (T4 : taking_rows s p (geom l) (fun r => geom r = geom l) s4).
  { refine (proj1 (taking_rows_write s p l
                     (fun r => lx r = lx l /\ ly r = ly l /\
                               lwidth r = lwidth l) _
                     (fun a => set_lheight (lheight a)) s3 s4 _ _ T3 H4)).
    - intros a r Hg (Hx & Hy & Hw). unfold geom in *. cbn. congruence.
    - intros a Hg. unfold geom in *. cbn. congruence. }
  (* the other members of rows[0] *)
  assert (Hwrite : forall (Q Q' : FieldLayout -> Prop) g sa sb,
             (forall r, Q r -> Q' (g r)) ->
             (forall r, geom (g r) = geom r) ->
             taking_rows s p (geom l) Q sa ->
             modLayout rows g sa = Ok tt sb ->
             taking_rows s p (geom l) Q' sb /\ fields sb = fields sa).
  { intros Q Q' g sa sb HQ Hgeom T Hm.
    destruct T as (Trest & (lp & Tlp & Tg) & Trow).
    apply (taking_rows_write s p l Q Q' (fun _ => g) sa sb).
    - intros a r _. apply HQ.
    - intros a Hga. now rewrite Hgeom.
    - split; [exact Trest|]. split; [eauto | exact Trow].
    - rewrite (bind_Ok _ _ sa lp sa); [exact Hm|].
      unfold getLayout. now rewrite Tlp. }
  destruct (Hwrite (fun r => geom r = geom l) (fun r => geom r = geom l)
              (set_lborder BorderNone) _ _
              (fun r H => H) (fun r => eq_refl) T4 H5) as [T5 _].
  pose proof (taking_rows_keep s p l _ s5 s7 (fieldPrintf_layouts _ _ _ _ _ H7)
                T5) as T7.
  destruct (Hwrite (fun r => geom r = geom l)
              (fun r => geom r = geom l /\ lfield r = Some label_field)
              (set_lfield (Some label_field)) _ _
              (fun r H => conj H eq_refl) (fun r => eq_refl) T7 H8)
    as [T8 _].
  destruct (Hwrite (fun r => geom r = geom l /\ lfield r = Some label_field)
              (fun r => geom r = geom l /\ lfield r = Some label_field)
              (set_lcolor ColorNormal) _ _
              (fun r H => H) (fun r => eq_refl) T8 H9) as [T9 _].
  destruct (Hwrite (fun r => geom r = geom l /\ lfield r = Some label_field)
              (fun r => geom r = geom l /\ lfield r = Some label_field)
              (set_lfont (Some scrollable_font)) _ _
              (fun r H => H) (fun r => eq_refl) T9 H10) as [T10 _].
  (* the selection flag of [label] *)
  assert (H11' : layouts s11 = layouts s10 /\
                 is_Some (fields s11 !! label_field)).
  { destruct sc as [a|].
    - apply bind_inv_Ok in H11. destruct H11 as (af & sa & Haf & H11).
      pose proof (reads_getField _ _ _ _ Haf) as ->.
      apply bind_inv_Ok in H11. destruct H11 as (sel & sa & Hsel & H11).
      pose proof (reads_entry_at _ _ _ _ _ Hsel) as ->.
      apply modField_inv in H11. destruct H11 as (lf & Hlf & ->).
      split; [reflexivity|]. cbn [fields set_fields].
      apply lookup_lt_is_Some_2. rewrite length_insert.
      eapply lookup_lt_Some; eauto.
    - apply modField_inv in H11. destruct H11 as (lf & Hlf & ->).
      split; [reflexivity|]. cbn [fields set_fields].
      apply lookup_lt_is_Some_2. rewrite length_insert.
      eapply lookup_lt_Some; eauto. }
  destruct H11' as [Hl11 [lf Hlf]].
  pose proof (taking_rows_keep s p l _ s10 s11 Hl11 T10)
    as (Trest & _ & (r & Hr & Hgr & Hfr)).
  (* the sentinel *)
  apply modLayout_inv in H. destruct H as (r1 & Hr1 & ->).
  cbn [layouts fields set_layouts].
  assert (Hrow0 : <[(rows + 1)%nat := set_lfield None r1]> (layouts s11)
                    !! rows = Some r).
  { rewrite list_lookup_insert_ne by (unfold rows; lia). exact Hr. }
  assert (Hrow1 : <[(rows + 1)%nat := set_lfield None r1]> (layouts s11)
                    !! (rows + 1)%nat = Some (set_lfield None r1)).
  { apply list_lookup_insert_eq. eapply lookup_lt_Some; eauto. }
  split; [|split].
  - split.
    + intros i Hi. assert (i = 0%nat) as -> by lia.
      exists label_field, lf. unfold field_of_layout.
      cbn [layouts fields set_layouts]. rewrite Nat.add_0_r, Hrow0. cbn.
      rewrite Hfr. auto.
    + unfold field_of_layout. cbn [layouts set_layouts]. now rewrite Hrow1.
  - exists r. auto.
  - intros q Hq. rewrite list_lookup_insert_ne by (unfold rows; lia).
    now apply Trest.
Qed.

(** The collapsed submenu "Assist", drawn from [rows[2]] of the expanded
    root menu, leaves one row in [rows]: the sequence that the render loop
    was walking now ends at [rows[1]]. *)
Lemma collapsed_scrollable_takes_rows_witness :
  field_of_layout Examples.menu_rows_call 1%nat = Some (Some 7%nat) /\
  exists s',
    prepareRows 2%nat 8%nat Examples.menu_rows_call = Ok tt s' /\
    field_of_layout s' 0%nat = Some (Some label_field) /\
    field_of_layout s' 1%nat = Some None.
Proof.
  split; [vm_compute; reflexivity|].
  destruct (prepareRows 2%nat 8%nat Examples.menu_rows_call)
    as [[] s'| | |] eqn:E; try (vm_compute in E; discriminate).
  destruct (layouts Examples.menu_rows_call !! 2%nat) as [l|] eqn:El;
    [|vm_compute in El; discriminate].
  destruct (collapsed_scrollable_takes_rows Examples.menu_rows_call 2%nat
              8%nat l (Some 6%nat) s' El)
    as ([_ Hend] & (r & Hr & Hfr & _) & _).
  - vm_compute. reflexivity.
  - reflexivity.
  - exact E.
  - exists s'. split; [reflexivity|]. split; [|exact Hend].
    unfold field_of_layout. change 0%nat with rows. rewrite Hr. cbn.
    now rewrite Hfr.
Defined.


(** ** One data row of an expanded scrollable *)

Lemma modLayout_Ok s p l g :
  layouts s !! p = Some l ->
  modLayout p g s = Ok tt (set_layouts (<[p := g l]> (layouts s)) s).
Proof. intros H. unfold modLayout. now rewrite H. Qed.

(** A write to the row [r], whose current value is [R]. *)
Lemma row_write t r (g : FieldLayout -> FieldLayout) L0 R :
  layouts t = <[r := R]> L0 -> (r < length L0)%nat ->
  modLayout r g t = Ok tt (set_layouts (<[r := g R]> L0) t).
Proof.
  intros H Hr. unfold modLayout.
  rewrite H, list_lookup_insert_eq by exact Hr.
  now rewrite list_insert_insert_eq.
Qed.

(** The same after a read of the layout at [p], which is not the row. *)
Lemma row_copy t p r (g : FieldLayout -> FieldLayout -> FieldLayout) L0 R l :
  layouts t = <[r := R]> L0 -> (r < length L0)%nat ->
  p <> r -> L0 !! p = Some l ->
  (let* a := getLayout p in modLayout r (g a)) t
  = Ok tt (set_layouts (<[r := g l R]> L0) t).
Proof.
  intros H Hr Hp Hl.
  rewrite (bind_Ok _ _ t l t).
  - now apply row_write.
  - unfold getLayout. rewrite H, list_lookup_insert_ne by auto.
    now rewrite Hl.
Qed.

(** X18.  One turn of the loop that lays out the rows of an expanded
    scrollable, for a data row.  The row takes the rectangle of the
    scrollable's layout, 32 pixels further down per row and 31 pixels
    high.  While no End entry has been met it shows the entry, whose
    [is_selected] flag says whether it is the selected one, and keeps the
    colour it had; from the End entry on it shows its blank field as an
    inverted fill.  The entry is marked dirty in either case, also when it
    is the End entry or lies after it, and [rows[MAX_SCROLLABLE_ROWS]] is
    made the sentinel.  No other layout and no other field changes. *)
Theorem layoutRow_entry_or_blank (s : state) (p : lptr) (field : fptr)
    (i : Z) (more : bool) (l r0 r4 : FieldLayout) (f : Field) (e : fptr)
    (fe fb : Field) :
  let r := (rows + Z.to_nat i)%nat in
  let last := (rows + Z.to_nat MAX_SCROLLABLE_ROWS)%nat in
  let entryNum := first (scrollable f) + i - 1 in
  let entry := (e + Z.to_nat entryNum)%nat in
  let blank := (blankRows + Z.to_nat i)%nat in
  let more' := more && negb (FieldVariant_eqb (variant fe) FieldEnd) in
  let shown := if more' then entry else blank in
  1 <= i <= 3 ->
  (first_user_layout <= p)%nat -> layouts s !! p = Some l ->
  layouts s !! r = Some r0 -> layouts s !! last = Some r4 ->
  fields s !! field = Some f -> entries (scrollable f) = Some e ->
  0 <= entryNum ->
  (first_user_field <= entry)%nat -> fields s !! entry = Some fe ->
  fields s !! blank = Some fb ->
  exists s' r',
    layoutRow p field i more s = Ok more' s' /\
    layouts s' !! r = Some r' /\
    geom r' = (lx l, to_int16 (ly l + 32 * i), lwidth l, 31) /\
    lfield r' = Some shown /\
    lcolor r' = (if more' then lcolor r0 else ColorInvert) /\
    field_of_layout s' last = Some None /\
    dirty_at s' entry = Some true /\
    dirty_at s' shown = Some true /\
    (more' = true ->
     is_selected <$> (fields s' !! entry)
     = Some (entryNum =? selected (scrollable f))) /\
    (more' = false -> variant_at s' blank = Some FieldFill) /\
    (forall q, q <> r -> q <> last -> layouts s' !! q = layouts s !! q) /\
    (forall q, q <> entry -> q <> blank -> fields s' !! q = fields s !! q).
Proof.
  intros r last entryNum entry blank more' shown Hi Hp Hl Hr0 Hr4 Hf He Hnum
    Hentry Hfe Hfb.
  unfold first_user_layout in Hp. unfold first_user_field in Hentry.
  assert (Hrlt : (r < length (layouts s))%nat) by (eapply lookup_lt_Some; eauto).
  assert (Hr : (1 <= r <= 3)%nat) by (subst r; unfold rows; lia).
  assert (Hlast : last = 4%nat) by reflexivity.
  assert (Hblank : (3 <= blank <= 5)%nat)
    by (subst blank; unfold blankRows; lia).
  assert (Hpr : p <> r) by lia.
  assert (H0 : layouts s = <[r := r0]> (layouts s))
    by (symmetry; now apply list_insert_id).
  set (L0 := layouts s) in *. set (F0 := fields s) in *.
  set (y' := to_int16 (ly l + rowHeight * i)).
  set (R1 := set_lx (lx l) r0).
  set (R2 := set_ly y' R1).
  set (R3 := set_lwidth (lwidth l) R2).
  set (R4 := set_lheight (rowHeight - 1) R3).
  set (R5 := set_lborder BorderNone R4).
  unfold layoutRow. cbv zeta. fold r.
  set (t1 := set_layouts (<[r := R1]> L0) s).
  set (t2 := set_layouts (<[r := R2]> L0) s).
  set (t3 := set_layouts (<[r := R3]> L0) s).
  set (t4 := set_layouts (<[r := R4]> L0) s).
  rewrite (bind_Ok _ _ s tt t1)
    by (apply (row_copy s p r (fun a => set_lx (lx a)) L0 r0 l); auto).
  rewrite (bind_Ok _ _ t1 tt t2)
    by (apply (row_copy t1 p r
                 (fun a => set_ly (to_int16 (ly a + rowHeight * i)))
                 L0 R1 l); auto).
  rewrite (bind_Ok _ _ t2 tt t3)
    by (apply (row_copy t2 p r (fun a => set_lwidth (lwidth a)) L0 R2 l);
        auto).
  rewrite (bind_Ok _ _ t3 tt t4)
    by (apply (row_write t3 r _ L0 R3); auto).
  rewrite (bind_Ok _ _ t4 tt (set_layouts (<[r := R5]> L0) s))
    by (apply (row_write t4 r _ L0 R4); auto).
  destruct (Z.eqb_spec i 0) as [|_]; [lia|].
  set (t5 := set_layouts (<[r := R5]> L0) s).
  unfold bind at 1.
  rewrite (bind_Ok _ _ t5 f t5) by (apply getField_Ok; exact Hf).
  rewrite He.
  rewrite (bind_Ok _ _ t5 entry t5).
  2:{ unfold entry_at. cbn [deref]. rewrite (bind_Ok _ _ t5 e t5) by reflexivity.
      fold entryNum. destruct (Z.ltb_spec entryNum 0); [lia | reflexivity]. }
  set (fe1 := set_dirty true fe).
  set (F1 := <[entry := fe1]> F0).
  set (t6 := set_fields F1 t5).
  rewrite (bind_Ok _ _ t5 tt t6) by (apply (modField_Ok t5 entry fe); exact Hfe).
  assert (Helt : (entry < length F0)%nat) by (eapply lookup_lt_Some; eauto).
  assert (Hblt : (blank < length F0)%nat) by (eapply lookup_lt_Some; eauto).
  assert (Hfe1 : F1 !! entry = Some fe1)
    by (subst F1; now apply list_lookup_insert_eq).
  rewrite (bind_Ok _ _ t6 fe1 t6) by (apply getField_Ok; exact Hfe1).
  replace (if FieldVariant_eqb (variant fe1) FieldEnd then false else more)
    with more'
    by (subst more' fe1; cbn [variant set_dirty];
        destruct (FieldVariant_eqb (variant fe) FieldEnd), more; reflexivity).
  assert (Hl6 : layouts t6 = <[r := R5]> L0) by reflexivity.
  destruct more' eqn:Emore; subst shown.
  - (* the row shows the entry *)
    set (R6 := set_lfield (Some entry) R5).
    set (t7 := set_fields F1 (set_layouts (<[r := R6]> L0) s)).
    assert (Hf' : exists f', F1 !! field = Some f' /\
                             scrollable f' = scrollable f).
    { subst F1. destruct (Nat.eq_dec entry field) as [E|N].
      - exists fe1. rewrite E. split.
        + apply list_lookup_insert_eq. now rewrite <- E.
        + subst fe1. cbn. rewrite E in Hfe. fold F0 in Hf. congruence.
      - exists f. split; [|reflexivity].
        rewrite list_lookup_insert_ne by exact N. exact Hf. }
    destruct Hf' as (f' & Hf' & Hsc).
    set (fe2 := set_is_selected (entryNum =? selected (scrollable f)) fe1).
    set (F2 := <[entry := fe2]> F0).
    set (t8 := set_fields F2 (set_layouts (<[r := R6]> L0) s)).
    rewrite (bind_Ok _ _ t6 tt t8).
    2:{ rewrite (bind_Ok _ _ t6 tt t7)
          by (apply (row_write t6 r _ L0 R5); auto).
        rewrite (bind_Ok _ _ t7 f' t7) by (apply getField_Ok; exact Hf').
        rewrite Hsc. unfold modField. cbn [fields set_fields t7].
        rewrite Hfe1. subst t8 F2 F1. cbn [set_fields set_layouts].
        now rewrite list_insert_insert_eq. }
    set (fe3 := set_dirty true fe2).
    set (F3 := <[entry := fe3]> F0).
    set (t9 := set_fields F3 (set_layouts (<[r := R6]> L0) s)).
    rewrite (bind_Ok _ _ t8 tt t9).
    2:{ rewrite (bind_Ok _ _ t8 R6 t8).
        2:{ unfold getLayout. cbn [layouts set_fields set_layouts t8].
            now rewrite list_lookup_insert_eq. }
        cbn [lfield set_lfield R6 deref].
        rewrite (bind_Ok _ _ t8 entry t8) by reflexivity.
        unfold modField. cbn [fields set_fields t8]. subst F2.
        rewrite list_lookup_insert_eq by exact Helt.
        subst t9 F3. cbn [set_fields set_layouts].
        now rewrite list_insert_insert_eq. }
    change (ret true t9) with (Ok true t9). cbv beta iota.
    set (L7 := <[last := set_lfield None r4]> (<[r := R6]> L0)).
    set (t10 := set_fields F3 (set_layouts L7 s)).
    rewrite (bind_Ok _ _ t9 tt t10).
    2:{ unfold modLayout. cbn [layouts set_fields set_layouts t9].
        rewrite list_lookup_insert_ne by lia. fold last. rewrite Hr4.
        reflexivity. }
    exists t10, R6. split; [reflexivity|].
    cbn [layouts fields set_fields set_layouts t10].
    split; [subst L7; rewrite list_lookup_insert_ne by lia;
            now apply list_lookup_insert_eq|].
    split; [reflexivity|]. split; [reflexivity|]. split; [reflexivity|].
    split.
    { unfold field_of_layout. cbn [layouts set_fields set_layouts t10].
      subst L7. rewrite list_lookup_insert_eq; [reflexivity|].
      rewrite length_insert. eapply lookup_lt_Some; eauto. }
    assert (HF3 : F3 !! entry = Some fe3)
      by (subst F3; now apply list_lookup_insert_eq).
    split; [unfold dirty_at; cbn [fields set_fields t10]; now rewrite HF3|].
    split; [unfold dirty_at; cbn [fields set_fields t10]; now rewrite HF3|].
    split; [intros _; cbn [fields set_fields t10]; now rewrite HF3|].
    split; [discriminate|]. split.
    + intros q Hq1 Hq2. subst L7.
      rewrite !list_lookup_insert_ne by auto. reflexivity.
    + intros q Hq1 Hq2. subst F3.
      rewrite list_lookup_insert_ne by auto. reflexivity.
  - (* the row is blank *)
    set (R6 := set_lfield (Some blank) R5).
    set (R7 := set_lcolor ColorInvert R6).
    assert (Hfb1 : F1 !! blank = Some fb).
    { subst F1. rewrite list_lookup_insert_ne by lia. exact Hfb. }
    set (fb1 := set_variant FieldFill fb).
    set (F2 := <[blank := fb1]> F1).
    set (t8 := set_fields F2 (set_layouts (<[r := R7]> L0) s)).
    rewrite (bind_Ok _ _ t6 tt t8).
    2:{ rewrite (bind_Ok _ _ t6 tt
                   (set_fields F1 (set_layouts (<[r := R6]> L0) s)))
          by (apply (row_write t6 r _ L0 R5); auto).
        rewrite (bind_Ok _ _ _ tt
                   (set_fields F2 (set_layouts (<[r := R6]> L0) s)))
          by (unfold modField; cbn [fields set_fields]; fold blank;
              now rewrite Hfb1).
        refine (eq_trans (row_write _ r _ L0 R6 _ _) _);
          [reflexivity | exact Hrlt | reflexivity]. }
    set (fb2 := set_dirty true fb1).
    set (F3 := <[blank := fb2]> F1).
    set (t9 := set_fields F3 (set_layouts (<[r := R7]> L0) s)).
    rewrite (bind_Ok _ _ t8 tt t9).
    2:{ rewrite (bind_Ok _ _ t8 R7 t8).
        2:{ unfold getLayout. cbn [layouts set_fields set_layouts t8].
            now rewrite list_lookup_insert_eq. }
        cbn [lfield set_lfield set_lcolor R7 R6 deref].
        rewrite (bind_Ok _ _ t8 blank t8) by reflexivity.
        unfold modField. cbn [fields set_fields t8]. subst F2.
        rewrite list_lookup_insert_eq
          by (subst F1; rewrite length_insert; exact Hblt).
        subst t9 F3. cbn [set_fields set_layouts].
        now rewrite list_insert_insert_eq. }
    change (ret false t9) with (Ok false t9). cbv beta iota.
    set (L7 := <[last := set_lfield None r4]> (<[r := R7]> L0)).
    set (t10 := set_fields F3 (set_layouts L7 s)).
    rewrite (bind_Ok _ _ t9 tt t10).
    2:{ unfold modLayout. cbn [layouts set_fields set_layouts t9].
        rewrite list_lookup_insert_ne by lia. fold last. rewrite Hr4.
        reflexivity. }
    exists t10, R7. split; [reflexivity|].
    cbn [layouts fields set_fields set_layouts t10].
    split; [subst L7; rewrite list_lookup_insert_ne by lia;
            now apply list_lookup_insert_eq|].
    split; [reflexivity|]. split; [reflexivity|]. split; [reflexivity|].
    split.
    { unfold field_of_layout. cbn [layouts set_fields set_layouts t10].
      subst L7. rewrite list_lookup_insert_eq; [reflexivity|].
      rewrite length_insert. eapply lookup_lt_Some; eauto. }
    assert (HF3b : F3 !! blank = Some fb2).
    { subst F3. apply list_lookup_insert_eq. subst F1.
      rewrite length_insert. exact Hblt. }
    assert (HF3e : F3 !! entry = Some fe1).
    { subst F3. rewrite list_lookup_insert_ne by lia. exact Hfe1. }
    split; [unfold dirty_at; cbn [fields set_fields t10]; now rewrite HF3e|].
    split; [unfold dirty_at; cbn [fields set_fields t10]; now rewrite HF3b|].
    split; [discriminate|].
    split; [intros _; unfold variant_at; cbn [fields set_fields t10];
            now rewrite HF3b|].
    split.
    + intros q Hq1 Hq2. subst L7.
      rewrite !list_lookup_insert_ne by auto. reflexivity.
    + intros q Hq1 Hq2. subst F3 F1.
      rewrite !list_lookup_insert_ne by auto. reflexivity.
Qed.

(** M on the first row of the example menu: the row shows "Wheel", one row
    height below the menu's layout. *)
Lemma layoutRow_entry_or_blank_witness :
  exists s' r',
    layoutRow 5%nat 6%nat 1 true Examples.menu_before_draw = Ok true s' /\
    layouts s' !! 1%nat = Some r' /\
    lfield r' = Some 7%nat /\ ly r' = 32 /\ lheight r' = 31.
Proof.
  destruct (layoutRow_entry_or_blank Examples.menu_before_draw 5%nat 6%nat 1
              true (set_lheight 128 (set_lwidth 64 (layoutOf 0 0 6)))
              zeroLayout zeroLayout
              (set_dirty true (FIELD_SCROLLABLE "Config" 7)) 7%nat
              (FIELD_EDITABLE_UINT "Wheel" 0 2 "mm" 0 3000 0) FIELD_DRAWTEXT)
    as (s' & r' & Hrun & Hr' & Hgeom & Hshown & _);
    try reflexivity;
    try (unfold first_user_layout, first_user_field; cbn; lia).
  exists s', r'. split; [exact Hrun|]. split; [exact Hr'|].
  split; [exact Hshown|]. unfold geom in Hgeom.
  injection Hgeom as _ Hy _ Hh. split; [exact Hy | exact Hh].
Defined.

(** ** Presses while an editable is active, through [screenOnPress] *)

Lemma map_insert_same {B} (g : Field -> B) (fs : list Field) p f f' :
  fs !! p = Some f -> g f' = g f -> map g (<[p := f']> fs) = map g fs.
Proof.
  intros Hf Hv. change (map g) with (fmap (M:=list) g).
  rewrite list_fmap_insert, Hv. apply list_insert_id.
  now rewrite list_lookup_fmap, Hf.
Qed.

Lemma onPressEditable_scrollables ev s b s' :
  onPressEditable ev s = Ok b s' ->
  map scrollable (fields s') = map scrollable (fields s).
Proof.
  unfold onPressEditable. intros H.
  rewrite (bind_Ok _ _ s (curActiveEditable s) s) in H by reflexivity.
  apply bind_inv_Ok in H. destruct H as (h & sa & Hh & H).
  assert (E1 : fields sa = fields s).
  { destruct (ONOFF_CLICK ev).
    - apply bind_inv_Ok in Hh. destruct Hh as ([] & sb & Hm & Hh).
      inversion Hm; subst. now inversion Hh.
    - now inversion Hh. }
  rewrite <- E1. clear E1 Hh.
  apply bind_inv_Ok in H. destruct H as ([] & sb & Hw & H).
  assert (h = b /\ sb = s') as [-> ->] by (now inversion H). clear H.
  destruct b; cbn [when] in Hw; [|now inversion Hw].
  apply bind_inv_Ok in Hw. destruct Hw as (q & sc & Hq & Hw).
  pose proof (reads_deref _ _ _ _ Hq) as ->.
  apply bind_inv_Ok in Hw. destruct Hw as ([] & sd & Hm & Hw).
  apply modField_inv in Hm. destruct Hm as (fq & Hfq & ->).
  apply bind_inv_Ok in Hw. destruct Hw as (act & se & Hact & Hw).
  pose proof (reads_getActiveScrollable _ _ _ Hact) as ->.
  assert (E3 : map scrollable (fields (set_fields (<[q := set_dirty true fq]>
                                                     (fields sa)) sa))
               = map scrollable (fields sa)).
  { cbn [fields set_fields]. now apply (map_insert_same scrollable _ q fq). }
  destruct (negb (is_null act)); cbn [when] in Hw; [|now inversion Hw].
  apply bind_inv_Ok in Hw. destruct Hw as (root & sf & Hroot & Hw).
  pose proof (reads_rootScrollable _ _ _ Hroot) as ->.
  apply modField_inv in Hw. destruct Hw as (fr & Hfr & ->).
  rewrite <- E3. cbn [fields set_fields].
  now apply (map_insert_same scrollable _ root fr).
Qed.

Lemma onPressEditable_returns s p f ev :
  stack_ok s -> curActiveEditable s = Some p -> fields s !! p = Some f ->
  exists s',
    onPressEditable ev s
    = Ok (UP_CLICK ev || DOWN_CLICK ev || ONOFF_CLICK ev) s' /\
    mem s' = mem s.
Proof.
  intros Hst Hcae Hf. unfold onPressEditable.
  rewrite (bind_Ok _ _ s (Some p) s) by (unfold gets; now rewrite Hcae).
  set (h := UP_CLICK ev || DOWN_CLICK ev || ONOFF_CLICK ev).
  set (s1 := if ONOFF_CLICK ev then set_curActiveEditable None s else s).
  rewrite (bind_Ok _ _ s h s1).
  2:{ subst h s1.
      destruct (ONOFF_CLICK ev), (UP_CLICK ev), (DOWN_CLICK ev); reflexivity. }
  assert (Hst1 : stack_ok s1) by (subst s1; destruct (ONOFF_CLICK ev); exact Hst).
  assert (Hf1 : fields s1 !! p = Some f)
    by (subst s1; destruct (ONOFF_CLICK ev); exact Hf).
  assert (Hm1 : mem s1 = mem s) by (subst s1; now destruct (ONOFF_CLICK ev)).
  destruct h.
  - destruct (mark_edited s1 p f Hst1 Hf1) as (s2 & Hrun & Hrest & _).
    cbn [when]. rewrite (bind_Ok _ _ _ _ _ Hrun).
    exists s2. split; [reflexivity|].
    apply (f_equal mem) in Hrest. cbn in Hrest. congruence.
  - exists s1. split; [reflexivity | exact Hm1].
Qed.

Section EditingPresses.

Variable pressHandler : nat -> buttons_events_t -> M bool.

(** X19.  While an editable is active, a press that holds up, down or
    on/off goes to the editable alone, whatever else is held: the
    scrollable is not asked, so that no scroll window moves, and neither is
    the screen's handler.  A press of M alone, on the other hand, is passed
    on to the scrollable, which selects the entry again: when the active
    editable is the selected entry, M leaves it active.  Neither press
    changes a stored value. *)
Theorem editing_press_dispatch (s : state) (p : fptr) (f : Field) :
  stack_ok s -> curActiveEditable s = Some p -> fields s !! p = Some f ->
  (forall ev,
      UP_CLICK ev || DOWN_CLICK ev || ONOFF_CLICK ev = true ->
      exists s',
        screenOnPress pressHandler ev s = Ok true s' /\
        onPressEditable ev s = Ok true s' /\
        map scrollable (fields s') = map scrollable (fields s) /\
        mem s' = mem s) /\
  (forall sp fs e,
      getActiveScrollable s = Ok (Some sp) s ->
      fields s !! sp = Some fs -> entries (scrollable fs) = Some e ->
      0 <= selected (scrollable fs) ->
      p = (e + Z.to_nat (selected (scrollable fs)))%nat ->
      variant f = FieldEditable -> read_only (editable f) = false ->
      exists s',
        screenOnPress pressHandler press_select s = Ok true s' /\
        curActiveEditable s' = Some p /\ mem s' = mem s).
Proof.
  intros Hst Hcae Hf. split.
  - intros ev Hev.
    destruct (onPressEditable_returns s p f ev Hst Hcae Hf) as (s' & Hrun & Hm).
    rewrite Hev in Hrun. exists s'.
    split; [|split; [exact Hrun|split; [|exact Hm]]].
    + unfold screenOnPress.
      rewrite (bind_Ok _ _ s (Some p) s) by (unfold gets; now rewrite Hcae).
      cbn [is_null negb].
      rewrite (bind_Ok _ _ s true s')
        by now rewrite (bind_Ok _ _ _ _ _ Hrun).
      cbn [negb]. rewrite (bind_Ok _ _ s' true s') by reflexivity.
      rewrite (bind_Ok _ _ s' (curScreen s') s') by reflexivity.
      destruct (curScreen s') as [scr|]; [|reflexivity].
      destruct (onPress scr); reflexivity.
    + exact (onPressEditable_scrollables ev s true s' Hrun).
  - intros sp fs e Ha Hfs He Hsel Hp Hv Hro.
    rewrite Hp in Hf.
    destruct (select_editable_run s sp fs e f Hst Ha Hfs He Hsel Hf Hv Hro)
      as (s' & Hrun & Hcae' & _ & Hm & _).
    exists s'. split; [|split; [now rewrite Hp | exact Hm]].
    unfold screenOnPress.
    rewrite (bind_Ok _ _ s (Some p) s) by (unfold gets; now rewrite Hcae).
    cbn [is_null negb].
    rewrite (bind_Ok _ _ s false s).
    2:{ rewrite (bind_Ok _ _ s false s); [reflexivity|].
        destruct (onPressEditable_returns s p f press_select Hst Hcae)
          as (s0 & Hrun0 & _); [now rewrite Hp|].
        cbn [press_select UP_CLICK DOWN_CLICK ONOFF_CLICK orb] in Hrun0.
        unfold onPressEditable in *.
        rewrite (bind_Ok _ _ s (Some p) s) in Hrun0
          by (unfold gets; now rewrite Hcae).
        rewrite (bind_Ok _ _ s (Some p) s)
          by (unfold gets; now rewrite Hcae).
        reflexivity. }
    cbn [negb orb].
    rewrite (bind_Ok _ _ s true s')
      by now rewrite (bind_Ok _ _ _ _ _ Hrun).
    rewrite (bind_Ok _ _ s' (curScreen s') s') by reflexivity.
    destruct (curScreen s') as [scr|]; [|reflexivity].
    destruct (onPress scr); reflexivity.
Qed.

End EditingPresses.

(** Up while "Wheel" is edited in the example menu: the press is claimed,
    the selection of the menu and the stored value stay. *)
Lemma editing_press_dispatch_witness :
  exists s',
    screenOnPress (fun _ _ => ret false) press_up wheel_editing = Ok true s' /\
    map scrollable (fields s') = map scrollable (fields wheel_editing) /\
    mem s' = mem wheel_editing.
Proof.
  edestruct (editing_press_dispatch (fun _ _ => ret false) wheel_editing
               7%nat) as [Hheld _].
  - split; [reflexivity|]. split; [vm_compute; split; discriminate|].
    intros i Hi. exists 6%nat.
    assert (i = 0%nat) as -> by (vm_compute in Hi; lia).
    split; [reflexivity | vm_compute; eauto].
  - reflexivity.
  - vm_compute. reflexivity.
  - destruct (Hheld press_up eq_refl) as (s' & Hrun & _ & Hsc & Hm).
    exists s'. split; [exact Hrun|]. split; [exact Hsc | exact Hm].
Defined.

(** ** A held button in an editing step *)

Lemma display_blind_ret {A} (a : A) : display_blind (ret a).
Proof. intros d s. reflexivity. Qed.

Lemma display_blind_gets {A} (g : state -> A) :
  (forall d s, g (set_display d s) = g s) -> display_blind (gets g).
Proof. intros H d s. unfold gets. now rewrite H. Qed.

Lemma display_blind_fail {A} (o : outcome A) :
  (forall a s, o <> Ok a s) -> display_blind (fun _ => o).
Proof. intros H d s. destruct o; try reflexivity. now elim (H a s0). Qed.

Lemma display_blind_bind {A B} (m : M A) (k : A -> M B) :
  display_blind m -> (forall a, display_blind (k a)) ->
  display_blind (bind m k).
Proof.
  intros Hm Hk d s. unfold bind. rewrite Hm.
  destruct (m s) as [a s1| | |]; try reflexivity. apply Hk.
Qed.

Lemma display_blind_when b (m : M unit) :
  display_blind m -> display_blind (when b m).
Proof. intros H. destruct b; [exact H | apply display_blind_ret]. Qed.

Lemma display_blind_deref {A} (o : option A) : display_blind (deref o).
Proof.
  destruct o; [apply display_blind_ret|].
  apply display_blind_fail. discriminate.
Qed.

Lemma display_blind_getField p : display_blind (getField p).
Proof.
  intros d s. unfold getField. cbn [fields set_display].
  now destruct (fields s !! p).
Qed.

Lemma display_blind_load n a : display_blind (load n a).
Proof.
  intros d s. unfold load. cbn [mem set_display].
  now destruct (load_le n a (mem s)).
Qed.

Lemma display_blind_store n a v : display_blind (store n a v).
Proof.
  intros d s. unfold store. cbn [mem set_display].
  now destruct (in_bounds n a (mem s)).
Qed.

Ltac blind_step :=
  first
    [ apply display_blind_ret | apply display_blind_getField
    | apply display_blind_load | apply display_blind_store
    | apply display_blind_deref
    | apply display_blind_gets; reflexivity
    | apply display_blind_fail; discriminate
    | apply display_blind_when
    | apply display_blind_bind; [|intros ?]
    | match goal with
      | |- display_blind (if ?b then _ else _) => destruct b
      | |- display_blind (match ?x with _ => _ end) => destruct x
      end ].

Lemma display_blind_changeEditable b : display_blind (changeEditable b).
Proof.
  unfold changeEditable, getEditableNumber, setEditableNumber,
    countEnumOptions.
  repeat blind_step.
Qed.

Lemma display_blind_held_buttons :
  display_blind
    (let* up := gets up_state in
     do when up (changeEditable true) then
     let* down := gets down_state in
     when down (changeEditable false)).
Proof.
  pose proof display_blind_changeEditable as Hc.
  repeat first [apply Hc | blind_step].
Qed.

(** X20.  An editing step applies the held buttons and nothing else to the
    storage: when the layout shows the active editable, the blink tick has
    fired and the editable is not read-only, a call of [renderEditable]
    that returns leaves the storage as one [changeEditable (true)] for a
    held up followed by one [changeEditable (false)] for a held down leave
    it, and no field has changed. *)
Theorem renderEditable_applies_held_buttons (s : state) (p : lptr)
    (l : FieldLayout) (fp : fptr) (f : Field) (b : bool) (s' : state) :
  layouts s !! p = Some l -> lfield l = Some fp ->
  fields s !! fp = Some f ->
  curActiveEditable s = Some fp -> blinkChanged s = true ->
  read_only (editable f) = false ->
  renderEditable p s = Ok b s' ->
  exists s2,
    (let* up := gets up_state in
     do when up (changeEditable true) then
     let* down := gets down_state in
     when down (changeEditable false)) s = Ok tt s2 /\
    mem s' = mem s2 /\ fields s' = fields s.
Proof.
  intros Hl Hfp Hf Hcae Hbc Hro H. unfold renderEditable in H.
  rewrite (bind_Ok _ _ _ _ _ (getLayout_Ok _ _ _ Hl)), Hfp in H.
  cbn [deref] in H.
  rewrite (bind_Ok _ _ s fp s) in H by reflexivity.
  rewrite (bind_Ok _ _ _ _ _ (getField_Ok _ _ _ Hf)) in H.
  cbv zeta in H.
  rewrite (bind_Ok _ _ s (Some fp) s) in H by (unfold gets; now rewrite Hcae).
  set (se := set_display (display s ++ [UG_SetForecolor (getForeColor l)]) s)
    in *.
  rewrite (bind_Ok _ _ s tt se) in H by reflexivity.
  rewrite (bind_Ok _ _ se true se) in H
    by (unfold gets; cbn [blinkChanged set_display se]; now rewrite Hbc).
  cbn [fptr_eqb] in H. rewrite Nat.eqb_refl, Hro in H. cbn [andb negb when] in H.
  apply bind_inv_Ok in H. destruct H as ([] & s2e & Hheld & H).
  (* the held buttons, on [s] as on [se] *)
  pose proof (display_blind_held_buttons
                (display s ++ [UG_SetForecolor (getForeColor l)]) s) as Hblind.
  fold se in Hblind. rewrite Hheld in Hblind.
  destruct ((let* up := gets up_state in
             do when up (changeEditable true) then
             let* down := gets down_state in
             when down (changeEditable false)) s)
    as [[] s2| | |] eqn:Hrun; try discriminate.
  injection Hblind as ->.
  exists s2. split; [reflexivity|].
  assert (Hfs2 : fields s2 = fields s).
  { apply bind_inv_Ok in Hrun. destruct Hrun as (up & sa & Hup & Hrun).
    inversion Hup; subst; clear Hup.
    apply bind_inv_Ok in Hrun. destruct Hrun as ([] & sb & H1 & Hrun).
    apply bind_inv_Ok in Hrun. destruct Hrun as (down & sc & Hdown & Hrun).
    inversion Hdown; subst; clear Hdown.
    assert (E1 : fields sc = fields sa).
    { destruct (up_state sa); cbn [when] in H1; [|now inversion H1].
      now destruct (changeEditable_writes_cell _ _ _ H1) as (_ & E & _). }
    assert (E2 : fields s2 = fields sc).
    { destruct (down_state sc); cbn [when] in Hrun; [|now inversion Hrun].
      now destruct (changeEditable_writes_cell _ _ _ Hrun) as (_ & E & _). }
    congruence. }
  (* the rest of the renderer writes to the layout and the display only *)
  set (t := set_display (display s ++ [UG_SetForecolor (getForeColor l)]) s2)
    in *.
  apply bind_inv_Ok in H. destruct H as (v & t1 & Hv & H).
  pose proof (reads_getEditableNumber _ _ _ _ Hv) as ->.
  apply bind_inv_Ok in H. destruct H as (l1 & t1 & Hl1 & H).
  pose proof (reads_getLayout _ _ _ _ Hl1) as ->.
  apply bind_inv_Ok in H. destruct H as (d1 & t2 & Hd1 & H).
  assert (Ht2 : mem t2 = mem t /\ fields t2 = fields t).
  { destruct (negb (to_uint32 v =? old_editable l1)).
    - apply bind_inv_Ok in Hd1. destruct Hd1 as ([] & t3 & Hm & Hd1).
      apply modLayout_inv in Hm. destruct Hm as (? & _ & ->).
      inversion Hd1; subst. split; reflexivity.
    - inversion Hd1; subst. split; reflexivity. }
  destruct Ht2 as [Hm2 Hf2].
  apply bind_inv_Ok in H. destruct H as (fl & t3 & Hfl & H).
  inversion Hfl; subst; clear Hfl.
  apply bind_inv_Ok in H. destruct H as (ofl & t4 & Hofl & H).
  inversion Hofl; subst; clear Hofl.
  assert (Hdraw : exists ops, s' = set_display (display t4 ++ ops) t4).
  { destruct (negb (if negb (Bool.eqb (forceLabels t4) (oldForceLabels t4))
                    then true else d1)).
    - inversion H; subst. exists []. symmetry. apply set_display_same.
    - revert H. refine ((_ : draws_only _) t4 b s').
      unfold fillFrame, putString, drawLine. drawing. }
  destruct Hdraw as (ops & ->). cbn [mem fields set_display].
  split; [rewrite Hm2 | rewrite Hf2, <- Hfs2]; reflexivity.
Qed.

(** Up held on "Level": the 5 in its cell becomes 6, as after one
    [changeEditable (true)]. *)
Lemma renderEditable_applies_held_buttons_witness :
  exists s' s2,
    renderEditable 5%nat level_held_up = Ok true s' /\
    changeEditable true level_held_up = Ok tt s2 /\
    mem s' = mem s2 /\ mem s2 = [Byte.x06; Byte.x07].
Proof.
  destruct (renderEditable 5%nat level_held_up) as [b s'| | |] eqn:E;
    try (vm_compute in E; discriminate).
  destruct (renderEditable_applies_held_buttons level_held_up 5%nat
              (set_lheight 24 (set_lwidth 64 (layoutOf 0 0 6))) 6%nat
              (FIELD_EDITABLE_UINT "Level" 0 1 EmptyString 0 9 0) b s')
    as (s2 & Hrun & Hm & _); try reflexivity; [exact E|].
  assert (b = true) as -> by (vm_compute in E; now injection E).
  vm_compute in Hrun. injection Hrun as <-.
  exists s'. eexists. split; [reflexivity|].
  split; [vm_compute; reflexivity|]. split; [exact Hm | reflexivity].
Defined.
